(** * ESP32 relay controller: relay service and HTTP controller

    A shallow embedding of [src/relay_service.c] and of the request
    handlers of [src/http_controller.c], with the constants of
    [include/config.h].  The static variables of [relay_service.c]
    ([relays], [last_toggle_time], [led_initialized]) become the fields of
    one [world] record that every function takes and returns; the platform
    (GPIO matrix, NVS flash store, FreeRTOS tick counter) is modelled by
    three more fields of that record and by an [env] record that carries
    what the platform answers during one call. *)

From Stdlib Require Import ZArith Lia List Bool Ascii String.
From Stdlib Require Import DecimalString DecimalNat.
From stdpp Require Import base option list gmap strings.

Local Open Scope string_scope.
Local Open Scope Z_scope.

(** ** include/config.h *)

Module Config.

Definition LED_BUILTIN_GPIO : Z := 2.
Definition LED_BLINK_ON_MS : Z := 50.
Definition LED_BLINK_COUNT : Z := 1.

Definition RELAY_COUNT : Z := 4.

Definition RELAY_1_GPIO : Z := 16.
Definition RELAY_2_GPIO : Z := 17.
Definition RELAY_3_GPIO : Z := 18.
Definition RELAY_4_GPIO : Z := 19.

Definition RELAY_1_NAME : string := "Light 1".
Definition RELAY_2_NAME : string := "Light 2".
Definition RELAY_3_NAME : string := "Fan 1".
Definition RELAY_4_NAME : string := "Fan 2".

(** [#define RELAY_ACTIVE_LOW 1], [#define RELAY_PERSIST_STATE 1]: the
    two [#if] switches of the service, kept as booleans so that both
    branches of the source stay visible in the embedding. *)
Definition RELAY_ACTIVE_LOW : bool := true.
Definition RELAY_PERSIST_STATE : bool := true.

Definition RELAY_DEBOUNCE_MS : Z := 50.

End Config.
Import Config.

(** ** include/relay_service.h *)

Inductive relay_state_t : Type :=
| RELAY_OFF
| RELAY_ON.

#[global] Instance relay_state_eq_dec : EqDecision relay_state_t.
Proof. solve_decision. Defined.

(** The integer value of the enumerators ([RELAY_OFF = 0], [RELAY_ON = 1]). *)
Definition state_value (s : relay_state_t) : Z :=
  match s with
  | RELAY_OFF => 0
  | RELAY_ON => 1
  end.

Definition is_on (s : relay_state_t) : bool :=
  match s with
  | RELAY_ON => true
  | RELAY_OFF => false
  end.

(** [#define RELAY_DEFAULT_STATE 0]: the initialiser of the [state] field. *)
Definition RELAY_DEFAULT_STATE : relay_state_t := RELAY_OFF.

Record relay_info_t : Type := mk_relay {
  gpio_pin : Z;
  name : string;
  state : relay_state_t
}.

Definition with_state (s : relay_state_t) (r : relay_info_t) : relay_info_t :=
  {| gpio_pin := gpio_pin r; name := name r; state := s |}.

(** ** The platform *)

Definition esp_err_t : Type := Z.
Definition ESP_OK : esp_err_t := 0.
Definition ESP_ERR_INVALID_ARG : esp_err_t := 258.
Definition ESP_ERR_NVS_NOT_FOUND : esp_err_t := 4354.

Inductive gpio_mode_t : Type :=
| GPIO_MODE_OUTPUT
| GPIO_MODE_OUTPUT_OD.

Inductive nvs_open_mode_t : Type :=
| NVS_READONLY
| NVS_READWRITE.

(** Calls into the platform, in the order the code makes them. *)
Inductive event : Type :=
| EvGpioConfig (pin : Z) (mode : gpio_mode_t)
| EvGpioSetLevel (pin level : Z)
| EvTaskDelayMs (ms : Z)
| EvNvsOpen (mode : nvs_open_mode_t)
| EvNvsGetU8
| EvNvsSetU8 (value : Z)
| EvNvsCommit
| EvNvsClose.

#[global] Instance gpio_mode_eq_dec : EqDecision gpio_mode_t.
Proof. solve_decision. Defined.
#[global] Instance nvs_open_mode_eq_dec : EqDecision nvs_open_mode_t.
Proof. solve_decision. Defined.
#[global] Instance event_eq_dec : EqDecision event.
Proof. solve_decision. Defined.

(** What the platform answers during one call of a service function:
    the tick counter read by [xTaskGetTickCount], the FreeRTOS constant
    [portTICK_PERIOD_MS] (declared outside this repository), and the
    return codes of the driver and NVS calls. *)
Record env : Type := mk_env {
  tick_count : Z;
  portTICK_PERIOD_MS : Z;
  rc_gpio_config : Z -> esp_err_t;
  rc_nvs_open : esp_err_t;
  rc_nvs_get : esp_err_t;
  rc_nvs_set : esp_err_t;
  rc_nvs_commit : esp_err_t
}.

(** The statics of [relay_service.c] together with the platform state the
    service acts on. *)
Record world : Type := mk_world {
  relays : list relay_info_t;
  last_toggle_time : list Z;
  led_initialized : bool;
  gpio : gmap Z Z;
  nvs : option Z;
  trace : list event
}.

Definition set_relays (rs : list relay_info_t) (w : world) : world :=
  {| relays := rs; last_toggle_time := last_toggle_time w;
     led_initialized := led_initialized w; gpio := gpio w;
     nvs := nvs w; trace := trace w |}.

Definition set_last_toggle_time (ts : list Z) (w : world) : world :=
  {| relays := relays w; last_toggle_time := ts;
     led_initialized := led_initialized w; gpio := gpio w;
     nvs := nvs w; trace := trace w |}.

Definition set_led_initialized (b : bool) (w : world) : world :=
  {| relays := relays w; last_toggle_time := last_toggle_time w;
     led_initialized := b; gpio := gpio w;
     nvs := nvs w; trace := trace w |}.

Definition set_nvs (v : option Z) (w : world) : world :=
  {| relays := relays w; last_toggle_time := last_toggle_time w;
     led_initialized := led_initialized w; gpio := gpio w;
     nvs := v; trace := trace w |}.

Definition emit (evs : list event) (w : world) : world :=
  {| relays := relays w; last_toggle_time := last_toggle_time w;
     led_initialized := led_initialized w; gpio := gpio w;
     nvs := nvs w; trace := trace w ++ evs |}.

(** [gpio_set_level(pin, level)]: the level is latched on the pin. *)
Definition gpio_set_level (pin level : Z) (w : world) : world :=
  emit [EvGpioSetLevel pin level]
    {| relays := relays w; last_toggle_time := last_toggle_time w;
       led_initialized := led_initialized w;
       gpio := <[pin := level]> (gpio w);
       nvs := nvs w; trace := trace w |}.

Definition gpio_config (e : env) (pin : Z) (mode : gpio_mode_t) (w : world)
  : esp_err_t * world :=
  (rc_gpio_config e pin, emit [EvGpioConfig pin mode] w).

Definition vTaskDelay_ms (ms : Z) (w : world) : world :=
  emit [EvTaskDelayMs ms] w.

(** [for (int i = 0; i < n; i++) body(i)] *)
Definition for_loop {S : Type} (n : Z) (body : Z -> S -> S) (s : S) : S :=
  foldl (fun acc i => body i acc) s (seqZ 0 n).

Definition uint32 (x : Z) : Z := x mod 2 ^ 32.
Definition uint8 (x : Z) : Z := x mod 2 ^ 8.

(** ** src/relay_service.c *)

(** [relays[relay_id]] and [last_toggle_time[relay_id]].  Both arrays have
    [RELAY_COUNT] entries and every access in the source is guarded by
    [relay_id < RELAY_COUNT] or made in a loop over [0 .. RELAY_COUNT-1];
    the defaults below only make the reads total. *)
Definition no_relay : relay_info_t :=
  {| gpio_pin := 0; name := ""; state := RELAY_DEFAULT_STATE |}.

Definition relay_at (w : world) (relay_id : Z) : relay_info_t :=
  default no_relay (relays w !! Z.to_nat relay_id).

Definition last_toggle_at (w : world) (relay_id : Z) : Z :=
  default 0 (last_toggle_time w !! Z.to_nat relay_id).

Definition state_at (w : world) (relay_id : Z) : relay_state_t :=
  state (relay_at w relay_id).

(** [relays[relay_id].state = s] *)
Definition write_state (relay_id : Z) (s : relay_state_t) (w : world) : world :=
  set_relays (alter (with_state s) (Z.to_nat relay_id) (relays w)) w.

(** The static initialisers. *)
Definition initial_relays : list relay_info_t :=
  [ mk_relay RELAY_1_GPIO RELAY_1_NAME RELAY_DEFAULT_STATE;
    mk_relay RELAY_2_GPIO RELAY_2_NAME RELAY_DEFAULT_STATE;
    mk_relay RELAY_3_GPIO RELAY_3_NAME RELAY_DEFAULT_STATE;
    mk_relay RELAY_4_GPIO RELAY_4_NAME RELAY_DEFAULT_STATE ].

(** The world at reset: statics at their initialisers, no pin driven yet,
    and whatever the flash store holds from earlier runs. *)
Definition boot_world (stored : option Z) : world :=
  {| relays := initial_relays;
     last_toggle_time := replicate (Z.to_nat RELAY_COUNT) 0;
     led_initialized := false;
     gpio := ∅;
     nvs := stored;
     trace := [] |}.

Definition init_led (e : env) (w : world) : world :=
  if led_initialized w then w
  else
    let w := snd (gpio_config e LED_BUILTIN_GPIO GPIO_MODE_OUTPUT w) in
    let w := gpio_set_level LED_BUILTIN_GPIO 0 w in
    set_led_initialized true w.

Definition blink_led (w : world) : world :=
  if negb (led_initialized w) then w
  else
    for_loop LED_BLINK_COUNT (fun i w =>
      let w := gpio_set_level LED_BUILTIN_GPIO 1 w in
      let w := vTaskDelay_ms LED_BLINK_ON_MS w in
      let w := gpio_set_level LED_BUILTIN_GPIO 0 w in
      if i <? LED_BLINK_COUNT - 1 then vTaskDelay_ms LED_BLINK_ON_MS w else w) w.

(** The level that [apply_gpio_state] computes for a logical state. *)
Definition gpio_level_of (s : relay_state_t) : Z :=
  if RELAY_ACTIVE_LOW
  then (if decide (s = RELAY_ON) then 0 else 1)
  else (if decide (s = RELAY_ON) then 1 else 0).

Definition apply_gpio_state (relay_id : Z) (w : world) : world :=
  if relay_id >=? RELAY_COUNT then w
  else
    gpio_set_level (gpio_pin (relay_at w relay_id))
      (gpio_level_of (state_at w relay_id)) w.

(** The time stamp the debounce test works with. *)
Definition now_ms (e : env) : Z := uint32 (tick_count e * portTICK_PERIOD_MS e).

Definition debounce_check (e : env) (relay_id : Z) (w : world) : bool * world :=
  let now := now_ms e in
  if uint32 (now - last_toggle_at w relay_id) <? RELAY_DEBOUNCE_MS
  then (false, w)
  else (true,
        set_last_toggle_time
          (<[Z.to_nat relay_id := now]> (last_toggle_time w)) w).

(** The loop of [relay_save_states] that packs the states into one byte. *)
Definition pack_states (w : world) : Z :=
  for_loop RELAY_COUNT (fun i packed_states =>
    if decide (state_at w i = RELAY_ON)
    then uint8 (Z.lor packed_states (Z.shiftl 1 i))
    else packed_states) 0.

Definition relay_save_states (e : env) (w : world) : esp_err_t * world :=
  let w := emit [EvNvsOpen NVS_READWRITE] w in
  let ret := rc_nvs_open e in
  if negb (ret =? ESP_OK) then (ret, w)
  else
    let packed_states := pack_states w in
    let w := emit [EvNvsSetU8 packed_states] w in
    let ret := rc_nvs_set e in
    if negb (ret =? ESP_OK) then (ret, emit [EvNvsClose] w)
    else
      let ret := rc_nvs_commit e in
      let w := emit [EvNvsCommit] w in
      let w := if ret =? ESP_OK then set_nvs (Some packed_states) w else w in
      (ret, emit [EvNvsClose] w).

(** [nvs_get_u8]: the stored byte, [ESP_ERR_NVS_NOT_FOUND] when the key was
    never written, or the read failure the platform reports. *)
Definition nvs_get_u8 (e : env) (w : world) : esp_err_t * Z :=
  if negb (rc_nvs_get e =? ESP_OK) then (rc_nvs_get e, 0)
  else
    match nvs w with
    | Some v => (ESP_OK, v)
    | None => (ESP_ERR_NVS_NOT_FOUND, 0)
    end.

(** The loop of [relay_load_states] that unpacks the byte. *)
Definition unpack_states (packed_states : Z) (w : world) : world :=
  for_loop RELAY_COUNT (fun i w =>
    write_state i
      (if negb (Z.land packed_states (Z.shiftl 1 i) =? 0)
       then RELAY_ON else RELAY_OFF) w) w.

Definition relay_load_states (e : env) (w : world) : esp_err_t * world :=
  let w := emit [EvNvsOpen NVS_READONLY] w in
  let ret := rc_nvs_open e in
  if negb (ret =? ESP_OK) then (ret, w)
  else
    let '(ret, packed_states) := nvs_get_u8 e w in
    let w := emit [EvNvsGetU8; EvNvsClose] w in
    if negb (ret =? ESP_OK) then (ret, w)
    else (ESP_OK, unpack_states packed_states w).

(** The first loop of [relay_service_init], which returns from the
    function as soon as one [gpio_config] fails. *)
Fixpoint configure_pins (e : env) (ids : list Z) (w : world)
  : esp_err_t * world :=
  match ids with
  | [] => (ESP_OK, w)
  | i :: ids' =>
      let pin := gpio_pin (relay_at w i) in
      let w := gpio_set_level pin 1 w in
      let '(ret, w) := gpio_config e pin GPIO_MODE_OUTPUT_OD w in
      if negb (ret =? ESP_OK) then (ret, w)
      else configure_pins e ids' (gpio_set_level pin 1 w)
  end.

Definition relay_service_init (e : env) (w : world) : esp_err_t * world :=
  let w := init_led e w in
  let '(ret, w) := configure_pins e (seqZ 0 RELAY_COUNT) w in
  if negb (ret =? ESP_OK) then (ret, w)
  else
    let w := if RELAY_PERSIST_STATE then snd (relay_load_states e w) else w in
    let w := for_loop RELAY_COUNT apply_gpio_state w in
    (ESP_OK, w).

Definition relay_toggle (e : env) (relay_id : Z) (w : world) : Z * world :=
  if relay_id >=? RELAY_COUNT then (-1, w)
  else
    let '(passed, w) := debounce_check e relay_id w in
    if negb passed then (state_value (state_at w relay_id), w)
    else
      let w := write_state relay_id
                 (if decide (state_at w relay_id = RELAY_ON)
                  then RELAY_OFF else RELAY_ON) w in
      let w := apply_gpio_state relay_id w in
      let w := blink_led w in
      let w := if RELAY_PERSIST_STATE then snd (relay_save_states e w) else w in
      (state_value (state_at w relay_id), w).

Definition relay_set_state (e : env) (relay_id : Z) (s : relay_state_t)
    (w : world) : esp_err_t * world :=
  if relay_id >=? RELAY_COUNT then (ESP_ERR_INVALID_ARG, w)
  else
    let w := write_state relay_id s w in
    let w := apply_gpio_state relay_id w in
    let w := blink_led w in
    let w := if RELAY_PERSIST_STATE then snd (relay_save_states e w) else w in
    (ESP_OK, w).

Definition relay_get_state (relay_id : Z) (w : world) : Z :=
  if relay_id >=? RELAY_COUNT then -1
  else state_value (state_at w relay_id).

(** [NULL] is [None]. *)
Definition relay_get_info (relay_id : Z) (w : world) : option relay_info_t :=
  if relay_id >=? RELAY_COUNT then None
  else Some (relay_at w relay_id).

Definition relay_get_count : Z := RELAY_COUNT.

Definition relay_all_off (e : env) (w : world) : esp_err_t * world :=
  let w := for_loop RELAY_COUNT (fun i w =>
             apply_gpio_state i (write_state i RELAY_OFF w)) w in
  let w := if RELAY_PERSIST_STATE then snd (relay_save_states e w) else w in
  (ESP_OK, w).

Definition relay_all_on (e : env) (w : world) : esp_err_t * world :=
  let w := for_loop RELAY_COUNT (fun i w =>
             apply_gpio_state i (write_state i RELAY_ON w)) w in
  let w := if RELAY_PERSIST_STATE then snd (relay_save_states e w) else w in
  (ESP_OK, w).

(** ** The C library calls of [extract_relay_id]

    [strstr], [strncmp] and [atoi] belong to the C library, not to this
    repository.  They are modelled on C strings without the terminating
    NUL; [atoi] is the C library's [(int) strtol(s, NULL, 10)] with
    [strtol]'s saturation at the bounds of a 32-bit [long]. *)

Module Libc.

Definition char_code (c : ascii) : Z := Z.of_N (N_of_ascii c).

Definition isspace (c : ascii) : bool :=
  (char_code c =? 32) || ((9 <=? char_code c) && (char_code c <=? 13)).

Definition isdigit (c : ascii) : bool :=
  (48 <=? char_code c) && (char_code c <=? 57).

(** [strncmp(a, b, n) == 0] *)
Fixpoint strncmp_eq (a b : string) (n : nat) {struct n} : bool :=
  match n with
  | O => true
  | S n' =>
      match a, b with
      | EmptyString, EmptyString => true
      | String x a', String y b' =>
          if Ascii.eqb x y then strncmp_eq a' b' n' else false
      | _, _ => false
      end
  end.

(** [strstr(haystack, needle)]: the suffix of [haystack] that starts at
    the first occurrence of [needle], [None] for [NULL]. *)
Fixpoint strstr (haystack needle : string) : option string :=
  if String.prefix needle haystack then Some haystack
  else
    match haystack with
    | EmptyString => None
    | String _ rest => strstr rest needle
    end.

(** [p += n] on a string that has at least [n] characters left. *)
Fixpoint advance (n : nat) (p : string) : string :=
  match n, p with
  | S n', String _ p' => advance n' p'
  | _, _ => p
  end.

Fixpoint skip_spaces (s : string) : string :=
  match s with
  | String c s' => if isspace c then skip_spaces s' else s
  | EmptyString => s
  end.

Fixpoint read_digits (acc : Z) (s : string) : Z :=
  match s with
  | String c s' =>
      if isdigit c then read_digits (acc * 10 + (char_code c - 48)) s'
      else acc
  | EmptyString => acc
  end.

Definition LONG_MAX : Z := 2 ^ 31 - 1.
Definition LONG_MIN : Z := - 2 ^ 31.

Definition strtol10 (s : string) : Z :=
  let s := skip_spaces s in
  let '(negative, s) :=
    match s with
    | String "-" s' => (true, s')
    | String "+" s' => (false, s')
    | _ => (false, s)
    end in
  let v := read_digits 0 s in
  let v := if negative then - v else v in
  Z.max LONG_MIN (Z.min LONG_MAX v).

Definition atoi (s : string) : Z := strtol10 s.

End Libc.

(** ** src/http_controller.c *)

Definition extract_relay_id (uri : string) : Z :=
  match Libc.strstr uri "/relay/" with
  | None => -1
  | Some p =>
      let p := Libc.advance 7 p in
      if Libc.strncmp_eq p "all" 3 then -2
      else
        let id := Libc.atoi p in
        if (id <? 0) || (id >=? RELAY_COUNT) then -1
        else id
  end.

(** The body of a reply: the template of [ui_templates.h] that the handler
    instantiates, with the arguments it passes to [snprintf]. *)
Inductive json : Type :=
| JSON_RELAY_STATUS (id : Z) (relay_name : string) (relay_state : Z)
| JSON_ALL_STATUS (entries : list (Z * string * Z))
| JSON_ERROR (msg : string)
| JSON_SUCCESS (msg : string).

Record response : Type := mk_response {
  http_status : string;
  body : json
}.

Definition send_json_response (j : json) : response :=
  {| http_status := "200 OK"; body := j |}.

Definition send_json_error (status : string) (msg : string) : response :=
  {| http_status := status; body := JSON_ERROR msg |}.

Definition handler_toggle (e : env) (uri : string) (w : world)
  : response * world :=
  let relay_id := extract_relay_id uri in
  if relay_id <? 0
  then (send_json_error "400 Bad Request" "Invalid relay ID", w)
  else
    let '(new_state, w) := relay_toggle e (uint8 relay_id) w in
    match relay_get_info (uint8 relay_id) w with
    | None => (send_json_error "404 Not Found" "Relay not found", w)
    | Some info =>
        (send_json_response (JSON_RELAY_STATUS relay_id (name info) new_state), w)
    end.

Definition handler_status (uri : string) (w : world) : response :=
  let relay_id := extract_relay_id uri in
  if relay_id =? -2
  then
    send_json_response
      (JSON_ALL_STATUS
         (for_loop RELAY_COUNT (fun i entries =>
            let info := default no_relay (relay_get_info (uint8 i) w) in
            (entries ++ [(i, name info, state_value (state info))])%list)
            []))
  else if relay_id <? 0
  then send_json_error "400 Bad Request" "Invalid relay ID"
  else
    match relay_get_info (uint8 relay_id) w with
    | None => send_json_error "404 Not Found" "Relay not found"
    | Some info =>
        send_json_response
          (JSON_RELAY_STATUS relay_id (name info) (state_value (state info)))
    end.

Definition handler_on (e : env) (uri : string) (w : world) : response * world :=
  let relay_id := extract_relay_id uri in
  if relay_id =? -2
  then
    let w := snd (relay_all_on e w) in
    (send_json_response (JSON_SUCCESS "All relays ON"), w)
  else if relay_id <? 0
  then (send_json_error "400 Bad Request" "Invalid relay ID", w)
  else
    let w := snd (relay_set_state e (uint8 relay_id) RELAY_ON w) in
    match relay_get_info (uint8 relay_id) w with
    | None => (send_json_error "404 Not Found" "Relay not found", w)
    | Some info =>
        (send_json_response
           (JSON_RELAY_STATUS relay_id (name info) (state_value RELAY_ON)), w)
    end.

Definition handler_off (e : env) (uri : string) (w : world) : response * world :=
  let relay_id := extract_relay_id uri in
  if relay_id =? -2
  then
    let w := snd (relay_all_off e w) in
    (send_json_response (JSON_SUCCESS "All relays OFF"), w)
  else if relay_id <? 0
  then (send_json_error "400 Bad Request" "Invalid relay ID", w)
  else
    let w := snd (relay_set_state e (uint8 relay_id) RELAY_OFF w) in
    match relay_get_info (uint8 relay_id) w with
    | None => (send_json_error "404 Not Found" "Relay not found", w)
    | Some info =>
        (send_json_response
           (JSON_RELAY_STATUS relay_id (name info) (state_value RELAY_OFF)), w)
    end.

(** ** Commands, well-formed worlds and observations *)

(** The commands of the control surface, as the handlers issue them; a
    relay index reaches the service through a [uint8_t] parameter. *)
Inductive command : Type :=
| Toggle (i : Z)
| SetState (i : Z) (s : relay_state_t)
| GetState (i : Z)
| SetStateAll (s : relay_state_t)
| SaveStates.

Definition relay_all (s : relay_state_t) (e : env) (w : world)
  : esp_err_t * world :=
  match s with
  | RELAY_ON => relay_all_on e w
  | RELAY_OFF => relay_all_off e w
  end.

Definition exec (e : env) (c : command) (w : world) : world :=
  match c with
  | Toggle i => snd (relay_toggle e (uint8 i) w)
  | SetState i s => snd (relay_set_state e (uint8 i) s w)
  | GetState i => w
  | SetStateAll s => snd (relay_all s e w)
  | SaveStates => snd (relay_save_states e w)
  end.

Fixpoint exec_all (cs : list (env * command)) (w : world) : world :=
  match cs with
  | [] => w
  | (e, c) :: cs' => exec_all cs' (exec e c w)
  end.

(** The two arrays have [RELAY_COUNT] entries, the relays sit on pairwise
    different pins, and none of them shares the pin of the built-in LED. *)
Record wf_world (w : world) : Prop := mk_wf {
  wf_relays : length (relays w) = Z.to_nat RELAY_COUNT;
  wf_ledger : length (last_toggle_time w) = Z.to_nat RELAY_COUNT;
  wf_pins : NoDup (gpio_pin <$> relays w);
  wf_led_pin : LED_BUILTIN_GPIO ∉ gpio_pin <$> relays w
}.

(** The tail that [relay_toggle] and [relay_set_state] share: store the
    state, drive the pin, pulse the LED, save. *)
Definition store_and_drive (e : env) (relay_id : Z) (s : relay_state_t)
    (w : world) : world :=
  let w := write_state relay_id s w in
  let w := apply_gpio_state relay_id w in
  let w := blink_led w in
  if RELAY_PERSIST_STATE then snd (relay_save_states e w) else w.

(** [SetState(id, s)] as the transport layer issues it: [/relay/{id}/on]
    goes to [handler_on], [/relay/{id}/off] to [handler_off]. *)
Definition handler_set (s : relay_state_t) (e : env) (uri : string) (w : world)
  : response * world :=
  match s with
  | RELAY_ON => handler_on e uri w
  | RELAY_OFF => handler_off e uri w
  end.

(** The same platform answers at another reading of the clock. *)
Definition set_clock (ticks period : Z) (e : env) : env :=
  {| tick_count := ticks; portTICK_PERIOD_MS := period;
     rc_gpio_config := rc_gpio_config e;
     rc_nvs_open := rc_nvs_open e; rc_nvs_get := rc_nvs_get e;
     rc_nvs_set := rc_nvs_set e; rc_nvs_commit := rc_nvs_commit e |}.

(** The loop that [relay_all_on] and [relay_all_off] share. *)
Definition set_all_loop (s : relay_state_t) (w : world) : world :=
  for_loop RELAY_COUNT (fun i w => apply_gpio_state i (write_state i s w)) w.

(** The call that drives the pin of a relay to the level of a state. *)
Definition drive_call (s : relay_state_t) (r : relay_info_t) : event :=
  EvGpioSetLevel (gpio_pin r) (gpio_level_of s).

(** The state of the loop after [k] rounds: the first [k] relays are in
    state [s] with their pins driven, the others are untouched. *)
Definition set_all_inv (s : relay_state_t) (w : world) (k : Z) (acc : world)
  : Prop :=
  relays acc
    = ((with_state s <$> take (Z.to_nat k) (relays w))
         ++ drop (Z.to_nat k) (relays w))%list ∧
  last_toggle_time acc = last_toggle_time w ∧
  nvs acc = nvs w ∧
  led_initialized acc = led_initialized w ∧
  trace acc
    = (trace w ++ (drive_call s <$> take (Z.to_nat k) (relays w)))%list ∧
  (∀ r, r ∈ take (Z.to_nat k) (relays w) →
        gpio acc !! gpio_pin r = Some (gpio_level_of s)) ∧
  (∀ pin, pin ∉ gpio_pin <$> relays w → gpio acc !! pin = gpio w !! pin).

(** Milliseconds since the last accepted toggle on a relay, as
    [debounce_check] computes them. *)
Definition elapsed_ms (e : env) (w : world) (relay_id : Z) : Z :=
  uint32 (now_ms e - last_toggle_at w relay_id).

Definition flip (s : relay_state_t) : relay_state_t :=
  match s with
  | RELAY_ON => RELAY_OFF
  | RELAY_OFF => RELAY_ON
  end.

(** Every relay's pin carries the level that its logical state maps to. *)
Definition gpio_matches_state (w : world) : Prop :=
  ∀ (i : nat) (r : relay_info_t),
    relays w !! i = Some r →
    gpio w !! gpio_pin r = Some (gpio_level_of (state r)).

(** Classes of platform calls, counted on traces. *)
Definition is_save_attempt (ev : event) : bool :=
  match ev with
  | EvNvsOpen NVS_READWRITE => true
  | _ => false
  end.

Definition is_nvs_write (ev : event) : bool :=
  match ev with
  | EvNvsSetU8 _ => true
  | _ => false
  end.

Definition is_led_call (ev : event) : bool :=
  match ev with
  | EvGpioSetLevel pin _ => pin =? LED_BUILTIN_GPIO
  | _ => false
  end.

Definition count_calls (p : event → bool) (t : list event) : nat :=
  length (List.filter p t).

(** The calls made between two worlds of one run. *)
Definition new_calls (w w' : world) : list event :=
  drop (length (trace w)) (trace w').

(** One pulse of the status LED. *)
Definition led_pulse : list event :=
  [ EvGpioSetLevel LED_BUILTIN_GPIO 1;
    EvTaskDelayMs LED_BLINK_ON_MS;
    EvGpioSetLevel LED_BUILTIN_GPIO 0 ].

(** A platform on which every call succeeds, at a given tick. *)
Definition healthy (ticks : Z) : env :=
  {| tick_count := ticks; portTICK_PERIOD_MS := 10;
     rc_gpio_config := fun _ => ESP_OK;
     rc_nvs_open := ESP_OK; rc_nvs_get := ESP_OK;
     rc_nvs_set := ESP_OK; rc_nvs_commit := ESP_OK |}.

(** The world after a successful start on empty flash. *)
Definition started_world : world :=
  snd (relay_service_init (healthy 0) (boot_world None)).

(** ** Further observations *)

(** Every NVS call made during one call of the service succeeds. *)
Definition nvs_ok (e : env) : Prop :=
  rc_nvs_open e = ESP_OK ∧ rc_nvs_get e = ESP_OK ∧
  rc_nvs_set e = ESP_OK ∧ rc_nvs_commit e = ESP_OK.

(** The state that bit [i] of a snapshot byte stands for. *)
Definition state_of_bit (v i : Z) : relay_state_t :=
  if Z.testbit v i then RELAY_ON else RELAY_OFF.

(** The state a relay starts in: its bit of the snapshot when the store
    can be read and holds one, [RELAY_DEFAULT_STATE] otherwise. *)
Definition boot_state (e : env) (stored : option Z) (i : Z) : relay_state_t :=
  if (rc_nvs_open e =? ESP_OK) && (rc_nvs_get e =? ESP_OK)
  then match stored with
       | Some v => state_of_bit v i
       | None => RELAY_DEFAULT_STATE
       end
  else RELAY_DEFAULT_STATE.

(** A reset followed by start-up: the statics are back at their
    initialisers, the flash store is what the previous run left. *)
Definition reboot (e : env) (w : world) : esp_err_t * world :=
  relay_service_init e (boot_world (nvs w)).

Definition is_nvs_call (ev : event) : bool :=
  match ev with
  | EvNvsOpen _ | EvNvsGetU8 | EvNvsSetU8 _ | EvNvsCommit | EvNvsClose => true
  | _ => false
  end.

(** A platform on which [gpio_config] fails with [code] on one pin and
    succeeds everywhere else. *)
Definition gpio_fault (pin : Z) (code : esp_err_t) : env :=
  {| tick_count := 0; portTICK_PERIOD_MS := 10;
     rc_gpio_config := fun p => if p =? pin then code else ESP_OK;
     rc_nvs_open := ESP_OK; rc_nvs_get := ESP_OK;
     rc_nvs_set := ESP_OK; rc_nvs_commit := ESP_OK |}.

(** A platform whose flash store refuses the commit. *)
Definition commit_fault (ticks : Z) (code : esp_err_t) : env :=
  {| tick_count := ticks; portTICK_PERIOD_MS := 10;
     rc_gpio_config := fun _ => ESP_OK;
     rc_nvs_open := ESP_OK; rc_nvs_get := ESP_OK;
     rc_nvs_set := ESP_OK; rc_nvs_commit := code |}.

(** The stored snapshot, if any, describes the relay table. *)
Definition snapshot_current (w : world) : Prop :=
  ∀ i, 0 <= i < RELAY_COUNT →
       state_at w i = match nvs w with
                      | Some v => state_of_bit v i
                      | None => RELAY_DEFAULT_STATE
                      end.

(** The status LED is set up and its pin is low. *)
Definition led_idle (w : world) : Prop :=
  led_initialized w = true ∧ gpio w !! LED_BUILTIN_GPIO = Some 0.

(** The decimal text of a natural number, as a client writes it in the
    [{id}] segment of a request, and texts that do not go on with a digit. *)
Definition decimal (n : nat) : string :=
  NilZero.string_of_uint (Nat.to_uint n).

Definition no_leading_digit (s : string) : Prop :=
  match s with
  | String c _ => Libc.isdigit c = false
  | EmptyString => True
  end.

(** One [SetState(i, s)] per relay, in index order, all on the same
    platform answers. *)
Definition set_each (e : env) (s : relay_state_t) : list (env * command) :=
  (fun i => (e, SetState i s)) <$> seqZ 0 RELAY_COUNT.

(** ** include/ui_templates.h: the JSON templates and the reply buffers *)

(** [#define HTTP_RESPONSE_BUFFER_SIZE 256] of [config.h]. *)
Definition HTTP_RESPONSE_BUFFER_SIZE : Z := 256.

(** The double quote character, and [%d]. *)
Definition dquote : string := String "034"%char EmptyString.

Definition fmt_d (z : Z) : string := NilZero.string_of_int (Z.to_int z).

(** [JSON_RELAY_STATUS], [JSON_ERROR] and [JSON_SUCCESS] with their
    arguments put in. *)
Definition render_relay_status (id : Z) (relay_name : string) (st : Z)
  : string :=
  "{" ++ dquote ++ "id" ++ dquote ++ ":" ++ fmt_d id ++ ","
      ++ dquote ++ "name" ++ dquote ++ ":" ++ dquote ++ relay_name ++ dquote
      ++ "," ++ dquote ++ "state" ++ dquote ++ ":" ++ fmt_d st ++ "}".

Definition render_error (msg : string) : string :=
  "{" ++ dquote ++ "error" ++ dquote ++ ":" ++ dquote ++ msg ++ dquote ++ "}".

Definition render_success (msg : string) : string :=
  "{" ++ dquote ++ "success" ++ dquote ++ ":true," ++ dquote ++ "message"
      ++ dquote ++ ":" ++ dquote ++ msg ++ dquote ++ "}".

(** The text [handler_status] builds for all relays: the start template,
    the entries with a comma before every entry but the first, the end
    template. *)
Definition render_all_status (entries : list (Z * string * Z)) : string :=
  let body :=
    foldl (fun '(i, p) '(id, relay_name, st) =>
             (i + 1,
              p ++ (if i >? 0 then "," else "")
                ++ render_relay_status id relay_name st))
          (0, "") entries in
  "{" ++ dquote ++ "relays" ++ dquote ++ ":[" ++ snd body ++ "]}".

Definition render (j : json) : string :=
  match j with
  | JSON_RELAY_STATUS id relay_name st => render_relay_status id relay_name st
  | JSON_ALL_STATUS entries => render_all_status entries
  | JSON_ERROR msg => render_error msg
  | JSON_SUCCESS msg => render_success msg
  end.

(** The size of the local array each kind of reply is written to:
    [char response[HTTP_RESPONSE_BUFFER_SIZE]] for one relay,
    [char response[512]] for all relays, [char error[64]] and
    [char response[64]] for errors and acknowledgements. *)
Definition buffer_size (j : json) : Z :=
  match j with
  | JSON_RELAY_STATUS _ _ _ => HTTP_RESPONSE_BUFFER_SIZE
  | JSON_ALL_STATUS _ => 512
  | JSON_ERROR _ => 64
  | JSON_SUCCESS _ => 64
  end.

(** [snprintf(buf, size, ...)] keeps at most [size - 1] characters. *)
Definition snprintf (size : Z) (text : string) : string :=
  String.substring 0 (Z.to_nat (size - 1)) text.

(** The relays carry the names of [config.h]. *)
Definition names_configured (w : world) : Prop :=
  name <$> relays w = name <$> initial_relays.

(** ** The handlers registered by [http_controller_init]

    The [httpd_uri_t] records of [http_controller.c] in the order
    [http_controller_init] registers them (all for [HTTP_GET]), and the
    [config.max_uri_handlers] it sets. *)
Inductive handler_t : Type :=
| HANDLER_HOME
| HANDLER_TOGGLE
| HANDLER_STATUS
| HANDLER_ON
| HANDLER_OFF.

Definition uri_handlers : list (string * handler_t) :=
  [ ("/", HANDLER_HOME);
    ("/relay/0/toggle", HANDLER_TOGGLE); ("/relay/1/toggle", HANDLER_TOGGLE);
    ("/relay/2/toggle", HANDLER_TOGGLE); ("/relay/3/toggle", HANDLER_TOGGLE);
    ("/relay/0/status", HANDLER_STATUS); ("/relay/1/status", HANDLER_STATUS);
    ("/relay/2/status", HANDLER_STATUS); ("/relay/3/status", HANDLER_STATUS);
    ("/relay/all/status", HANDLER_STATUS);
    ("/relay/0/on", HANDLER_ON); ("/relay/1/on", HANDLER_ON);
    ("/relay/2/on", HANDLER_ON); ("/relay/3/on", HANDLER_ON);
    ("/relay/all/on", HANDLER_ON);
    ("/relay/0/off", HANDLER_OFF); ("/relay/1/off", HANDLER_OFF);
    ("/relay/2/off", HANDLER_OFF); ("/relay/3/off", HANDLER_OFF);
    ("/relay/all/off", HANDLER_OFF) ].

Definition max_uri_handlers : Z := 20.

(** The relay handler behind a registration, run on the URI of a request;
    the page handler [handler_home] is not a relay command and has no
    embedding here. *)
Definition run_handler (e : env) (h : handler_t) (req_uri : string) (w : world)
  : option (response * world) :=
  match h with
  | HANDLER_HOME => None
  | HANDLER_TOGGLE => Some (handler_toggle e req_uri w)
  | HANDLER_STATUS => Some (handler_status req_uri w, w)
  | HANDLER_ON => Some (handler_on e req_uri w)
  | HANDLER_OFF => Some (handler_off e req_uri w)
  end.

(** ** The server handle of [http_controller.c]

    [s_server] and the calls made to the HTTP server component.  What
    [httpd_start] and [httpd_stop] answer comes from the platform;
    [httpd_start] stores the handle it was given only when it succeeds. *)
Inductive httpd_call : Type :=
| HttpdStart
| HttpdRegisterUriHandler (uri : string) (h : handler_t)
| HttpdStop (handle : Z).

Record httpd_env : Type := mk_httpd_env {
  rc_httpd_start : esp_err_t;
  started_handle : Z;
  rc_httpd_stop : esp_err_t
}.

Record server : Type := mk_server {
  s_server : option Z;
  httpd_calls : list httpd_call
}.

Definition no_server : server := {| s_server := None; httpd_calls := [] |}.

Definition http_controller_init (he : httpd_env) (sv : server)
  : esp_err_t * server :=
  let ret := rc_httpd_start he in
  let sv := {| s_server := if ret =? ESP_OK then Some (started_handle he)
                           else s_server sv;
               httpd_calls := httpd_calls sv ++ [HttpdStart] |} in
  if negb (ret =? ESP_OK) then (ret, sv)
  else
    (ESP_OK,
     foldl (fun sv '(uri, h) =>
              {| s_server := s_server sv;
                 httpd_calls := httpd_calls sv ++ [HttpdRegisterUriHandler uri h] |})
           sv uri_handlers).

Definition http_controller_stop (he : httpd_env) (sv : server)
  : esp_err_t * server :=
  match s_server sv with
  | None => (ESP_OK, sv)
  | Some handle =>
      let ret := rc_httpd_stop he in
      (ret, {| s_server := None;
               httpd_calls := httpd_calls sv ++ [HttpdStop handle] |})
  end.

Definition http_controller_get_handle (sv : server) : option Z := s_server sv.

(** ** src/main.c

    What the platform answers during [app_main]: the two calls of
    [nvs_flash_init], [nvs_flash_erase], and [wifi_service_init], whose
    source is not part of the sources at hand and of which [app_main] only
    uses the return code. *)
Record boot_env : Type := mk_boot_env {
  rc_nvs_flash_init : esp_err_t;
  rc_nvs_flash_erase : esp_err_t;
  rc_nvs_flash_init_again : esp_err_t;
  rc_wifi_service_init : esp_err_t
}.

Definition ESP_ERR_NVS_NO_FREE_PAGES : esp_err_t := 4365.
Definition ESP_ERR_NVS_NEW_VERSION_FOUND : esp_err_t := 4368.

(** [init_nvs] acts on the flash partition that holds the snapshot:
    erasing it removes the snapshot.  [None] stands for the abort of
    [ESP_ERROR_CHECK]. *)
Definition init_nvs (b : boot_env) (stored : option Z)
  : option (esp_err_t * option Z) :=
  let ret := rc_nvs_flash_init b in
  if (ret =? ESP_ERR_NVS_NO_FREE_PAGES) || (ret =? ESP_ERR_NVS_NEW_VERSION_FOUND)
  then
    if negb (rc_nvs_flash_erase b =? ESP_OK) then None
    else Some (rc_nvs_flash_init_again b, None)
  else Some (ret, stored).

(** Where [app_main] ends up: aborted by [ESP_ERROR_CHECK], restarting
    after a failed WiFi connection, or in its idle loop with the server
    running. *)
Inductive outcome : Type :=
| Aborted
| Restarting (w : world)
| Running (w : world) (sv : server).

Definition app_main (b : boot_env) (e : env) (he : httpd_env)
    (stored : option Z) : outcome :=
  match init_nvs b stored with
  | None => Aborted
  | Some (ret, stored) =>
      if negb (ret =? ESP_OK) then Aborted
      else
        let '(ret, w) := relay_service_init e (boot_world stored) in
        if negb (ret =? ESP_OK) then Aborted
        else if negb (rc_wifi_service_init b =? ESP_OK)
        then Restarting (vTaskDelay_ms 5000 w)
        else
          let '(ret, sv) := http_controller_init he no_server in
          if negb (ret =? ESP_OK) then Aborted
          else Running w sv
  end.

(** The world in which [app_main] leaves the relays, when it got past
    their initialisation. *)
Definition relays_after (o : outcome) : option world :=
  match o with
  | Aborted => None
  | Restarting w => Some w
  | Running w _ => Some w
  end.

Definition partition_erased (b : boot_env) : bool :=
  (rc_nvs_flash_init b =? ESP_ERR_NVS_NO_FREE_PAGES)
  || (rc_nvs_flash_init b =? ESP_ERR_NVS_NEW_VERSION_FOUND).

(** Platforms for examples: a working server, a server that refuses to
    stop, and a boot that finds a truncated partition and no WiFi. *)
Definition httpd_fine : httpd_env :=
  {| rc_httpd_start := ESP_OK; started_handle := 1; rc_httpd_stop := ESP_OK |}.

Definition httpd_stuck : httpd_env :=
  {| rc_httpd_start := ESP_OK; started_handle := 1; rc_httpd_stop := -1 |}.

Definition truncated_boot : boot_env :=
  {| rc_nvs_flash_init := ESP_ERR_NVS_NO_FREE_PAGES;
     rc_nvs_flash_erase := ESP_OK;
     rc_nvs_flash_init_again := ESP_OK;
     rc_wifi_service_init := -1 |}.

(** ** The [{id}] segment of a request *)






(** * Properties *)

(** ** Loops *)

Lemma seqZ_snoc (n : nat) :
  seqZ 0 (Z.of_nat (S n)) = (seqZ 0 (Z.of_nat n) ++ [Z.of_nat n])%list.
Proof.
  replace (Z.of_nat (S n)) with (Z.of_nat n + 1) by lia.
  rewrite seqZ_app by lia. simpl. reflexivity.
Qed.

Lemma for_loop_succ {S : Type} (n : nat) (body : Z → S → S) (s : S) :
  for_loop (Z.of_nat (Datatypes.S n)) body s
  = body (Z.of_nat n) (for_loop (Z.of_nat n) body s).
Proof.
  unfold for_loop. rewrite seqZ_snoc, foldl_app. reflexivity.
Qed.

(** Invariant rule for the counted loop. *)
Lemma for_loop_ind {S : Type} (P : Z → S → Prop) (body : Z → S → S)
    (s : S) (n : Z) :
  0 <= n →
  P 0 s →
  (∀ i acc, 0 <= i < n → P i acc → P (i + 1) (body i acc)) →
  P n (for_loop n body s).
Proof.
  intros Hn H0 Hstep.
  rewrite <- (Z2Nat.id n) by lia.
  assert (Hle : (Z.to_nat n <= Z.to_nat n)%nat) by lia.
  revert Hle. generalize (Z.to_nat n) at 1 3 4 as k.
  induction k as [|k IH]; intros Hk.
  - exact H0.
  - rewrite for_loop_succ.
    replace (Z.of_nat (Datatypes.S k)) with (Z.of_nat k + 1) by lia.
    apply Hstep; [lia | apply IH; lia].
Qed.

(** ** Array accesses *)

Lemma valid_index (w : world) (i : Z) :
  length (relays w) = Z.to_nat RELAY_COUNT →
  0 <= i < RELAY_COUNT →
  ∃ r, relays w !! Z.to_nat i = Some r.
Proof.
  intros Hlen Hi. apply lookup_lt_is_Some_2. lia.
Qed.

Lemma relays_write_state (i : Z) (s : relay_state_t) (w : world) :
  relays (write_state i s w) = alter (with_state s) (Z.to_nat i) (relays w).
Proof. reflexivity. Qed.

Lemma length_write_state (i : Z) (s : relay_state_t) (w : world) :
  length (relays (write_state i s w)) = length (relays w).
Proof. rewrite relays_write_state. apply length_alter. Qed.

Lemma pins_write_state (i : Z) (s : relay_state_t) (w : world) :
  gpio_pin <$> relays (write_state i s w) = gpio_pin <$> relays w.
Proof.
  rewrite relays_write_state.
  rewrite (list_fmap_alter gpio_pin (with_state s) id).
  - apply list_alter_id. reflexivity.
  - apply Forall_forall. intros r _. reflexivity.
Qed.

Lemma relay_at_write_state_ne (i j : Z) (s : relay_state_t) (w : world) :
  Z.to_nat i ≠ Z.to_nat j →
  relay_at (write_state i s w) j = relay_at w j.
Proof.
  intros Hne. unfold relay_at. rewrite relays_write_state.
  rewrite list_lookup_alter_ne by exact Hne. reflexivity.
Qed.

Lemma relay_at_write_state_eq (i : Z) (s : relay_state_t) (w : world) :
  (Z.to_nat i < length (relays w))%nat →
  relay_at (write_state i s w) i = with_state s (relay_at w i).
Proof.
  intros Hlt. unfold relay_at. rewrite relays_write_state.
  rewrite list_lookup_alter_eq.
  destruct (lookup_lt_is_Some_2 _ _ Hlt) as [r Hr]. rewrite Hr. reflexivity.
Qed.

Lemma state_at_write_state_eq (i : Z) (s : relay_state_t) (w : world) :
  (Z.to_nat i < length (relays w))%nat →
  state_at (write_state i s w) i = s.
Proof.
  intros Hlt. unfold state_at. rewrite relay_at_write_state_eq by exact Hlt.
  reflexivity.
Qed.

Lemma state_at_write_state_ne (i j : Z) (s : relay_state_t) (w : world) :
  Z.to_nat i ≠ Z.to_nat j →
  state_at (write_state i s w) j = state_at w j.
Proof.
  intros Hne. unfold state_at. rewrite relay_at_write_state_ne by exact Hne.
  reflexivity.
Qed.

Lemma pin_at_write_state (i j : Z) (s : relay_state_t) (w : world) :
  gpio_pin (relay_at (write_state i s w) j) = gpio_pin (relay_at w j).
Proof.
  destruct (decide (Z.to_nat i = Z.to_nat j)) as [Heq|Hne].
  - unfold relay_at. rewrite relays_write_state, <- Heq.
    rewrite list_lookup_alter_eq.
    destruct (relays w !! Z.to_nat i); reflexivity.
  - rewrite relay_at_write_state_ne by exact Hne. reflexivity.
Qed.

Lemma name_at_write_state (i j : Z) (s : relay_state_t) (w : world) :
  name (relay_at (write_state i s w) j) = name (relay_at w j).
Proof.
  destruct (decide (Z.to_nat i = Z.to_nat j)) as [Heq|Hne].
  - unfold relay_at. rewrite relays_write_state, <- Heq.
    rewrite list_lookup_alter_eq.
    destruct (relays w !! Z.to_nat i); reflexivity.
  - rewrite relay_at_write_state_ne by exact Hne. reflexivity.
Qed.

(** ** The private helpers *)

Lemma blink_led_eq (w : world) :
  blink_led w =
    if led_initialized w
    then gpio_set_level LED_BUILTIN_GPIO 0
           (vTaskDelay_ms LED_BLINK_ON_MS
              (gpio_set_level LED_BUILTIN_GPIO 1 w))
    else w.
Proof.
  unfold blink_led. destruct (led_initialized w); reflexivity.
Qed.

Lemma apply_gpio_state_eq (i : Z) (w : world) :
  i < RELAY_COUNT →
  apply_gpio_state i w
  = gpio_set_level (gpio_pin (relay_at w i)) (gpio_level_of (state_at w i)) w.
Proof.
  intros Hi. unfold apply_gpio_state.
  destruct (i >=? RELAY_COUNT) eqn:Hge; [lia | reflexivity].
Qed.

Lemma relays_blink_led (w : world) : relays (blink_led w) = relays w.
Proof. rewrite blink_led_eq. destruct (led_initialized w); reflexivity. Qed.

Lemma ledger_blink_led (w : world) :
  last_toggle_time (blink_led w) = last_toggle_time w.
Proof. rewrite blink_led_eq. destruct (led_initialized w); reflexivity. Qed.

Lemma nvs_blink_led (w : world) : nvs (blink_led w) = nvs w.
Proof. rewrite blink_led_eq. destruct (led_initialized w); reflexivity. Qed.

Lemma led_blink_led (w : world) :
  led_initialized (blink_led w) = led_initialized w.
Proof.
  rewrite blink_led_eq. destruct (led_initialized w) eqn:Hled; simpl; auto.
Qed.

Lemma trace_blink_led (w : world) :
  trace (blink_led w)
  = (trace w ++ if led_initialized w then led_pulse else [])%list.
Proof.
  rewrite blink_led_eq. destruct (led_initialized w); simpl.
  - rewrite <- !app_assoc. reflexivity.
  - rewrite app_nil_r. reflexivity.
Qed.

Lemma gpio_blink_led (w : world) (pin : Z) :
  pin ≠ LED_BUILTIN_GPIO →
  gpio (blink_led w) !! pin = gpio w !! pin.
Proof.
  intros Hpin. rewrite blink_led_eq. destruct (led_initialized w); simpl.
  - rewrite !lookup_insert_ne by congruence. reflexivity.
  - reflexivity.
Qed.

(** [relay_save_states] only talks to the flash store. *)
Lemma relays_save_states (e : env) (w : world) :
  relays (snd (relay_save_states e w)) = relays w.
Proof.
  unfold relay_save_states.
  destruct (rc_nvs_open e =? ESP_OK), (rc_nvs_set e =? ESP_OK),
    (rc_nvs_commit e =? ESP_OK); reflexivity.
Qed.

Lemma ledger_save_states (e : env) (w : world) :
  last_toggle_time (snd (relay_save_states e w)) = last_toggle_time w.
Proof.
  unfold relay_save_states.
  destruct (rc_nvs_open e =? ESP_OK), (rc_nvs_set e =? ESP_OK),
    (rc_nvs_commit e =? ESP_OK); reflexivity.
Qed.

Lemma gpio_save_states (e : env) (w : world) :
  gpio (snd (relay_save_states e w)) = gpio w.
Proof.
  unfold relay_save_states.
  destruct (rc_nvs_open e =? ESP_OK), (rc_nvs_set e =? ESP_OK),
    (rc_nvs_commit e =? ESP_OK); reflexivity.
Qed.

Lemma led_save_states (e : env) (w : world) :
  led_initialized (snd (relay_save_states e w)) = led_initialized w.
Proof.
  unfold relay_save_states.
  destruct (rc_nvs_open e =? ESP_OK), (rc_nvs_set e =? ESP_OK),
    (rc_nvs_commit e =? ESP_OK); reflexivity.
Qed.

Lemma state_at_save_states (e : env) (w : world) (i : Z) :
  state_at (snd (relay_save_states e w)) i = state_at w i.
Proof. unfold state_at, relay_at. rewrite relays_save_states. reflexivity. Qed.

(** The calls of one [relay_save_states]: one attempt to open the store for
    writing, and at most one write, which happens when the store opens. *)
Lemma trace_save_states (e : env) (w : world) :
  ∃ calls,
    trace (snd (relay_save_states e w)) = (trace w ++ calls)%list ∧
    count_calls is_save_attempt calls = 1%nat ∧
    count_calls is_led_call calls = 0%nat ∧
    count_calls is_nvs_write calls
      = (if (rc_nvs_open e =? ESP_OK)%Z then 1 else 0)%nat ∧
    (rc_nvs_open e = ESP_OK → In (EvNvsSetU8 (pack_states w)) calls).
Proof.
  unfold relay_save_states.
  destruct (rc_nvs_open e =? ESP_OK) eqn:Hopen; simpl.
  - destruct (rc_nvs_set e =? ESP_OK) eqn:Hset; simpl.
    + exists [EvNvsOpen NVS_READWRITE; EvNvsSetU8 (pack_states w);
              EvNvsCommit; EvNvsClose].
      split; [|repeat split; simpl; auto].
      destruct (rc_nvs_commit e =? ESP_OK); simpl;
        rewrite <- !app_assoc; reflexivity.
    + exists [EvNvsOpen NVS_READWRITE; EvNvsSetU8 (pack_states w); EvNvsClose].
      split; [|repeat split; simpl; auto].
      rewrite <- !app_assoc; reflexivity.
  - exists [EvNvsOpen NVS_READWRITE].
    split; [reflexivity|]. repeat split. intros H. rewrite H in Hopen.
    discriminate.
Qed.

(** When the three NVS calls succeed the packed byte is in the store. *)
Lemma nvs_save_states (e : env) (w : world) :
  rc_nvs_open e = ESP_OK →
  rc_nvs_set e = ESP_OK →
  rc_nvs_commit e = ESP_OK →
  relay_save_states e w
  = (ESP_OK,
     emit [EvNvsOpen NVS_READWRITE; EvNvsSetU8 (pack_states w);
           EvNvsCommit; EvNvsClose]
       (set_nvs (Some (pack_states w)) w)).
Proof.
  intros Ho Hs Hc. unfold relay_save_states. rewrite Ho, Hs, Hc. simpl.
  unfold emit, set_nvs. simpl. rewrite <- !app_assoc. reflexivity.
Qed.

Lemma pack_states_ext (w w' : world) :
  relays w = relays w' → pack_states w = pack_states w'.
Proof.
  intros Heq. unfold pack_states, state_at, relay_at. rewrite Heq. reflexivity.
Qed.

(** ** Storing a state and driving the pin *)

Lemma relay_set_state_valid (e : env) (i : Z) (s : relay_state_t) (w : world) :
  i < RELAY_COUNT →
  relay_set_state e i s w = (ESP_OK, store_and_drive e i s w).
Proof.
  intros Hi. unfold relay_set_state.
  destruct (i >=? RELAY_COUNT) eqn:Hge; [lia | reflexivity].
Qed.

Section StoreAndDrive.

Variables (e : env) (i : Z) (s : relay_state_t) (w : world).
Hypothesis Hi : 0 <= i < RELAY_COUNT.
Hypothesis Hlen : length (relays w) = Z.to_nat RELAY_COUNT.

Let Hlt : (Z.to_nat i < length (relays w))%nat.
Proof. rewrite Hlen. lia. Qed.

Lemma relays_store_and_drive :
  relays (store_and_drive e i s w)
  = alter (with_state s) (Z.to_nat i) (relays w).
Proof.
  unfold store_and_drive. simpl. rewrite relays_save_states, relays_blink_led.
  rewrite apply_gpio_state_eq by lia. reflexivity.
Qed.

Lemma ledger_store_and_drive :
  last_toggle_time (store_and_drive e i s w) = last_toggle_time w.
Proof.
  unfold store_and_drive. simpl. rewrite ledger_save_states, ledger_blink_led.
  rewrite apply_gpio_state_eq by lia. reflexivity.
Qed.

Lemma led_store_and_drive :
  led_initialized (store_and_drive e i s w) = led_initialized w.
Proof.
  unfold store_and_drive. simpl. rewrite led_save_states, led_blink_led.
  rewrite apply_gpio_state_eq by lia. reflexivity.
Qed.

Lemma state_at_store_and_drive :
  state_at (store_and_drive e i s w) i = s.
Proof.
  unfold state_at, relay_at. rewrite relays_store_and_drive.
  rewrite list_lookup_alter_eq.
  destruct (lookup_lt_is_Some_2 _ _ Hlt) as [r Hr]. rewrite Hr. reflexivity.
Qed.

Lemma state_at_store_and_drive_ne (j : Z) :
  Z.to_nat j ≠ Z.to_nat i →
  state_at (store_and_drive e i s w) j = state_at w j.
Proof.
  intros Hne. unfold state_at, relay_at. rewrite relays_store_and_drive.
  rewrite list_lookup_alter_ne by congruence. reflexivity.
Qed.

Lemma pin_at_store_and_drive (j : Z) :
  gpio_pin (relay_at (store_and_drive e i s w) j) = gpio_pin (relay_at w j).
Proof.
  unfold relay_at. rewrite relays_store_and_drive.
  rewrite <- relays_write_state. apply pin_at_write_state.
Qed.

Lemma name_at_store_and_drive (j : Z) :
  name (relay_at (store_and_drive e i s w) j) = name (relay_at w j).
Proof.
  unfold relay_at. rewrite relays_store_and_drive.
  rewrite <- relays_write_state. apply name_at_write_state.
Qed.

Lemma pins_store_and_drive :
  gpio_pin <$> relays (store_and_drive e i s w) = gpio_pin <$> relays w.
Proof.
  rewrite relays_store_and_drive, <- relays_write_state.
  apply pins_write_state.
Qed.

(** The pin of relay [i] ends at the level of [s]. *)
Lemma gpio_store_and_drive :
  gpio_pin (relay_at w i) ≠ LED_BUILTIN_GPIO →
  gpio (store_and_drive e i s w) !! gpio_pin (relay_at w i)
  = Some (gpio_level_of s).
Proof.
  intros Hled. unfold store_and_drive. simpl.
  rewrite gpio_save_states, gpio_blink_led by exact Hled.
  rewrite apply_gpio_state_eq by lia. simpl.
  rewrite pin_at_write_state, state_at_write_state_eq by exact Hlt.
  apply lookup_insert_eq.
Qed.

(** Every other pin but the LED's keeps its level. *)
Lemma gpio_store_and_drive_ne (pin : Z) :
  pin ≠ gpio_pin (relay_at w i) →
  pin ≠ LED_BUILTIN_GPIO →
  gpio (store_and_drive e i s w) !! pin = gpio w !! pin.
Proof.
  intros Hpin Hled. unfold store_and_drive. simpl.
  rewrite gpio_save_states, gpio_blink_led by exact Hled.
  rewrite apply_gpio_state_eq by lia. simpl.
  rewrite pin_at_write_state.
  rewrite lookup_insert_ne by congruence. reflexivity.
Qed.

(** The calls: the pin is driven, the LED pulses when it is set up, and
    the states are saved once. *)
Lemma trace_store_and_drive :
  ∃ calls,
    trace (store_and_drive e i s w)
    = (trace w
         ++ [EvGpioSetLevel (gpio_pin (relay_at w i)) (gpio_level_of s)]
         ++ (if led_initialized w then led_pulse else [])
         ++ calls)%list ∧
    count_calls is_save_attempt calls = 1%nat ∧
    count_calls is_led_call calls = 0%nat ∧
    count_calls is_nvs_write calls
      = (if (rc_nvs_open e =? ESP_OK)%Z then 1 else 0)%nat ∧
    (rc_nvs_open e = ESP_OK →
     In (EvNvsSetU8 (pack_states (store_and_drive e i s w))) calls).
Proof.
  unfold store_and_drive. simpl.
  set (w1 := blink_led (apply_gpio_state i (write_state i s w))).
  destruct (trace_save_states e w1) as (calls & Ht & Hc1 & Hc2 & Hc3 & Hin).
  exists calls. split; [|repeat split; try assumption].
  - rewrite Ht. unfold w1. rewrite trace_blink_led.
    rewrite apply_gpio_state_eq by lia. simpl.
    rewrite pin_at_write_state, state_at_write_state_eq by exact Hlt.
    rewrite <- !app_assoc. reflexivity.
  - intros Ho. specialize (Hin Ho).
    replace (pack_states (snd (relay_save_states e w1)))
      with (pack_states w1); [exact Hin|].
    symmetry. apply pack_states_ext, relays_save_states.
Qed.

End StoreAndDrive.

Lemma relay_pin_in_pins (w : world) (i : Z) :
  length (relays w) = Z.to_nat RELAY_COUNT →
  0 <= i < RELAY_COUNT →
  gpio_pin (relay_at w i) ∈ gpio_pin <$> relays w.
Proof.
  intros Hlen Hi. destruct (valid_index w i Hlen Hi) as [r0 Hr0].
  unfold relay_at. rewrite Hr0. cbn [default].
  apply list_elem_of_fmap_2, list_elem_of_lookup. eauto.
Qed.

Lemma relay_pin_not_led (w : world) (i : Z) :
  wf_world w →
  0 <= i < RELAY_COUNT →
  gpio_pin (relay_at w i) ≠ LED_BUILTIN_GPIO.
Proof.
  intros [Hlen _ _ Hnl] Hi Hpin. apply Hnl. rewrite <- Hpin.
  apply relay_pin_in_pins; assumption.
Qed.

(** ** Toggling *)

Lemma flip_eq (s : relay_state_t) :
  (if decide (s = RELAY_ON) then RELAY_OFF else RELAY_ON) = flip s.
Proof. destruct s; reflexivity. Qed.

Lemma state_value_not_error (s : relay_state_t) : state_value s ≠ -1.
Proof. destruct s; discriminate. Qed.

Lemma uint8_small (i : Z) : 0 <= i < RELAY_COUNT → uint8 i = i.
Proof.
  intros Hi. unfold uint8. apply Z.mod_small. unfold RELAY_COUNT in Hi. lia.
Qed.

(** Without wrap-around of the 32-bit clock the elapsed time is the plain
    difference. *)
Lemma elapsed_ms_no_wrap (e : env) (w : world) (i : Z) :
  0 <= last_toggle_at w i <= now_ms e →
  elapsed_ms e w i = now_ms e - last_toggle_at w i.
Proof.
  intros Hle. unfold elapsed_ms, uint32. apply Z.mod_small.
  assert (Hnow : 0 <= now_ms e < 2 ^ 32)
    by (apply Z.mod_pos_bound; reflexivity).
  lia.
Qed.

Lemma relay_toggle_rejected (e : env) (i : Z) (w : world) :
  i < RELAY_COUNT →
  elapsed_ms e w i < RELAY_DEBOUNCE_MS →
  relay_toggle e i w = (state_value (state_at w i), w).
Proof.
  intros Hi Hel. unfold relay_toggle, debounce_check.
  destruct (i >=? RELAY_COUNT) eqn:Hge; [lia|].
  fold (elapsed_ms e w i).
  destruct (elapsed_ms e w i <? RELAY_DEBOUNCE_MS) eqn:Hlt; [reflexivity | lia].
Qed.

Lemma relay_toggle_accepted (e : env) (i : Z) (w : world) :
  i < RELAY_COUNT →
  RELAY_DEBOUNCE_MS <= elapsed_ms e w i →
  relay_toggle e i w =
    let w' :=
      store_and_drive e i (flip (state_at w i))
        (set_last_toggle_time
           (<[Z.to_nat i := now_ms e]> (last_toggle_time w)) w) in
    (state_value (state_at w' i), w').
Proof.
  intros Hi Hel. unfold relay_toggle, debounce_check.
  destruct (i >=? RELAY_COUNT) eqn:Hge; [lia|].
  fold (elapsed_ms e w i).
  destruct (elapsed_ms e w i <? RELAY_DEBOUNCE_MS) eqn:Hlt; [lia|].
  cbn [negb]. rewrite flip_eq. reflexivity.
Qed.

Lemma relay_get_info_valid (i : Z) (w : world) :
  i < RELAY_COUNT → relay_get_info i w = Some (relay_at w i).
Proof.
  intros Hi. unfold relay_get_info.
  destruct (i >=? RELAY_COUNT) eqn:Hge; [lia | reflexivity].
Qed.

(** C1: a toggle on a valid relay that arrives before the debounce window
    has elapsed changes nothing (the whole world, and with it the relay's
    state, its ledger entry and every other relay, is returned as it was)
    and answers with the current state, which is not the error value; the
    handler renders it as a 200 reply carrying that state. *)
Theorem C1_toggle_within_debounce_is_noop (e : env) (w : world) (i : Z) :
  0 <= i < RELAY_COUNT →
  elapsed_ms e w i < RELAY_DEBOUNCE_MS →
  relay_toggle e i w = (state_value (state_at w i), w) ∧
  state_value (state_at w i) ≠ -1 ∧
  (let w' := snd (relay_toggle e i w) in
   state_at w' i = state_at w i ∧
   last_toggle_at w' i = last_toggle_at w i ∧
   (∀ j, state_at w' j = state_at w j) ∧
   trace w' = trace w ∧ nvs w' = nvs w ∧ gpio w' = gpio w) ∧
  (∀ uri, extract_relay_id uri = i →
     handler_toggle e uri w
     = (send_json_response
          (JSON_RELAY_STATUS i (name (relay_at w i))
             (state_value (state_at w i))), w)).
Proof.
  intros Hi Hel.
  assert (Hrej := relay_toggle_rejected e i w ltac:(lia) Hel).
  split; [exact Hrej|]. split; [apply state_value_not_error|].
  split.
  - rewrite Hrej. simpl. repeat split; reflexivity.
  - intros uri Huri. unfold handler_toggle. rewrite Huri.
    destruct (i <? 0) eqn:Hneg; [lia|].
    rewrite uint8_small by exact Hi. rewrite Hrej.
    rewrite relay_get_info_valid by lia. reflexivity.
Qed.

Lemma wf_started_world : wf_world started_world.
Proof.
  split; [reflexivity | reflexivity | |];
    apply (bool_decide_unpack _); vm_compute; reflexivity.
Qed.

Lemma C1_toggle_within_debounce_is_noop_witness :
  0 <= 0 < RELAY_COUNT ∧
  elapsed_ms (healthy 2) started_world 0 < RELAY_DEBOUNCE_MS ∧
  relay_toggle (healthy 2) 0 started_world = (0, started_world).
Proof.
  assert (H1 : 0 <= 0 < RELAY_COUNT) by (vm_compute; split; congruence).
  assert (H2 : elapsed_ms (healthy 2) started_world 0 < RELAY_DEBOUNCE_MS)
    by (vm_compute; reflexivity).
  split; [exact H1|]. split; [exact H2|].
  exact (proj1 (C1_toggle_within_debounce_is_noop
                  (healthy 2) started_world 0 H1 H2)).
Defined.

(** Toggling twice at the same reading of the clock: the second call is
    rejected and reports the state the first call left. *)
Lemma toggle_twice_no_delay (e : env) (w : world) (i : Z) :
  length (last_toggle_time w) = Z.to_nat RELAY_COUNT →
  length (relays w) = Z.to_nat RELAY_COUNT →
  0 <= i < RELAY_COUNT →
  RELAY_DEBOUNCE_MS <= elapsed_ms e w i →
  let w1 := snd (relay_toggle e i w) in
  relay_toggle e i w1 = (fst (relay_toggle e i w), w1).
Proof.
  intros Hled Hlen Hi Hel w1.
  assert (H1 : elapsed_ms e w1 i < RELAY_DEBOUNCE_MS).
  { unfold w1. rewrite relay_toggle_accepted by (lia || assumption).
    cbn [snd]. unfold elapsed_ms, last_toggle_at.
    rewrite ledger_store_and_drive by (assumption || reflexivity).
    cbn [last_toggle_time set_last_toggle_time].
    rewrite list_lookup_insert_eq by lia. cbn [default].
    rewrite Z.sub_diag. reflexivity. }
  rewrite (relay_toggle_rejected e i w1) by (lia || assumption).
  unfold w1. rewrite relay_toggle_accepted by (lia || assumption).
  reflexivity.
Qed.

(** C2: a toggle on a valid relay issued once the debounce window has
    elapsed flips that relay and no other, stamps its ledger entry with
    the current time, drives its pin to the level of the new state, saves
    the states (one attempt to open the store for writing; the packed
    byte is written when the store opens and is the stored snapshot when
    the write and the commit succeed) and returns the new state. *)
Theorem C2_toggle_after_debounce_flips (e : env) (w : world) (i : Z) :
  wf_world w →
  0 <= i < RELAY_COUNT →
  RELAY_DEBOUNCE_MS <= elapsed_ms e w i →
  let r := fst (relay_toggle e i w) in
  let w' := snd (relay_toggle e i w) in
  state_at w' i = flip (state_at w i) ∧
  (∀ j, 0 <= j → j ≠ i → state_at w' j = state_at w j) ∧
  last_toggle_at w' i = now_ms e ∧
  gpio w' !! gpio_pin (relay_at w i)
    = Some (gpio_level_of (flip (state_at w i))) ∧
  (∃ calls,
     trace w'
     = (trace w
          ++ [EvGpioSetLevel (gpio_pin (relay_at w i))
                (gpio_level_of (flip (state_at w i)))]
          ++ (if led_initialized w then led_pulse else [])
          ++ calls)%list ∧
     count_calls is_save_attempt calls = 1%nat ∧
     (rc_nvs_open e = ESP_OK → In (EvNvsSetU8 (pack_states w')) calls)) ∧
  (rc_nvs_open e = ESP_OK → rc_nvs_set e = ESP_OK →
   rc_nvs_commit e = ESP_OK → nvs w' = Some (pack_states w')) ∧
  r = state_value (flip (state_at w i)).
Proof.
  intros [Hlen Hled Hnd Hnl] Hi Hel r w'.
  set (w1 := set_last_toggle_time
               (<[Z.to_nat i := now_ms e]> (last_toggle_time w)) w).
  assert (Hw' : w' = store_and_drive e i (flip (state_at w i)) w1).
  { unfold w'. rewrite relay_toggle_accepted by (lia || assumption).
    reflexivity. }
  assert (Hr : r = state_value (state_at w' i)).
  { unfold r, w'. rewrite relay_toggle_accepted by (lia || assumption).
    reflexivity. }
  assert (Hlen1 : length (relays w1) = Z.to_nat RELAY_COUNT) by exact Hlen.
  assert (Hst : state_at w' i = flip (state_at w i)).
  { rewrite Hw'. apply state_at_store_and_drive; assumption. }
  split; [exact Hst|]. split.
  { intros j Hj Hne. rewrite Hw'.
    rewrite state_at_store_and_drive_ne by (assumption || lia).
    reflexivity. }
  split.
  { rewrite Hw'. unfold last_toggle_at.
    rewrite ledger_store_and_drive by assumption.
    unfold w1. cbn [last_toggle_time set_last_toggle_time].
    rewrite list_lookup_insert_eq by lia. reflexivity. }
  split.
  { rewrite Hw'.
    apply (gpio_store_and_drive e i (flip (state_at w i)) w1 Hi Hlen1).
    apply (relay_pin_not_led w i); [split; assumption | exact Hi]. }
  split.
  { destruct (trace_store_and_drive e i (flip (state_at w i)) w1 Hi Hlen1)
      as (calls & Ht & Hc1 & _ & _ & Hin).
    exists calls. rewrite Hw'. repeat split; assumption. }
  split.
  { intros Ho Hs Hc. rewrite Hw'. unfold store_and_drive. cbn zeta.
    cbn [RELAY_PERSIST_STATE]. rewrite nvs_save_states by assumption.
    cbn [snd nvs emit set_nvs]. reflexivity. }
  rewrite Hr, Hst. reflexivity.
Qed.

Lemma C2_toggle_after_debounce_flips_witness :
  wf_world started_world ∧
  0 <= 0 < RELAY_COUNT ∧
  RELAY_DEBOUNCE_MS <= elapsed_ms (healthy 10) started_world 0 ∧
  fst (relay_toggle (healthy 10) 0 started_world) = 1.
Proof.
  assert (H1 : 0 <= 0 < RELAY_COUNT) by (vm_compute; split; congruence).
  assert (H2 : RELAY_DEBOUNCE_MS <= elapsed_ms (healthy 10) started_world 0)
    by (vm_compute; congruence).
  split; [exact wf_started_world|]. split; [exact H1|]. split; [exact H2|].
  destruct (C2_toggle_after_debounce_flips
              (healthy 10) started_world 0 wf_started_world H1 H2)
    as (_ & _ & _ & _ & _ & _ & Hr).
  exact Hr.
Defined.

(** ** Explicit set *)

(** [relay_set_state] reads neither the clock nor the ledger and hands the
    ledger back as it got it. *)
Lemma relay_set_state_ignores_ledger (e : env) (i : Z) (s : relay_state_t)
    (w : world) (ts : list Z) (ticks period : Z) :
  relay_set_state (set_clock ticks period e) i s (set_last_toggle_time ts w)
  = (fst (relay_set_state e i s w),
     set_last_toggle_time ts (snd (relay_set_state e i s w))).
Proof.
  unfold relay_set_state. destruct (i >=? RELAY_COUNT); [reflexivity|].
  cbn [fst snd]. f_equal.
  unfold apply_gpio_state. destruct (i >=? RELAY_COUNT).
  - rewrite !blink_led_eq. cbn.
    unfold relay_save_states. cbn.
    destruct (led_initialized w), (rc_nvs_open e =? ESP_OK),
      (rc_nvs_set e =? ESP_OK), (rc_nvs_commit e =? ESP_OK); reflexivity.
  - rewrite !blink_led_eq. cbn.
    unfold relay_save_states. cbn.
    destruct (led_initialized w), (rc_nvs_open e =? ESP_OK),
      (rc_nvs_set e =? ESP_OK), (rc_nvs_commit e =? ESP_OK); reflexivity.
Qed.

Lemma handler_set_valid (s : relay_state_t) (e : env) (uri : string)
    (w : world) (i : Z) :
  length (relays w) = Z.to_nat RELAY_COUNT →
  0 <= i < RELAY_COUNT →
  extract_relay_id uri = i →
  handler_set s e uri w
  = (send_json_response
       (JSON_RELAY_STATUS i (name (relay_at w i)) (state_value s)),
     snd (relay_set_state e i s w)).
Proof.
  intros Hlen Hi Huri.
  assert (Hne : (i =? -2) = false) by lia.
  assert (Hpos : (i <? 0) = false) by lia.
  destruct s; unfold handler_set, handler_on, handler_off;
    rewrite Huri, Hne, Hpos, (uint8_small i Hi);
    rewrite relay_get_info_valid by lia;
    rewrite relay_set_state_valid by lia; cbn [snd];
    rewrite name_at_store_and_drive by assumption; reflexivity.
Qed.

(** C3: on a valid relay, [SetState] leaves the ledger as it was and
    does not depend on it or on the clock, puts the relay in the asked
    state whatever it was before, and does so again when repeated: both
    calls succeed ([ESP_OK], never the unchanged-state answer of a
    debounced toggle), the relay is in state [s] after each, the second
    call leaves the table of relays as the first left it, and the handler
    reports [s] both times. *)
Theorem C3_set_state_bypasses_debounce_and_is_idempotent
    (e1 e2 : env) (w : world) (i : Z) (s : relay_state_t) :
  length (relays w) = Z.to_nat RELAY_COUNT →
  0 <= i < RELAY_COUNT →
  let w1 := snd (relay_set_state e1 i s w) in
  let w2 := snd (relay_set_state e2 i s w1) in
  fst (relay_set_state e1 i s w) = ESP_OK ∧
  fst (relay_set_state e2 i s w1) = ESP_OK ∧
  state_at w1 i = s ∧ state_at w2 i = s ∧
  relay_get_state i w1 = state_value s ∧
  relay_get_state i w2 = state_value s ∧
  relays w2 = relays w1 ∧
  last_toggle_time w1 = last_toggle_time w ∧
  last_toggle_time w2 = last_toggle_time w ∧
  (∀ ts ticks period,
     relay_set_state (set_clock ticks period e1) i s
       (set_last_toggle_time ts w)
     = (ESP_OK, set_last_toggle_time ts w1)) ∧
  (∀ uri, extract_relay_id uri = i →
     fst (handler_set s e1 uri w)
       = send_json_response
           (JSON_RELAY_STATUS i (name (relay_at w i)) (state_value s)) ∧
     fst (handler_set s e2 uri w1)
       = send_json_response
           (JSON_RELAY_STATUS i (name (relay_at w i)) (state_value s))).
Proof.
  intros Hlen Hi w1 w2.
  assert (Hw1 : w1 = store_and_drive e1 i s w).
  { unfold w1. rewrite relay_set_state_valid by lia. reflexivity. }
  assert (Hlen1 : length (relays w1) = Z.to_nat RELAY_COUNT).
  { rewrite Hw1, relays_store_and_drive, length_alter by assumption.
    exact Hlen. }
  assert (Hw2 : w2 = store_and_drive e2 i s w1).
  { unfold w2. rewrite relay_set_state_valid by lia. reflexivity. }
  assert (Hs1 : state_at w1 i = s).
  { rewrite Hw1. apply state_at_store_and_drive; assumption. }
  assert (Hs2 : state_at w2 i = s).
  { rewrite Hw2. apply state_at_store_and_drive; assumption. }
  assert (Hget : ∀ w0, relay_get_state i w0 = state_value (state_at w0 i)).
  { intros w0. unfold relay_get_state.
    destruct (i >=? RELAY_COUNT) eqn:Hge; [lia | reflexivity]. }
  split; [rewrite relay_set_state_valid by lia; reflexivity|].
  split; [rewrite relay_set_state_valid by lia; reflexivity|].
  split; [exact Hs1|]. split; [exact Hs2|].
  split; [rewrite Hget, Hs1; reflexivity|].
  split; [rewrite Hget, Hs2; reflexivity|].
  split.
  { rewrite Hw2, relays_store_and_drive by assumption.
    rewrite Hw1, relays_store_and_drive by assumption.
    rewrite list_alter_alter_eq. reflexivity. }
  split; [rewrite Hw1; apply ledger_store_and_drive; assumption|].
  split.
  { rewrite Hw2, ledger_store_and_drive by assumption.
    rewrite Hw1. apply ledger_store_and_drive; assumption. }
  split.
  { intros ts ticks period. rewrite relay_set_state_ignores_ledger.
    rewrite relay_set_state_valid by lia. cbn [fst snd].
    rewrite Hw1. reflexivity. }
  intros uri Huri. split.
  - rewrite (handler_set_valid s e1 uri w i) by assumption. reflexivity.
  - rewrite (handler_set_valid s e2 uri w1 i) by assumption. cbn [fst].
    rewrite Hw1, name_at_store_and_drive by assumption. reflexivity.
Qed.

Lemma C3_set_state_bypasses_debounce_and_is_idempotent_witness :
  length (relays started_world) = Z.to_nat RELAY_COUNT ∧
  0 <= 1 < RELAY_COUNT ∧
  state_at
    (snd (relay_set_state (healthy 0) 1 RELAY_ON
            (snd (relay_set_state (healthy 0) 1 RELAY_ON started_world)))) 1
  = RELAY_ON.
Proof.
  assert (H1 : length (relays started_world) = Z.to_nat RELAY_COUNT)
    by reflexivity.
  assert (H2 : 0 <= 1 < RELAY_COUNT) by (vm_compute; split; congruence).
  split; [exact H1|]. split; [exact H2|].
  destruct (C3_set_state_bypasses_debounce_and_is_idempotent
              (healthy 0) (healthy 0) started_world 1 RELAY_ON H1 H2)
    as (_ & _ & _ & Hs2 & _).
  exact Hs2.
Defined.

(** ** Invalid targets *)

(** C5: a command addressed to an index [i >= RELAY_COUNT] answers with
    the error value ([-1] from toggle and get, [ESP_ERR_INVALID_ARG] from
    set, no descriptor from [relay_get_info]) and returns the world as it
    was: no relay state, ledger entry, pin, stored snapshot or platform
    call is added or changed. *)
Theorem C5_invalid_target_is_rejected_without_effect
    (e : env) (w : world) (i : Z) (s : relay_state_t) :
  RELAY_COUNT <= i →
  relay_toggle e i w = (-1, w) ∧
  relay_set_state e i s w = (ESP_ERR_INVALID_ARG, w) ∧
  ESP_ERR_INVALID_ARG ≠ ESP_OK ∧
  relay_get_state i w = -1 ∧
  relay_get_info i w = None.
Proof.
  intros Hi.
  assert (Hge : (i >=? RELAY_COUNT) = true) by lia.
  unfold relay_toggle, relay_set_state, relay_get_state, relay_get_info.
  rewrite Hge. repeat split; try reflexivity; discriminate.
Qed.

(** A request whose index the parser refuses is answered 400 by every
    handler, and the service is not called. *)
Lemma handlers_refuse_invalid_target (e : env) (uri : string) (w : world) :
  extract_relay_id uri = -1 →
  handler_toggle e uri w
    = (send_json_error "400 Bad Request" "Invalid relay ID", w) ∧
  handler_on e uri w
    = (send_json_error "400 Bad Request" "Invalid relay ID", w) ∧
  handler_off e uri w
    = (send_json_error "400 Bad Request" "Invalid relay ID", w) ∧
  handler_status uri w = send_json_error "400 Bad Request" "Invalid relay ID".
Proof.
  intros Huri. unfold handler_toggle, handler_on, handler_off, handler_status.
  rewrite Huri. repeat split.
Qed.

Lemma C5_invalid_target_is_rejected_without_effect_witness :
  RELAY_COUNT <= 5 ∧
  relay_toggle (healthy 100) 5 started_world = (-1, started_world).
Proof.
  assert (H1 : RELAY_COUNT <= 5) by (vm_compute; congruence).
  split; [exact H1|].
  exact (proj1 (C5_invalid_target_is_rejected_without_effect
                  (healthy 100) started_world 5 RELAY_ON H1)).
Defined.

(** ** Start-up *)

Lemma init_led_frame (e : env) (w : world) :
  relays (init_led e w) = relays w ∧
  last_toggle_time (init_led e w) = last_toggle_time w ∧
  nvs (init_led e w) = nvs w.
Proof. unfold init_led. destruct (led_initialized w); repeat split. Qed.

Lemma configure_pins_frame (e : env) (ids : list Z) (w : world) :
  relays (snd (configure_pins e ids w)) = relays w ∧
  last_toggle_time (snd (configure_pins e ids w)) = last_toggle_time w ∧
  nvs (snd (configure_pins e ids w)) = nvs w.
Proof.
  revert w. induction ids as [|i ids IH]; intros w; [repeat split|].
  cbn [configure_pins gpio_config].
  destruct (negb (rc_gpio_config e (gpio_pin (relay_at w i)) =? ESP_OK)).
  - repeat split.
  - match goal with |- context [configure_pins e ids ?w1] =>
      destruct (IH w1) as (Hr & Hl & Hn); rewrite Hr, Hl, Hn end.
    repeat split.
Qed.

Lemma unpack_states_frame (v : Z) (w : world) :
  gpio_pin <$> relays (unpack_states v w) = gpio_pin <$> relays w ∧
  last_toggle_time (unpack_states v w) = last_toggle_time w ∧
  nvs (unpack_states v w) = nvs w ∧
  gpio (unpack_states v w) = gpio w.
Proof.
  unfold unpack_states.
  apply (for_loop_ind (fun _ acc =>
    gpio_pin <$> relays acc = gpio_pin <$> relays w ∧
    last_toggle_time acc = last_toggle_time w ∧
    nvs acc = nvs w ∧ gpio acc = gpio w)).
  - discriminate.
  - repeat split.
  - intros i acc _ (Hp & Hl & Hn & Hg). rewrite pins_write_state.
    repeat split; assumption.
Qed.

Lemma relay_load_states_frame (e : env) (w : world) :
  gpio_pin <$> relays (snd (relay_load_states e w)) = gpio_pin <$> relays w ∧
  last_toggle_time (snd (relay_load_states e w)) = last_toggle_time w ∧
  nvs (snd (relay_load_states e w)) = nvs w.
Proof.
  unfold relay_load_states.
  destruct (negb (rc_nvs_open e =? ESP_OK)); [repeat split|].
  destruct (nvs_get_u8 e _) as [ret v].
  destruct (negb (ret =? ESP_OK)); [repeat split|].
  cbn [snd].
  match goal with |- context [unpack_states v ?w1] =>
    destruct (unpack_states_frame v w1) as (Hp & Hl & Hn & _) end.
  rewrite Hp, Hl, Hn. repeat split.
Qed.

(** With nothing in the store the table keeps its initialisers. *)
Lemma relay_load_states_absent (e : env) (w : world) :
  nvs w = None →
  fst (relay_load_states e w) ≠ ESP_OK ∧
  relays (snd (relay_load_states e w)) = relays w.
Proof.
  intros Hnone. unfold relay_load_states, nvs_get_u8.
  destruct (rc_nvs_open e =? ESP_OK) eqn:Ho; cbn [negb].
  - cbn [nvs emit]. rewrite Hnone.
    destruct (rc_nvs_get e =? ESP_OK) eqn:Hg; cbn [negb].
    + split; [discriminate | reflexivity].
    + rewrite Hg. cbn [negb fst snd].
      split; [apply Z.eqb_neq, Hg | reflexivity].
  - cbn [fst snd]. split; [apply Z.eqb_neq, Ho | reflexivity].
Qed.

Lemma pins_distinct (w : world) (j k : nat) (r r' : relay_info_t) :
  NoDup (gpio_pin <$> relays w) →
  relays w !! j = Some r →
  relays w !! k = Some r' →
  j ≠ k →
  gpio_pin r ≠ gpio_pin r'.
Proof.
  intros Hnd Hj Hk Hne Heq. apply Hne.
  apply (NoDup_lookup _ j k (gpio_pin r) Hnd).
  - rewrite list_lookup_fmap, Hj. reflexivity.
  - rewrite list_lookup_fmap, Hk, Heq. reflexivity.
Qed.

(** The last loop of [relay_service_init] puts every pin at the level of
    its relay's state. *)
Lemma apply_all_gpio_states (w : world) :
  length (relays w) = Z.to_nat RELAY_COUNT →
  NoDup (gpio_pin <$> relays w) →
  let w' := for_loop RELAY_COUNT apply_gpio_state w in
  relays w' = relays w ∧
  last_toggle_time w' = last_toggle_time w ∧
  nvs w' = nvs w ∧
  gpio_matches_state w'.
Proof.
  intros Hlen Hnd w'.
  assert (Hinv :
    relays w' = relays w ∧ last_toggle_time w' = last_toggle_time w ∧
    nvs w' = nvs w ∧
    ∀ (j : nat) r, Z.of_nat j < RELAY_COUNT → relays w !! j = Some r →
                   gpio w' !! gpio_pin r = Some (gpio_level_of (state r))).
  { unfold w'.
    apply (for_loop_ind (fun k acc =>
      relays acc = relays w ∧ last_toggle_time acc = last_toggle_time w ∧
      nvs acc = nvs w ∧
      ∀ (j : nat) r, Z.of_nat j < k → relays w !! j = Some r →
                     gpio acc !! gpio_pin r = Some (gpio_level_of (state r)))).
    - discriminate.
    - repeat split. intros j r Hj. lia.
    - intros i acc Hi (Hr & Hl & Hn & Hg).
      rewrite apply_gpio_state_eq by lia.
      cbn [relays last_toggle_time nvs gpio gpio_set_level emit].
      repeat split; try assumption.
      intros j r Hj Hjr.
      destruct (valid_index w i Hlen Hi) as [ri Hri].
      assert (Hat : relay_at acc i = ri).
      { unfold relay_at. rewrite Hr, Hri. reflexivity. }
      unfold state_at. rewrite Hat.
      destruct (decide (j = Z.to_nat i)) as [->|Hne].
      + rewrite Hri in Hjr. injection Hjr as <-. apply lookup_insert_eq.
      + rewrite lookup_insert_ne
          by (apply (pins_distinct w (Z.to_nat i) j ri r); auto).
        apply (Hg j); [lia | exact Hjr]. }
  destruct Hinv as (Hr & Hl & Hn & Hg). repeat split; try assumption.
  intros j r Hjr. rewrite Hr in Hjr. apply (Hg j); [|exact Hjr].
  apply lookup_lt_Some in Hjr. lia.
Qed.

Lemma wf_transfer (w w' : world) :
  wf_world w →
  gpio_pin <$> relays w' = gpio_pin <$> relays w →
  last_toggle_time w' = last_toggle_time w →
  wf_world w'.
Proof.
  intros [Hlen Hled Hnd Hnl] Hp Hl. split.
  - rewrite <- Hlen, <- (length_fmap gpio_pin (relays w')), Hp.
    apply length_fmap.
  - rewrite Hl. exact Hled.
  - rewrite Hp. exact Hnd.
  - rewrite Hp. exact Hnl.
Qed.

(** A successful start keeps the wiring and the ledger and leaves every
    pin at the level of its relay's state. *)
Lemma relay_service_init_ok (e : env) (w w0 : world) :
  wf_world w →
  relay_service_init e w = (ESP_OK, w0) →
  wf_world w0 ∧
  last_toggle_time w0 = last_toggle_time w ∧
  gpio_matches_state w0 ∧
  (nvs w = None → relays w0 = relays w).
Proof.
  intros Hwf. unfold relay_service_init.
  destruct (init_led_frame e w) as (Hr1 & Hl1 & Hn1).
  destruct (configure_pins_frame e (seqZ 0 RELAY_COUNT) (init_led e w))
    as (Hr2 & Hl2 & Hn2).
  destruct (configure_pins e (seqZ 0 RELAY_COUNT) (init_led e w))
    as [ret w2]. cbn [snd] in Hr2, Hl2, Hn2.
  destruct (negb (ret =? ESP_OK)) eqn:Hret.
  { intros Heq. injection Heq as Hret' _. subst ret. discriminate. }
  cbn [RELAY_PERSIST_STATE].
  destruct (relay_load_states_frame e w2) as (Hp3 & Hl3 & Hn3).
  set (w3 := snd (relay_load_states e w2)) in *.
  assert (Hwf3 : wf_world w3).
  { apply (wf_transfer w); [exact Hwf | | ]; congruence. }
  destruct (apply_all_gpio_states w3 (wf_relays _ Hwf3) (wf_pins _ Hwf3))
    as (Hr4 & Hl4 & Hn4 & Hg4).
  intros Heq. injection Heq as <-.
  split; [apply (wf_transfer w3); [exact Hwf3 | | ]; congruence|].
  split; [congruence|]. split; [exact Hg4|].
  intros Hnone. rewrite Hr4. unfold w3.
  destruct (relay_load_states_absent e w2) as (_ & Hr5); congruence.
Qed.

Lemma wf_boot_world (stored : option Z) : wf_world (boot_world stored).
Proof.
  split; [reflexivity | reflexivity | |];
    apply (bool_decide_unpack _); vm_compute; reflexivity.
Qed.

(** ** Bulk commands *)

Lemma relay_all_eq (s : relay_state_t) (e : env) (w : world) :
  relay_all s e w = (ESP_OK, snd (relay_save_states e (set_all_loop s w))).
Proof. destruct s; reflexivity. Qed.

Lemma set_all_loop_inv (s : relay_state_t) (w : world) :
  length (relays w) = Z.to_nat RELAY_COUNT →
  set_all_inv s w RELAY_COUNT (set_all_loop s w).
Proof.
  intros Hlen. unfold set_all_loop.
  apply (for_loop_ind (set_all_inv s w)); [discriminate | |].
  - unfold set_all_inv. cbn [Z.to_nat]. rewrite take_0, drop_0.
    cbn [fmap list_fmap]. rewrite app_nil_r.
    repeat split; try reflexivity. intros r Hr. inversion Hr.
  - intros i acc Hi (Hr & Hl & Hn & Hd & Ht & Hg & Hf).
    destruct (valid_index w i Hlen Hi) as [ri Hri].
    set (k := Z.to_nat i) in *.
    assert (Hk : Z.to_nat (i + 1) = S k) by lia.
    assert (Hlk : length (with_state s <$> take k (relays w)) = k).
    { rewrite length_fmap, length_take_le; lia. }
    assert (Hlacc : length (relays acc) = Z.to_nat RELAY_COUNT).
    { rewrite Hr, length_app, length_fmap, length_take, length_drop. lia. }
    assert (Hat : relay_at acc i = ri).
    { unfold relay_at. fold k. rewrite Hr, lookup_app_r by lia.
      rewrite Hlk, Nat.sub_diag, lookup_drop, Nat.add_0_r, Hri. reflexivity. }
    rewrite apply_gpio_state_eq by lia.
    rewrite pin_at_write_state, state_at_write_state_eq by (fold k; lia).
    rewrite Hat. unfold set_all_inv. rewrite Hk.
    rewrite (take_S_r _ _ _ Hri).
    cbn [relays last_toggle_time nvs led_initialized trace gpio
           gpio_set_level emit write_state set_relays].
    fold k. repeat split; try assumption.
    + rewrite Hr. rewrite <- Hlk at 1.
      rewrite <- (Nat.add_0_r (length _)), alter_app_r.
      rewrite (drop_S _ _ _ Hri). cbn [alter list_alter].
      rewrite fmap_app, <- app_assoc. reflexivity.
    + rewrite Ht, fmap_app, <- app_assoc. reflexivity.
    + intros r [Hin | Hin%list_elem_of_singleton]%elem_of_app.
      * destruct (decide (gpio_pin r = gpio_pin ri)) as [->|Hne].
        -- apply lookup_insert_eq.
        -- rewrite lookup_insert_ne by congruence. apply Hg, Hin.
      * subst r. apply lookup_insert_eq.
    + intros pin Hpin. rewrite lookup_insert_ne; [apply Hf, Hpin|].
      intros <-. apply Hpin, list_elem_of_fmap_2, list_elem_of_lookup. eauto.
Qed.

(** What a bulk command leaves behind. *)
Lemma set_all_loop_spec (s : relay_state_t) (w : world) :
  length (relays w) = Z.to_nat RELAY_COUNT →
  let w' := set_all_loop s w in
  relays w' = (with_state s <$> relays w) ∧
  last_toggle_time w' = last_toggle_time w ∧
  nvs w' = nvs w ∧
  led_initialized w' = led_initialized w ∧
  trace w' = (trace w ++ (drive_call s <$> relays w))%list ∧
  (∀ r, r ∈ relays w → gpio w' !! gpio_pin r = Some (gpio_level_of s)) ∧
  (∀ pin, pin ∉ gpio_pin <$> relays w → gpio w' !! pin = gpio w !! pin).
Proof.
  intros Hlen w'. destruct (set_all_loop_inv s w Hlen) as
    (Hr & Hl & Hn & Hd & Ht & Hg & Hf).
  rewrite take_ge, ?drop_ge in * by lia.
  rewrite app_nil_r in Hr. repeat split; assumption.
Qed.

Lemma count_calls_app (p : event → bool) (t1 t2 : list event) :
  count_calls p (t1 ++ t2) = (count_calls p t1 + count_calls p t2)%nat.
Proof. unfold count_calls. rewrite List.filter_app, length_app. reflexivity. Qed.

Lemma count_calls_drive (p : event → bool) (s : relay_state_t)
    (rs : list relay_info_t) :
  (∀ pin level, p (EvGpioSetLevel pin level) = false) →
  count_calls p (drive_call s <$> rs) = 0%nat.
Proof.
  intros Hp. induction rs as [|r rs IH]; [reflexivity|].
  unfold count_calls in *. cbn [fmap list_fmap List.filter].
  unfold drive_call at 1. rewrite Hp. exact IH.
Qed.

Lemma new_calls_app (w w' : world) (calls : list event) :
  trace w' = (trace w ++ calls)%list → new_calls w w' = calls.
Proof. intros Ht. unfold new_calls. rewrite Ht. apply drop_app_length. Qed.

Lemma relay_at_fmap_state (s : relay_state_t) (w w' : world) (i : Z) :
  length (relays w) = Z.to_nat RELAY_COUNT →
  0 <= i < RELAY_COUNT →
  relays w' = (with_state s <$> relays w) →
  relay_at w' i = with_state s (relay_at w i).
Proof.
  intros Hlen Hi Hr. destruct (valid_index w i Hlen Hi) as [r Hri].
  unfold relay_at. rewrite Hr, list_lookup_fmap, Hri. reflexivity.
Qed.

(** C6: a bulk [SetState(All, s)] succeeds, puts every relay in state [s],
    drives the pin of every relay to the level of [s] (one
    [gpio_set_level] per relay, in index order), and then saves once: the
    calls of the command hold exactly one attempt to open the store for
    writing and at most one write of the packed byte (exactly one when
    the store opens).  The status of all relays read afterwards lists the
    [RELAY_COUNT] relays in index order, each in state [s]. *)
Theorem C6_bulk_set_state_persists_once
    (e : env) (w : world) (s : relay_state_t) :
  length (relays w) = Z.to_nat RELAY_COUNT →
  let w' := snd (relay_all s e w) in
  fst (relay_all s e w) = ESP_OK ∧
  (∀ i, 0 <= i < RELAY_COUNT → state_at w' i = s) ∧
  (∀ i, 0 <= i < RELAY_COUNT →
        gpio w' !! gpio_pin (relay_at w i) = Some (gpio_level_of s)) ∧
  (∃ calls,
     new_calls w w' = ((drive_call s <$> relays w) ++ calls)%list ∧
     count_calls is_save_attempt calls = 1%nat ∧
     count_calls is_nvs_write calls
       = (if (rc_nvs_open e =? ESP_OK)%Z then 1 else 0)%nat ∧
     (rc_nvs_open e = ESP_OK → In (EvNvsSetU8 (pack_states w')) calls)) ∧
  count_calls is_save_attempt (new_calls w w') = 1%nat ∧
  (count_calls is_nvs_write (new_calls w w') <= 1)%nat ∧
  (rc_nvs_open e = ESP_OK →
   count_calls is_nvs_write (new_calls w w') = 1%nat) ∧
  handler_status "/relay/all/status" w'
  = send_json_response
      (JSON_ALL_STATUS
         ((fun i => (i, name (relay_at w i), state_value s))
            <$> seqZ 0 RELAY_COUNT)).
Proof.
  intros Hlen w'.
  assert (Hw' : w' = snd (relay_save_states e (set_all_loop s w))).
  { unfold w'. rewrite relay_all_eq. reflexivity. }
  destruct (set_all_loop_spec s w Hlen) as (Hr & Hl & Hn & Hd & Ht & Hg & Hf).
  assert (Hrel : relays w' = (with_state s <$> relays w)).
  { rewrite Hw', relays_save_states. exact Hr. }
  assert (Hat : ∀ i, 0 <= i < RELAY_COUNT →
                     relay_at w' i = with_state s (relay_at w i)).
  { intros i Hi. apply relay_at_fmap_state; assumption. }
  destruct (trace_save_states e (set_all_loop s w))
    as (calls & Htr & Hc1 & _ & Hc3 & Hin).
  assert (Hnew : new_calls w w' = ((drive_call s <$> relays w) ++ calls)%list).
  { apply new_calls_app. rewrite Hw', Htr, Ht, <- app_assoc. reflexivity. }
  split; [rewrite relay_all_eq; reflexivity|].
  split; [intros i Hi; unfold state_at; rewrite Hat by exact Hi; reflexivity|].
  split.
  { intros i Hi. rewrite Hw', gpio_save_states. apply Hg.
    destruct (valid_index w i Hlen Hi) as [r Hri].
    unfold relay_at. rewrite Hri. apply list_elem_of_lookup. eauto. }
  split.
  { exists calls. repeat split; try assumption.
    intros Ho. rewrite (pack_states_ext w' (set_all_loop s w)).
    - apply Hin, Ho.
    - rewrite Hw'. apply relays_save_states. }
  rewrite Hnew, !count_calls_app, !count_calls_drive
    by (intros; reflexivity).
  rewrite Hc1, Hc3.
  split; [reflexivity|]. split; [destruct (rc_nvs_open e =? ESP_OK); simpl; lia|].
  split; [intros Ho; rewrite Ho; reflexivity|].
  unfold handler_status.
  change (extract_relay_id "/relay/all/status") with (-2).
  cbn [Z.eqb Pos.eqb]. do 2 f_equal.
  unfold for_loop. change (seqZ 0 RELAY_COUNT) with [0; 1; 2; 3].
  cbn [foldl fmap list_fmap app].
  change (uint8 0) with 0. change (uint8 1) with 1.
  change (uint8 2) with 2. change (uint8 3) with 3.
  rewrite !relay_get_info_valid by reflexivity. cbn [default].
  rewrite !Hat by (unfold RELAY_COUNT; lia). reflexivity.
Qed.

Lemma C6_bulk_set_state_persists_once_witness :
  length (relays started_world) = Z.to_nat RELAY_COUNT ∧
  count_calls is_save_attempt
    (new_calls started_world
       (snd (relay_all RELAY_ON (healthy 3) started_world))) = 1%nat.
Proof.
  assert (H1 : length (relays started_world) = Z.to_nat RELAY_COUNT)
    by reflexivity.
  split; [exact H1|].
  destruct (C6_bulk_set_state_persists_once
              (healthy 3) started_world RELAY_ON H1)
    as (_ & _ & _ & _ & Hc & _).
  exact Hc.
Defined.

(** ** Pins follow states *)

Lemma store_and_drive_preserves (e : env) (i : Z) (s : relay_state_t)
    (w : world) :
  wf_world w →
  gpio_matches_state w →
  0 <= i < RELAY_COUNT →
  wf_world (store_and_drive e i s w) ∧
  gpio_matches_state (store_and_drive e i s w).
Proof.
  intros Hwf Hg Hi. pose proof (wf_relays _ Hwf) as Hlen. split.
  - apply (wf_transfer w); [exact Hwf | |].
    + apply pins_store_and_drive; assumption.
    + apply ledger_store_and_drive; assumption.
  - intros j r Hjr. rewrite relays_store_and_drive in Hjr by assumption.
    destruct (valid_index w i Hlen Hi) as [ri Hri].
    assert (Hat : relay_at w i = ri) by (unfold relay_at; rewrite Hri; reflexivity).
    destruct (decide (j = Z.to_nat i)) as [->|Hne].
    + rewrite list_lookup_alter_eq, Hri in Hjr. injection Hjr as <-.
      cbn [with_state gpio_pin state]. rewrite <- Hat.
      apply gpio_store_and_drive; [assumption | assumption |].
      apply relay_pin_not_led; assumption.
    + rewrite list_lookup_alter_ne in Hjr by congruence.
      rewrite (gpio_store_and_drive_ne e i s w Hi Hlen);
        [apply (Hg j), Hjr | |].
      * rewrite Hat. apply (pins_distinct w j (Z.to_nat i) r ri);
          [apply (wf_pins _ Hwf) | assumption | assumption | assumption].
      * intros Hled. apply (wf_led_pin _ Hwf). rewrite <- Hled.
        apply list_elem_of_fmap_2, list_elem_of_lookup. eauto.
Qed.

Lemma uint8_range (i : Z) : 0 <= uint8 i < 2 ^ 8.
Proof. unfold uint8. apply Z.mod_pos_bound. reflexivity. Qed.

Lemma relay_toggle_preserves (e : env) (i : Z) (w : world) :
  wf_world w →
  gpio_matches_state w →
  0 <= i →
  wf_world (snd (relay_toggle e i w)) ∧
  gpio_matches_state (snd (relay_toggle e i w)).
Proof.
  intros Hwf Hg Hi.
  destruct (Z.lt_ge_cases i RELAY_COUNT) as [Hlt|Hge].
  - destruct (Z.lt_ge_cases (elapsed_ms e w i) RELAY_DEBOUNCE_MS) as [Hr|Ha].
    + rewrite relay_toggle_rejected by assumption. split; assumption.
    + rewrite relay_toggle_accepted by assumption. cbn [snd].
      apply store_and_drive_preserves; [| exact Hg | lia].
      destruct Hwf as [Hlen Hled Hnd Hnl]. split; try assumption.
      cbn [last_toggle_time set_last_toggle_time]. rewrite length_insert.
      exact Hled.
  - unfold relay_toggle. destruct (i >=? RELAY_COUNT) eqn:Hc; [|lia].
    split; assumption.
Qed.

Lemma relay_set_state_preserves (e : env) (i : Z) (s : relay_state_t)
    (w : world) :
  wf_world w →
  gpio_matches_state w →
  0 <= i →
  wf_world (snd (relay_set_state e i s w)) ∧
  gpio_matches_state (snd (relay_set_state e i s w)).
Proof.
  intros Hwf Hg Hi.
  destruct (Z.lt_ge_cases i RELAY_COUNT) as [Hlt|Hge].
  - rewrite relay_set_state_valid by assumption. cbn [snd].
    apply store_and_drive_preserves; [assumption | assumption | lia].
  - unfold relay_set_state. destruct (i >=? RELAY_COUNT) eqn:Hc; [|lia].
    split; assumption.
Qed.

Lemma relay_all_preserves (e : env) (s : relay_state_t) (w : world) :
  wf_world w →
  wf_world (snd (relay_all s e w)) ∧
  gpio_matches_state (snd (relay_all s e w)).
Proof.
  intros Hwf. pose proof (wf_relays _ Hwf) as Hlen.
  rewrite relay_all_eq. cbn [snd].
  destruct (set_all_loop_spec s w Hlen) as (Hr & Hl & _ & _ & _ & Hg & _).
  split.
  - apply (wf_transfer w); [exact Hwf | |].
    + rewrite relays_save_states, Hr, <- list_fmap_compose.
      apply list_fmap_ext. intros _ r _. reflexivity.
    + rewrite ledger_save_states. exact Hl.
  - intros j r Hjr. rewrite gpio_save_states.
    rewrite relays_save_states, Hr, list_lookup_fmap in Hjr.
    destruct (relays w !! j) as [r0|] eqn:Hj0; [|discriminate].
    injection Hjr as <-. cbn [with_state gpio_pin state].
    apply Hg, list_elem_of_lookup. eauto.
Qed.

Lemma exec_preserves (e : env) (c : command) (w : world) :
  wf_world w →
  gpio_matches_state w →
  wf_world (exec e c w) ∧ gpio_matches_state (exec e c w).
Proof.
  intros Hwf Hg. destruct c as [i | i s | i | s |]; cbn [exec].
  - apply relay_toggle_preserves; [assumption | assumption |].
    apply uint8_range.
  - apply relay_set_state_preserves; [assumption | assumption |].
    apply uint8_range.
  - split; assumption.
  - apply relay_all_preserves; assumption.
  - split.
    + apply (wf_transfer w); [exact Hwf | |].
      * rewrite relays_save_states. reflexivity.
      * apply ledger_save_states.
    + intros j r Hjr. rewrite gpio_save_states.
      rewrite relays_save_states in Hjr. apply (Hg j), Hjr.
Qed.

Lemma exec_all_preserves (cs : list (env * command)) (w : world) :
  wf_world w →
  gpio_matches_state w →
  wf_world (exec_all cs w) ∧ gpio_matches_state (exec_all cs w).
Proof.
  revert w. induction cs as [|[e c] cs IH]; intros w Hwf Hg.
  - split; assumption.
  - cbn [exec_all]. destruct (exec_preserves e c w Hwf Hg) as [Hwf' Hg'].
    apply IH; assumption.
Qed.

Lemma gpio_level_active_low (s : relay_state_t) :
  gpio_level_of s = 0 ↔ s = RELAY_ON.
Proof. destruct s; split; (reflexivity || discriminate). Qed.

(** C7: after a successful start and after every command that follows it
    (toggle, accepted or not, explicit set, read, bulk set, save), the
    pin of each relay carries the level that was last driven to it, and
    that level is the image of the relay's logical state under the one
    mapping [gpio_level_of], the same for every relay; the build being
    active-low, the level is 0 exactly when the relay is On. *)
Theorem C7_pin_levels_follow_logical_states
    (e0 : env) (stored : option Z) (w0 : world) (cs : list (env * command)) :
  relay_service_init e0 (boot_world stored) = (ESP_OK, w0) →
  let w := exec_all cs w0 in
  RELAY_ACTIVE_LOW = true ∧
  ∀ i, 0 <= i < RELAY_COUNT →
    gpio w !! gpio_pin (relay_at w i) = Some (gpio_level_of (state_at w i)) ∧
    (gpio_level_of (state_at w i) = 0 ↔ state_at w i = RELAY_ON).
Proof.
  intros Hinit w. split; [reflexivity|]. intros i Hi.
  destruct (relay_service_init_ok e0 _ w0 (wf_boot_world stored) Hinit)
    as (Hwf0 & _ & Hg0 & _).
  destruct (exec_all_preserves cs w0 Hwf0 Hg0) as [Hwf Hg].
  split; [|apply gpio_level_active_low].
  destruct (valid_index (exec_all cs w0) i (wf_relays _ Hwf) Hi) as [r Hr].
  unfold state_at, relay_at, w. rewrite Hr. cbn [default].
  apply (Hg (Z.to_nat i)), Hr.
Qed.

Lemma C7_pin_levels_follow_logical_states_witness :
  relay_service_init (healthy 0) (boot_world None) = (ESP_OK, started_world) ∧
  gpio (exec_all [(healthy 10, Toggle 2); (healthy 11, SetStateAll RELAY_ON);
                  (healthy 30, Toggle 0)] started_world) !! RELAY_3_GPIO
  = Some 0.
Proof.
  assert (H1 : relay_service_init (healthy 0) (boot_world None)
               = (ESP_OK, started_world)) by reflexivity.
  split; [exact H1|].
  exact (proj1 (proj2 (C7_pin_levels_follow_logical_states
                         (healthy 0) None started_world
                         [(healthy 10, Toggle 2);
                          (healthy 11, SetStateAll RELAY_ON);
                          (healthy 30, Toggle 0)] H1) 2
                        ltac:(vm_compute; split; congruence))).
Defined.

(** ** The first toggle after boot *)

Lemma uint32_idem (x : Z) : uint32 (uint32 x) = uint32 x.
Proof. unfold uint32. apply Z.mod_mod. discriminate. Qed.

(** C10: the ledger starts at 0 and start-up leaves it there, so the
    first toggle on any relay, when it comes at a clock reading below
    [RELAY_DEBOUNCE_MS], is rejected although no toggle was accepted
    before: the world is returned unchanged and the answer is the
    relay's current state, which is [RELAY_DEFAULT_STATE] (0) when the
    store held no snapshot at boot. *)
Theorem C10_first_toggle_soon_after_boot_is_rejected
    (e0 e : env) (stored : option Z) (w0 : world) (i : Z) :
  relay_service_init e0 (boot_world stored) = (ESP_OK, w0) →
  0 <= i < RELAY_COUNT →
  now_ms e < RELAY_DEBOUNCE_MS →
  last_toggle_at w0 i = 0 ∧
  relay_toggle e i w0 = (state_value (state_at w0 i), w0) ∧
  (stored = None →
   state_at w0 i = RELAY_DEFAULT_STATE ∧
   relay_toggle e i w0 = (0, w0)).
Proof.
  intros Hinit Hi Hnow.
  destruct (relay_service_init_ok e0 _ w0 (wf_boot_world stored) Hinit)
    as (Hwf0 & Hl0 & _ & Hr0).
  assert (Hlast : last_toggle_at w0 i = 0).
  { unfold last_toggle_at. rewrite Hl0. cbn [boot_world last_toggle_time].
    rewrite lookup_replicate_2 by lia. reflexivity. }
  assert (Hrej : relay_toggle e i w0 = (state_value (state_at w0 i), w0)).
  { apply relay_toggle_rejected; [lia|].
    unfold elapsed_ms. rewrite Hlast, Z.sub_0_r.
    unfold now_ms. rewrite uint32_idem. exact Hnow. }
  split; [exact Hlast|]. split; [exact Hrej|].
  intros ->.
  assert (Hst : state_at w0 i = RELAY_DEFAULT_STATE).
  { unfold state_at, relay_at. rewrite Hr0 by reflexivity.
    cbn [boot_world relays].
    assert (Hcases : i = 0 ∨ i = 1 ∨ i = 2 ∨ i = 3)
      by (unfold RELAY_COUNT in Hi; lia).
    destruct Hcases as [-> | [-> | [-> | ->]]]; reflexivity. }
  split; [exact Hst|]. rewrite Hrej, Hst. reflexivity.
Qed.

Lemma C10_first_toggle_soon_after_boot_is_rejected_witness :
  relay_service_init (healthy 0) (boot_world None) = (ESP_OK, started_world) ∧
  0 <= 3 < RELAY_COUNT ∧
  now_ms (healthy 4) < RELAY_DEBOUNCE_MS ∧
  relay_toggle (healthy 4) 3 started_world = (0, started_world).
Proof.
  assert (H1 : relay_service_init (healthy 0) (boot_world None)
               = (ESP_OK, started_world)) by reflexivity.
  assert (H2 : 0 <= 3 < RELAY_COUNT) by (vm_compute; split; congruence).
  assert (H3 : now_ms (healthy 4) < RELAY_DEBOUNCE_MS) by reflexivity.
  split; [exact H1|]. split; [exact H2|]. split; [exact H3|].
  destruct (C10_first_toggle_soon_after_boot_is_rejected
              (healthy 0) (healthy 4) None started_world 3 H1 H2 H3)
    as (_ & _ & Hd).
  exact (proj2 (Hd eq_refl)).
Defined.

(** ** The packed snapshot *)

Lemma testbit_one_shifted (i j : Z) :
  0 <= i → Z.testbit (Z.shiftl 1 i) j = (i =? j).
Proof.
  intros Hi. rewrite Z.shiftl_1_l. apply Z.pow2_bits_eqb. exact Hi.
Qed.

(** [packed & (1 << i)] is non-zero exactly when bit [i] is set. *)
Lemma mask_test (v i : Z) :
  0 <= i → negb (Z.land v (Z.shiftl 1 i) =? 0) = Z.testbit v i.
Proof.
  intros Hi. destruct (Z.testbit v i) eqn:Hb.
  - apply negb_true_iff, Z.eqb_neq. intros H0.
    assert (Hbit : Z.testbit (Z.land v (Z.shiftl 1 i)) i = true).
    { rewrite Z.land_spec, Hb, testbit_one_shifted, Z.eqb_refl by exact Hi.
      reflexivity. }
    rewrite H0, Z.bits_0 in Hbit. discriminate.
  - apply negb_false_iff, Z.eqb_eq, Z.bits_inj'. intros j Hj.
    rewrite Z.land_spec, Z.bits_0, testbit_one_shifted by exact Hi.
    destruct (Z.eqb_spec i j) as [->|Hne].
    + rewrite Hb. reflexivity.
    + apply andb_false_r.
Qed.

Lemma testbit_uint8 (x j : Z) :
  Z.testbit (uint8 x) j = (j <? 8) && Z.testbit x j.
Proof.
  unfold uint8. destruct (Z.ltb_spec j 8) as [Hlt|Hge].
  - destruct (Z.neg_nonneg_cases j) as [Hneg|Hpos].
    + rewrite !Z.testbit_neg_r by exact Hneg. reflexivity.
    + rewrite Z.mod_pow2_bits_low by lia. reflexivity.
  - rewrite Z.mod_pow2_bits_high by lia. reflexivity.
Qed.

(** Bit [j] of the packed byte is set exactly when relay [j] is On. *)
Lemma pack_states_testbit (w : world) (j : Z) :
  0 <= j →
  Z.testbit (pack_states w) j = (j <? RELAY_COUNT) && is_on (state_at w j).
Proof.
  revert j. unfold pack_states.
  apply (for_loop_ind (fun k packed => ∀ j, 0 <= j →
           Z.testbit packed j = (j <? k) && is_on (state_at w j))).
  - discriminate.
  - intros j Hj. rewrite Z.bits_0.
    destruct (Z.ltb_spec j 0); [lia | reflexivity].
  - intros i packed Hi IH j Hj. unfold RELAY_COUNT in Hi.
    destruct (decide (state_at w i = RELAY_ON)) as [Hon|Hoff].
    + rewrite testbit_uint8, Z.lor_spec, IH, testbit_one_shifted by lia.
      destruct (Z.ltb_spec j 8), (Z.ltb_spec j i), (Z.ltb_spec j (i + 1)),
        (Z.eqb_spec i j); try lia; subst; rewrite ?Hon;
        cbn [andb orb is_on]; rewrite ?orb_false_r; reflexivity.
    + rewrite IH by exact Hj.
      destruct (Z.ltb_spec j i), (Z.ltb_spec j (i + 1)); try lia;
        try reflexivity.
      assert (j = i) by lia. subst j.
      destruct (state_at w i); [reflexivity | congruence].
Qed.

Lemma pack_states_range (w : world) : 0 <= pack_states w < 2 ^ 8.
Proof.
  unfold pack_states.
  apply (for_loop_ind (fun _ packed => 0 <= packed < 2 ^ 8)).
  - discriminate.
  - split; [reflexivity | reflexivity].
  - intros i packed _ IH. destruct (decide (state_at w i = RELAY_ON)).
    + apply Z.mod_pos_bound. reflexivity.
    + exact IH.
Qed.

(** After unpacking, relay [j] is On exactly when bit [j] is set. *)
Lemma unpack_states_state_at (v : Z) (w : world) (j : Z) :
  length (relays w) = Z.to_nat RELAY_COUNT →
  0 <= j < RELAY_COUNT →
  state_at (unpack_states v w) j
  = if Z.testbit v j then RELAY_ON else RELAY_OFF.
Proof.
  intros Hlen Hj.
  assert (Hinv :
    length (relays (unpack_states v w)) = Z.to_nat RELAY_COUNT ∧
    ∀ j, 0 <= j < RELAY_COUNT →
         state_at (unpack_states v w) j
         = if Z.testbit v j then RELAY_ON else RELAY_OFF).
  { unfold unpack_states.
    apply (for_loop_ind (fun k acc =>
      length (relays acc) = Z.to_nat RELAY_COUNT ∧
      ∀ j, 0 <= j < k →
           state_at acc j = if Z.testbit v j then RELAY_ON else RELAY_OFF)).
    - discriminate.
    - split; [exact Hlen | intros; lia].
    - intros i acc Hi [Hl IH]. split; [rewrite length_write_state; exact Hl|].
      intros k Hk. destruct (decide (k = i)) as [->|Hne].
      + rewrite state_at_write_state_eq by lia.
        rewrite mask_test by lia. reflexivity.
      + rewrite state_at_write_state_ne by lia. apply IH. lia. }
  apply Hinv, Hj.
Qed.

(** C4: when the store accepts the write, [relay_save_states] leaves in
    it a byte whose bit [i] is 1 exactly when relay [i] is On, and a
    later [relay_load_states] on any table of [RELAY_COUNT] relays that
    reads this store (a fresh table of defaults after a reboot, in
    particular) puts every relay [0 .. RELAY_COUNT-1] back in the state it
    had when the save was made. *)
Theorem C4_save_then_load_restores_states (e e' : env) (w fresh : world) :
  length (relays w) = Z.to_nat RELAY_COUNT →
  length (relays fresh) = Z.to_nat RELAY_COUNT →
  rc_nvs_open e = ESP_OK →
  rc_nvs_set e = ESP_OK →
  rc_nvs_commit e = ESP_OK →
  rc_nvs_open e' = ESP_OK →
  rc_nvs_get e' = ESP_OK →
  nvs fresh = nvs (snd (relay_save_states e w)) →
  fst (relay_save_states e w) = ESP_OK ∧
  (∃ v, nvs (snd (relay_save_states e w)) = Some v ∧
        0 <= v < 2 ^ 8 ∧
        ∀ i, 0 <= i < RELAY_COUNT → Z.testbit v i = is_on (state_at w i)) ∧
  fst (relay_load_states e' fresh) = ESP_OK ∧
  ∀ i, 0 <= i < RELAY_COUNT →
       state_at (snd (relay_load_states e' fresh)) i = state_at w i.
Proof.
  intros Hlen Hlenf Ho Hs Hc Ho' Hg' Hnvs.
  rewrite nvs_save_states in * by assumption. cbn [fst snd] in *.
  cbn [nvs emit set_nvs] in Hnvs.
  assert (Hbits : ∀ i, 0 <= i < RELAY_COUNT →
            Z.testbit (pack_states w) i = is_on (state_at w i)).
  { intros i Hi. rewrite pack_states_testbit by lia.
    destruct (Z.ltb_spec i RELAY_COUNT); [reflexivity | lia]. }
  split; [reflexivity|]. split.
  { exists (pack_states w). split; [reflexivity|].
    split; [apply pack_states_range | exact Hbits]. }
  unfold relay_load_states, nvs_get_u8. rewrite Ho', Hg'.
  cbn [Z.eqb ESP_OK negb nvs emit]. rewrite Hnvs. cbn [Z.eqb ESP_OK negb fst snd].
  split; [reflexivity|]. intros i Hi.
  rewrite unpack_states_state_at by assumption.
  rewrite Hbits by exact Hi. destruct (state_at w i); reflexivity.
Qed.

Lemma C4_save_then_load_restores_states_witness :
  let w := exec_all [(healthy 10, Toggle 1); (healthy 20, Toggle 3)]
             started_world in
  let fresh := boot_world (nvs (snd (relay_save_states (healthy 30) w))) in
  length (relays w) = Z.to_nat RELAY_COUNT ∧
  length (relays fresh) = Z.to_nat RELAY_COUNT ∧
  rc_nvs_open (healthy 30) = ESP_OK ∧
  rc_nvs_set (healthy 30) = ESP_OK ∧
  rc_nvs_commit (healthy 30) = ESP_OK ∧
  rc_nvs_open (healthy 0) = ESP_OK ∧
  rc_nvs_get (healthy 0) = ESP_OK ∧
  nvs fresh = nvs (snd (relay_save_states (healthy 30) w)) ∧
  state_at (snd (relay_load_states (healthy 0) fresh)) 3 = state_at w 3.
Proof.
  intros w fresh.
  assert (H1 : length (relays w) = Z.to_nat RELAY_COUNT)
    by (vm_compute; reflexivity).
  assert (H2 : length (relays fresh) = Z.to_nat RELAY_COUNT)
    by (vm_compute; reflexivity).
  assert (H8 : nvs fresh = nvs (snd (relay_save_states (healthy 30) w)))
    by (vm_compute; reflexivity).
  assert (H9 : 0 <= 3 < RELAY_COUNT) by (vm_compute; split; congruence).
  split; [exact H1|]. split; [exact H2|].
  do 5 (split; [reflexivity|]). split; [exact H8|].
  destruct (C4_save_then_load_restores_states
              (healthy 30) (healthy 0) w fresh H1 H2
              eq_refl eq_refl eq_refl eq_refl eq_refl H8)
    as (_ & _ & _ & Hst).
  exact (Hst 3 H9).
Defined.

(** ** The status LED *)

Lemma count_led_calls_drive (s : relay_state_t) (rs : list relay_info_t) :
  LED_BUILTIN_GPIO ∉ gpio_pin <$> rs →
  count_calls is_led_call (drive_call s <$> rs) = 0%nat.
Proof.
  induction rs as [|r rs IH]; intros Hnot; [reflexivity|].
  cbn [fmap list_fmap] in *. apply not_elem_of_cons in Hnot as [Hne Hnot].
  unfold count_calls in *. cbn [List.filter drive_call is_led_call].
  destruct (Z.eqb_spec (gpio_pin r) LED_BUILTIN_GPIO) as [Heq|_];
    [congruence | apply IH, Hnot].
Qed.

(** Storing a state on one relay pulses the LED once it is set up: the
    two LED calls among the calls made are those of the pulse. *)
Lemma store_and_drive_pulses_led (e : env) (i : Z) (s : relay_state_t)
    (w : world) :
  wf_world w →
  led_initialized w = true →
  0 <= i < RELAY_COUNT →
  ∃ calls,
    new_calls w (store_and_drive e i s w)
    = ([drive_call s (relay_at w i)] ++ led_pulse ++ calls)%list ∧
    count_calls is_led_call (new_calls w (store_and_drive e i s w)) = 2%nat.
Proof.
  intros Hwf Hled Hi.
  destruct (trace_store_and_drive e i s w Hi (wf_relays _ Hwf))
    as (calls & Ht & _ & Hc & _).
  rewrite Hled in Ht. exists calls.
  rewrite (new_calls_app _ _ _ Ht). split; [reflexivity|].
  rewrite !count_calls_app, Hc.
  unfold count_calls at 1. cbn [List.filter is_led_call].
  destruct (Z.eqb_spec (gpio_pin (relay_at w i)) LED_BUILTIN_GPIO) as [Heq|_].
  - exfalso. exact (relay_pin_not_led w i Hwf Hi Heq).
  - reflexivity.
Qed.

Lemma rejected_toggle_makes_no_call (e : env) (i : Z) (w : world) :
  i < RELAY_COUNT →
  elapsed_ms e w i < RELAY_DEBOUNCE_MS →
  new_calls w (snd (relay_toggle e i w)) = [].
Proof.
  intros Hi Hel. rewrite relay_toggle_rejected by assumption.
  apply drop_all.
Qed.

(** The bulk commands never touch the LED. *)
Lemma bulk_set_makes_no_led_call (e : env) (s : relay_state_t) (w : world) :
  wf_world w →
  count_calls is_led_call (new_calls w (snd (relay_all s e w))) = 0%nat.
Proof.
  intros Hwf. rewrite relay_all_eq. cbn [snd].
  destruct (set_all_loop_spec s w (wf_relays _ Hwf))
    as (_ & _ & _ & _ & Ht & _).
  destruct (trace_save_states e (set_all_loop s w))
    as (calls & Htr & _ & Hc & _).
  rewrite Ht, <- app_assoc in Htr. rewrite (new_calls_app _ _ _ Htr).
  rewrite count_calls_app, Hc, count_led_calls_drive; [reflexivity|].
  apply (wf_led_pin _ Hwf).
Qed.

(** C8, where the code departs from it: on the started system, with the
    LED set up, [relay_all_on] turns the four relays from Off to On and
    makes no call on the LED pin, whereas [relay_set_state] and an
    accepted [relay_toggle] on the same world pulse it (LED high, delay,
    LED low) and a rejected toggle does not. *)
Theorem C8_bulk_command_skips_led_pulse :
  let w := started_world in
  let w' := snd (relay_all_on (healthy 10) w) in
  led_initialized w = true ∧
  state <$> relays w = [RELAY_OFF; RELAY_OFF; RELAY_OFF; RELAY_OFF] ∧
  state <$> relays w' = [RELAY_ON; RELAY_ON; RELAY_ON; RELAY_ON] ∧
  new_calls w w'
  = [EvGpioSetLevel 16 0; EvGpioSetLevel 17 0; EvGpioSetLevel 18 0;
     EvGpioSetLevel 19 0; EvNvsOpen NVS_READWRITE; EvNvsSetU8 15;
     EvNvsCommit; EvNvsClose] ∧
  count_calls is_led_call (new_calls w w') = 0%nat ∧
  new_calls w (snd (relay_set_state (healthy 10) 0 RELAY_ON w))
  = ([EvGpioSetLevel 16 0] ++ led_pulse
       ++ [EvNvsOpen NVS_READWRITE; EvNvsSetU8 1; EvNvsCommit; EvNvsClose])%list ∧
  new_calls w (snd (relay_toggle (healthy 10) 0 w))
  = ([EvGpioSetLevel 16 0] ++ led_pulse
       ++ [EvNvsOpen NVS_READWRITE; EvNvsSetU8 1; EvNvsCommit; EvNvsClose])%list ∧
  new_calls w (snd (relay_toggle (healthy 2) 0 w)) = [].
Proof. vm_compute. repeat split. Qed.

(** ** The relay index of a request *)


(** Whatever the request, the parser selects a relay of the table, the
    target [All] (-2) or no target (-1). *)
Lemma extract_relay_id_range (uri : string) :
  extract_relay_id uri = -2 ∨ extract_relay_id uri = -1 ∨
  0 <= extract_relay_id uri < RELAY_COUNT.
Proof.
  unfold extract_relay_id. destruct (Libc.strstr uri "/relay/") as [p|];
    [|right; left; reflexivity].
  destruct (Libc.strncmp_eq _ "all" 3); [left; reflexivity|].
  destruct (Z.ltb_spec (Libc.atoi (Libc.advance 7 p)) 0) as [Hneg|Hpos];
    [right; left; reflexivity|].
  destruct (Z.geb_spec (Libc.atoi (Libc.advance 7 p)) RELAY_COUNT) as [Hge|Hlt];
    [right; left; reflexivity|].
  right; right. cbn [orb]. lia.
Qed.

(** The parser on its own, on texts that no registered route carries:
    [atoi] reads a segment without a leading digit as 0, so on
    [/relay/abc/toggle] the parser answers 0, and the toggle handler,
    were it handed that text, would switch relay 0; a segment that starts
    with a digit is read up to its first non-digit.  Out-of-range decimal
    segments give -1 and [all] gives -2. *)
Lemma extract_relay_id_examples :
  extract_relay_id "/relay/abc/toggle" = 0 ∧
  extract_relay_id "/relay//toggle" = 0 ∧
  extract_relay_id "/relay/1x/on" = 1 ∧
  handler_toggle (healthy 10) "/relay/abc/toggle" started_world
  = (send_json_response (JSON_RELAY_STATUS 0 "Light 1" 1),
     snd (relay_toggle (healthy 10) 0 started_world)) ∧
  state_at (snd (handler_toggle (healthy 10) "/relay/abc/toggle"
                   started_world)) 0 = RELAY_ON ∧
  extract_relay_id "/relay/4/on" = -1 ∧
  extract_relay_id "/relay/-1/on" = -1 ∧
  extract_relay_id "/relay/99999999999/off" = -1 ∧
  extract_relay_id "/relay/all/on" = -2.
Proof. vm_compute. repeat split. Qed.

(** * Further properties of the service *)

(** ** Start-up outcomes *)

Lemma configure_pins_result (e : env) (ids : list Z) (w : world) :
  (fst (configure_pins e ids w) = ESP_OK ↔
   Forall (fun i => rc_gpio_config e (gpio_pin (relay_at w i)) = ESP_OK) ids) ∧
  (fst (configure_pins e ids w) ≠ ESP_OK →
   ∃ done i rest,
     ids = (done ++ i :: rest)%list ∧
     Forall (fun j => rc_gpio_config e (gpio_pin (relay_at w j)) = ESP_OK) done ∧
     fst (configure_pins e ids w) = rc_gpio_config e (gpio_pin (relay_at w i))) ∧
  count_calls is_nvs_call (trace (snd (configure_pins e ids w)))
    = count_calls is_nvs_call (trace w).
Proof.
  revert w. induction ids as [|i ids IH]; intros w.
  - cbn [configure_pins fst snd]. split; [split; [constructor | reflexivity]|].
    split; [intros H; exfalso; apply H; reflexivity | reflexivity].
  - cbn [configure_pins gpio_config].
    destruct (Z.eqb_spec (rc_gpio_config e (gpio_pin (relay_at w i))) ESP_OK)
      as [Hok|Hbad]; cbn [negb fst snd].
    + match goal with |- context [configure_pins e ids ?w1] =>
        destruct (IH w1) as (Hiff & Hfail & Hcnt);
        assert (Hat : ∀ j, relay_at w1 j = relay_at w j) by reflexivity;
        assert (Htr : count_calls is_nvs_call (trace w1)
                      = count_calls is_nvs_call (trace w))
      end.
      { cbn [trace emit gpio_set_level]. rewrite !count_calls_app.
        cbn. lia. }
      split; [|split].
      * rewrite Hiff. split.
        -- intros Hall. constructor; [exact Hok|].
           eapply Forall_impl; [exact Hall|]. intros j Hj. exact Hj.
        -- intros Hall. inversion Hall; subst. assumption.
      * intros Hne. destruct (Hfail Hne) as (done & k & rest & -> & Hd & Hk).
        exists (i :: done), k, rest. split; [reflexivity|].
        split; [constructor; assumption | exact Hk].
      * rewrite Hcnt. exact Htr.
    + split; [|split].
      * split; [intros Heq; contradiction|].
        intros Hall. inversion Hall; subst. contradiction.
      * intros _. exists [], i, ids. repeat split. constructor.
      * cbn [trace emit gpio_set_level]. rewrite !count_calls_app. cbn. lia.
Qed.

Lemma init_led_no_nvs_call (e : env) (w : world) :
  count_calls is_nvs_call (trace (init_led e w))
  = count_calls is_nvs_call (trace w).
Proof.
  unfold init_led. destruct (led_initialized w); [reflexivity|].
  cbn [trace set_led_initialized gpio_set_level emit gpio_config snd].
  rewrite !count_calls_app. cbn. lia.
Qed.

Lemma all_relay_indices (P : Z → Prop) :
  Forall P (seqZ 0 RELAY_COUNT) ↔ ∀ i, 0 <= i < RELAY_COUNT → P i.
Proof.
  rewrite Forall_forall. split.
  - intros H i Hi. apply H. apply elem_of_seqZ. lia.
  - intros H i Hi%elem_of_seqZ. apply H. lia.
Qed.

(** X1: start-up succeeds exactly when [gpio_config] succeeds on the pin
    of every relay; a failure of the LED's [gpio_config] or of any NVS
    call does not make it fail. *)
Theorem X1_init_succeeds_iff_relay_pins_configure (e : env) (w : world) :
  fst (relay_service_init e w) = ESP_OK ↔
  ∀ i, 0 <= i < RELAY_COUNT →
       rc_gpio_config e (gpio_pin (relay_at w i)) = ESP_OK.
Proof.
  unfold relay_service_init.
  destruct (configure_pins_result e (seqZ 0 RELAY_COUNT) (init_led e w))
    as (Hiff & _ & _).
  destruct (init_led_frame e w) as (Hr & _ & _).
  assert (Hat : ∀ i, relay_at (init_led e w) i = relay_at w i).
  { intros i. unfold relay_at. rewrite Hr. reflexivity. }
  rewrite <- all_relay_indices.
  destruct (configure_pins e (seqZ 0 RELAY_COUNT) (init_led e w))
    as [ret w1]. cbn [fst] in Hiff.
  destruct (Z.eqb_spec ret ESP_OK) as [Hok|Hbad]; cbn [negb fst].
  - split; [intros _|reflexivity].
    eapply Forall_impl; [apply Hiff, Hok|]. intros i Hi. rewrite <- Hat. exact Hi.
  - split; [intros Heq; contradiction|]. intros Hall. exfalso. apply Hbad, Hiff.
    eapply Forall_impl; [exact Hall|]. intros i Hi. rewrite Hat. exact Hi.
Qed.

(** X2: when start-up fails it returns the code of the first relay pin
    whose [gpio_config] failed (all pins before it configured), and it
    stops there: the relay table, the ledger and the stored snapshot are
    untouched and no NVS call has been made. *)
Theorem X2_failed_init_stops_at_first_bad_pin (e : env) (w : world) :
  fst (relay_service_init e w) ≠ ESP_OK →
  let w' := snd (relay_service_init e w) in
  (∃ i, 0 <= i < RELAY_COUNT ∧
        fst (relay_service_init e w)
          = rc_gpio_config e (gpio_pin (relay_at w i)) ∧
        ∀ j, 0 <= j < i →
             rc_gpio_config e (gpio_pin (relay_at w j)) = ESP_OK) ∧
  relays w' = relays w ∧
  last_toggle_time w' = last_toggle_time w ∧
  nvs w' = nvs w ∧
  count_calls is_nvs_call (new_calls w w') = 0%nat.
Proof.
  unfold relay_service_init.
  destruct (configure_pins_result e (seqZ 0 RELAY_COUNT) (init_led e w))
    as (_ & Hfail & Hcnt).
  destruct (configure_pins_frame e (seqZ 0 RELAY_COUNT) (init_led e w))
    as (Hr2 & Hl2 & Hn2).
  destruct (init_led_frame e w) as (Hr & Hl & Hn).
  assert (Hat : ∀ i, relay_at (init_led e w) i = relay_at w i).
  { intros i. unfold relay_at. rewrite Hr. reflexivity. }
  assert (Hpre : ∃ calls, trace (snd (configure_pins e (seqZ 0 RELAY_COUNT)
                                        (init_led e w)))
                          = (trace w ++ calls)%list).
  { assert (Hgen : ∀ ids w1, ∃ calls,
              trace (snd (configure_pins e ids w1)) = (trace w1 ++ calls)%list).
    { induction ids as [|i ids IH]; intros w1.
      - exists []. cbn. rewrite app_nil_r. reflexivity.
      - cbn [configure_pins gpio_config].
        destruct (negb (rc_gpio_config e (gpio_pin (relay_at w1 i)) =? ESP_OK)).
        + eexists. cbn [snd trace emit gpio_set_level].
          rewrite <- app_assoc. reflexivity.
        + match goal with |- context [configure_pins e ids ?w2] =>
            destruct (IH w2) as [calls Hc]; rewrite Hc end.
          eexists. cbn [trace emit gpio_set_level].
          rewrite <- !app_assoc. reflexivity. }
    destruct (Hgen (seqZ 0 RELAY_COUNT) (init_led e w)) as [calls Hc].
    rewrite Hc. unfold init_led. destruct (led_initialized w).
    - exists calls. reflexivity.
    - eexists. cbn [trace set_led_initialized gpio_set_level emit gpio_config snd].
      rewrite <- !app_assoc. reflexivity. }
  rewrite init_led_no_nvs_call in Hcnt.
  destruct (configure_pins e (seqZ 0 RELAY_COUNT) (init_led e w))
    as [ret w1]. cbn [fst snd] in *.
  destruct (Z.eqb_spec ret ESP_OK) as [Hok|Hbad]; cbn [negb fst snd].
  { intros H. exfalso. apply H. reflexivity. }
  intros _. split.
  - destruct (Hfail Hbad) as (done & i & rest & Hids & Hdone & Hret).
    assert (Hi : seqZ 0 RELAY_COUNT !! length done = Some i).
    { rewrite Hids. rewrite lookup_app_r, Nat.sub_diag by lia. reflexivity. }
    apply lookup_seqZ in Hi as [-> Hlt]. exists (0 + Z.of_nat (length done)).
    split; [lia|]. split; [rewrite <- Hat; exact Hret|].
    intros j Hj. rewrite <- Hat.
    assert (Hjd : done !! Z.to_nat j = Some j).
    { assert (Hs : seqZ 0 RELAY_COUNT !! Z.to_nat j = Some j).
      { apply lookup_seqZ. lia. }
      rewrite Hids, lookup_app_l in Hs by lia. exact Hs. }
    rewrite Forall_forall in Hdone. apply Hdone.
    apply list_elem_of_lookup. eauto.
  - split; [congruence|]. split; [congruence|]. split; [congruence|].
    destruct Hpre as [calls Hc]. rewrite (new_calls_app _ _ _ Hc).
    rewrite Hc, count_calls_app in Hcnt. lia.
Qed.

Lemma X2_failed_init_stops_at_first_bad_pin_witness :
  fst (relay_service_init (gpio_fault 18 259) (boot_world (Some 5))) ≠ ESP_OK ∧
  nvs (snd (relay_service_init (gpio_fault 18 259) (boot_world (Some 5))))
  = Some 5.
Proof.
  assert (H1 : fst (relay_service_init (gpio_fault 18 259) (boot_world (Some 5)))
               ≠ ESP_OK) by (vm_compute; congruence).
  split; [exact H1|].
  destruct (X2_failed_init_stops_at_first_bad_pin
              (gpio_fault 18 259) (boot_world (Some 5)) H1)
    as (_ & _ & _ & Hn & _).
  exact Hn.
Defined.

(** ** Loading *)

Lemma relay_load_states_ok (e : env) (w : world) (v : Z) :
  rc_nvs_open e = ESP_OK →
  rc_nvs_get e = ESP_OK →
  nvs w = Some v →
  relay_load_states e w
  = (ESP_OK,
     unpack_states v (emit [EvNvsOpen NVS_READONLY; EvNvsGetU8; EvNvsClose] w)).
Proof.
  intros Ho Hg Hv. unfold relay_load_states, nvs_get_u8.
  rewrite Ho, Hg. cbn [Z.eqb ESP_OK negb nvs emit]. rewrite Hv.
  cbn [Z.eqb ESP_OK negb]. unfold emit. cbn. rewrite <- !app_assoc.
  reflexivity.
Qed.

Lemma relay_load_states_failed (e : env) (w : world) :
  rc_nvs_open e ≠ ESP_OK ∨ rc_nvs_get e ≠ ESP_OK ∨ nvs w = None →
  let w' := snd (relay_load_states e w) in
  fst (relay_load_states e w) ≠ ESP_OK ∧
  fst (relay_load_states e w)
    = (if negb (rc_nvs_open e =? ESP_OK) then rc_nvs_open e
       else if negb (rc_nvs_get e =? ESP_OK) then rc_nvs_get e
       else ESP_ERR_NVS_NOT_FOUND) ∧
  relays w' = relays w ∧
  last_toggle_time w' = last_toggle_time w ∧
  gpio w' = gpio w ∧
  nvs w' = nvs w.
Proof.
  intros Hfail. unfold relay_load_states, nvs_get_u8.
  destruct (Z.eqb_spec (rc_nvs_open e) ESP_OK) as [Ho|Ho]; cbn [negb fst snd].
  - destruct (Z.eqb_spec (rc_nvs_get e) ESP_OK) as [Hg|Hg]; cbn [negb fst snd].
    + destruct Hfail as [H|[H|H]]; [contradiction | contradiction |].
      cbn [nvs emit].
      rewrite H. cbn [Z.eqb ESP_OK ESP_ERR_NVS_NOT_FOUND negb fst snd].
      repeat split; try reflexivity; [discriminate | exact H].
    + destruct (Z.eqb_spec (rc_nvs_get e) ESP_OK) as [Hg'|_]; [contradiction|].
      cbn [negb fst snd]. repeat split; try reflexivity. exact Hg.
  - repeat split; try reflexivity. exact Ho.
Qed.

(** X5: a load that cannot read a snapshot (the store does not open,
    the read fails, or the key was never written) returns the error of
    the step that failed and leaves the relay table, the ledger, the pins
    and the store as they were. *)
Theorem X5_failed_load_keeps_table (e : env) (w : world) :
  rc_nvs_open e ≠ ESP_OK ∨ rc_nvs_get e ≠ ESP_OK ∨ nvs w = None →
  let w' := snd (relay_load_states e w) in
  fst (relay_load_states e w) ≠ ESP_OK ∧
  fst (relay_load_states e w)
    = (if negb (rc_nvs_open e =? ESP_OK) then rc_nvs_open e
       else if negb (rc_nvs_get e =? ESP_OK) then rc_nvs_get e
       else ESP_ERR_NVS_NOT_FOUND) ∧
  relays w' = relays w ∧
  last_toggle_time w' = last_toggle_time w ∧
  gpio w' = gpio w ∧
  nvs w' = nvs w.
Proof.
  intros Hfail. unfold relay_load_states, nvs_get_u8.
  destruct (Z.eqb_spec (rc_nvs_open e) ESP_OK) as [Ho|Ho]; cbn [negb fst snd].
  - destruct (Z.eqb_spec (rc_nvs_get e) ESP_OK) as [Hg|Hg]; cbn [negb fst snd].
    + destruct Hfail as [H|[H|H]]; [contradiction | contradiction |].
      cbn [nvs emit].
      rewrite H. cbn [Z.eqb ESP_OK ESP_ERR_NVS_NOT_FOUND negb fst snd].
      repeat split; try reflexivity; [discriminate | exact H].
    + destruct (Z.eqb_spec (rc_nvs_get e) ESP_OK) as [Hg'|_]; [contradiction|].
      cbn [negb fst snd]. repeat split; try reflexivity. exact Hg.
  - repeat split; try reflexivity. exact Ho.
Qed.

Lemma X5_failed_load_keeps_table_witness :
  (rc_nvs_open (healthy 0) ≠ ESP_OK ∨ rc_nvs_get (healthy 0) ≠ ESP_OK ∨
   nvs started_world = None) ∧
  fst (relay_load_states (healthy 0) started_world) = ESP_ERR_NVS_NOT_FOUND.
Proof.
  assert (H1 : rc_nvs_open (healthy 0) ≠ ESP_OK ∨
               rc_nvs_get (healthy 0) ≠ ESP_OK ∨ nvs started_world = None)
    by (right; right; reflexivity).
  split; [exact H1|].
  destruct (X5_failed_load_keeps_table (healthy 0) started_world H1)
    as (_ & Hcode & _).
  exact Hcode.
Defined.

Lemma load_states_state_at (e : env) (w : world) (i : Z) :
  length (relays w) = Z.to_nat RELAY_COUNT →
  0 <= i < RELAY_COUNT →
  state_at (snd (relay_load_states e w)) i
  = if (rc_nvs_open e =? ESP_OK) && (rc_nvs_get e =? ESP_OK)
    then match nvs w with
         | Some v => state_of_bit v i
         | None => state_at w i
         end
    else state_at w i.
Proof.
  intros Hlen Hi.
  destruct (Z.eqb_spec (rc_nvs_open e) ESP_OK) as [Ho|Ho]; cbn [andb].
  - destruct (Z.eqb_spec (rc_nvs_get e) ESP_OK) as [Hg|Hg].
    + destruct (nvs w) as [v|] eqn:Hv.
      * rewrite (relay_load_states_ok e w v) by assumption. cbn [snd].
        rewrite unpack_states_state_at by assumption. reflexivity.
      * destruct (relay_load_states_failed e w) as (_ & _ & Hr & _);
          [auto|]. unfold state_at, relay_at. rewrite Hr. reflexivity.
    + destruct (relay_load_states_failed e w) as (_ & _ & Hr & _);
        [auto|]. unfold state_at, relay_at. rewrite Hr. reflexivity.
  - destruct (relay_load_states_failed e w) as (_ & _ & Hr & _);
      [auto|]. unfold state_at, relay_at. rewrite Hr. reflexivity.
Qed.

(** ** The states a start-up leaves *)

Lemma relay_service_init_unfold (e : env) (w w0 : world) :
  relay_service_init e w = (ESP_OK, w0) →
  ∃ w2, relays w2 = relays w ∧ last_toggle_time w2 = last_toggle_time w ∧
        nvs w2 = nvs w ∧
        w0 = for_loop RELAY_COUNT apply_gpio_state (snd (relay_load_states e w2)).
Proof.
  unfold relay_service_init.
  destruct (init_led_frame e w) as (Hr1 & Hl1 & Hn1).
  destruct (configure_pins_frame e (seqZ 0 RELAY_COUNT) (init_led e w))
    as (Hr2 & Hl2 & Hn2).
  destruct (configure_pins e (seqZ 0 RELAY_COUNT) (init_led e w)) as [ret w2].
  cbn [snd] in *.
  destruct (Z.eqb_spec ret ESP_OK) as [Hok|Hbad]; cbn [negb].
  - intros Heq. injection Heq as <-. exists w2.
    repeat split; congruence.
  - intros Heq. injection Heq as Hret _. contradiction.
Qed.

Lemma initial_state_default (stored : option Z) (i : Z) :
  0 <= i < RELAY_COUNT →
  state_at (boot_world stored) i = RELAY_DEFAULT_STATE.
Proof.
  intros Hi.
  assert (Hcases : i = 0 ∨ i = 1 ∨ i = 2 ∨ i = 3)
    by (unfold RELAY_COUNT in Hi; lia).
  destruct Hcases as [-> | [-> | [-> | ->]]]; reflexivity.
Qed.

Lemma relay_service_init_state_at (e : env) (stored : option Z)
    (w0 : world) (i : Z) :
  relay_service_init e (boot_world stored) = (ESP_OK, w0) →
  0 <= i < RELAY_COUNT →
  state_at w0 i = boot_state e stored i ∧ nvs w0 = stored.
Proof.
  intros Hinit Hi.
  destruct (relay_service_init_unfold e _ w0 Hinit) as (w2 & Hr & Hl & Hn & ->).
  assert (Hwf2 : wf_world w2).
  { apply (wf_transfer (boot_world stored));
      [apply wf_boot_world | congruence | congruence]. }
  destruct (relay_load_states_frame e w2) as (Hp3 & Hl3 & Hn3).
  assert (Hwf3 : wf_world (snd (relay_load_states e w2))).
  { apply (wf_transfer w2); assumption. }
  destruct (apply_all_gpio_states _ (wf_relays _ Hwf3) (wf_pins _ Hwf3))
    as (Hr4 & _ & Hn4 & _).
  split; [|rewrite Hn4, Hn3, Hn; reflexivity].
  unfold state_at at 1. unfold relay_at. rewrite Hr4.
  fold (relay_at (snd (relay_load_states e w2)) i).
  fold (state_at (snd (relay_load_states e w2)) i).
  rewrite load_states_state_at by (apply (wf_relays _ Hwf2) || exact Hi).
  assert (Hdef : state_at w2 i = RELAY_DEFAULT_STATE).
  { unfold state_at, relay_at. rewrite Hr. apply (initial_state_default stored i Hi). }
  unfold boot_state. rewrite Hn, Hdef. cbn [boot_world nvs].
  destruct ((rc_nvs_open e =? ESP_OK) && (rc_nvs_get e =? ESP_OK));
    [destruct stored|]; reflexivity.
Qed.

(** X3: after a successful start-up each relay is in the state its bit
    of the stored snapshot says when the store could be read, and in
    [RELAY_DEFAULT_STATE] (Off) otherwise; its pin carries the level of
    that state, so a relay without a readable snapshot starts with its
    pin at level 1 (released). *)
Theorem X3_boot_states_follow_snapshot (e : env) (stored : option Z)
    (w0 : world) (i : Z) :
  relay_service_init e (boot_world stored) = (ESP_OK, w0) →
  0 <= i < RELAY_COUNT →
  state_at w0 i = boot_state e stored i ∧
  gpio w0 !! gpio_pin (relay_at w0 i)
    = Some (gpio_level_of (boot_state e stored i)) ∧
  (rc_nvs_open e ≠ ESP_OK ∨ rc_nvs_get e ≠ ESP_OK ∨ stored = None →
   state_at w0 i = RELAY_OFF ∧ gpio w0 !! gpio_pin (relay_at w0 i) = Some 1).
Proof.
  intros Hinit Hi.
  destruct (relay_service_init_state_at e stored w0 i Hinit Hi) as [Hst _].
  destruct (relay_service_init_ok e _ w0 (wf_boot_world stored) Hinit)
    as (Hwf0 & _ & Hg0 & _).
  assert (Hg : gpio w0 !! gpio_pin (relay_at w0 i)
               = Some (gpio_level_of (boot_state e stored i))).
  { rewrite <- Hst.
    destruct (valid_index w0 i (wf_relays _ Hwf0) Hi) as [r Hr].
    unfold state_at, relay_at. rewrite Hr. apply (Hg0 (Z.to_nat i)), Hr. }
  split; [exact Hst|]. split; [exact Hg|].
  intros Hfail.
  assert (Hb : boot_state e stored i = RELAY_OFF).
  { unfold boot_state.
    destruct (Z.eqb_spec (rc_nvs_open e) ESP_OK) as [Ho|Ho]; [|reflexivity].
    destruct (Z.eqb_spec (rc_nvs_get e) ESP_OK) as [Hgt|Hgt]; [|reflexivity].
    destruct Hfail as [H|[H|H]]; [contradiction | contradiction |].
    rewrite H. reflexivity. }
  rewrite Hst, Hg, Hb. split; reflexivity.
Qed.

Lemma X3_boot_states_follow_snapshot_witness :
  relay_service_init (healthy 0) (boot_world (Some 10))
    = (ESP_OK, snd (relay_service_init (healthy 0) (boot_world (Some 10)))) ∧
  0 <= 1 < RELAY_COUNT ∧
  state_at (snd (relay_service_init (healthy 0) (boot_world (Some 10)))) 1
  = RELAY_ON.
Proof.
  assert (H1 : relay_service_init (healthy 0) (boot_world (Some 10))
               = (ESP_OK,
                  snd (relay_service_init (healthy 0) (boot_world (Some 10)))))
    by reflexivity.
  assert (H2 : 0 <= 1 < RELAY_COUNT) by (vm_compute; split; congruence).
  split; [exact H1|]. split; [exact H2|].
  exact (proj1 (X3_boot_states_follow_snapshot
                  (healthy 0) (Some 10) _ 1 H1 H2)).
Defined.

(** ** Saving *)

Lemma relay_save_states_failed (e : env) (w : world) :
  rc_nvs_open e ≠ ESP_OK ∨ rc_nvs_set e ≠ ESP_OK ∨ rc_nvs_commit e ≠ ESP_OK →
  fst (relay_save_states e w) ≠ ESP_OK ∧
  nvs (snd (relay_save_states e w)) = nvs w.
Proof.
  intros Hfail. unfold relay_save_states.
  destruct (Z.eqb_spec (rc_nvs_open e) ESP_OK) as [Ho|Ho]; cbn [negb fst snd];
    [|split; [exact Ho | reflexivity]].
  destruct (Z.eqb_spec (rc_nvs_set e) ESP_OK) as [Hs|Hs]; cbn [negb fst snd];
    [|split; [exact Hs | reflexivity]].
  destruct (Z.eqb_spec (rc_nvs_commit e) ESP_OK) as [Hc|Hc]; cbn [negb fst snd];
    [|split; [exact Hc | reflexivity]].
  destruct Hfail as [H|[H|H]]; contradiction.
Qed.

Lemma save_makes_snapshot_current (e : env) (w : world) :
  rc_nvs_open e = ESP_OK →
  rc_nvs_set e = ESP_OK →
  rc_nvs_commit e = ESP_OK →
  snapshot_current (snd (relay_save_states e w)).
Proof.
  intros Ho Hs Hc i Hi. rewrite state_at_save_states.
  rewrite nvs_save_states by assumption. cbn [snd nvs emit set_nvs].
  unfold state_of_bit. rewrite pack_states_testbit by lia.
  destruct (Z.ltb_spec i RELAY_COUNT); [|lia].
  destruct (state_at w i); reflexivity.
Qed.

Lemma store_and_drive_saves (e : env) (i : Z) (s : relay_state_t) (w : world) :
  store_and_drive e i s w
  = snd (relay_save_states e
           (blink_led (apply_gpio_state i (write_state i s w)))).
Proof. reflexivity. Qed.

(** X7: a storage failure is swallowed.  When the save cannot be made
    (the store does not open, or the write or the commit fails),
    [relay_set_state] on a valid relay still returns [ESP_OK] with the
    relay in the asked state, an accepted [relay_toggle] still returns
    the flipped state, the stored snapshot is the one from before, and
    [relay_save_states] itself reports the failure. *)
Theorem X7_storage_failure_does_not_fail_the_command
    (e : env) (w : world) (i : Z) (s : relay_state_t) :
  length (relays w) = Z.to_nat RELAY_COUNT →
  0 <= i < RELAY_COUNT →
  rc_nvs_open e ≠ ESP_OK ∨ rc_nvs_set e ≠ ESP_OK ∨ rc_nvs_commit e ≠ ESP_OK →
  fst (relay_save_states e w) ≠ ESP_OK ∧
  fst (relay_set_state e i s w) = ESP_OK ∧
  state_at (snd (relay_set_state e i s w)) i = s ∧
  nvs (snd (relay_set_state e i s w)) = nvs w ∧
  (RELAY_DEBOUNCE_MS <= elapsed_ms e w i →
   fst (relay_toggle e i w) = state_value (flip (state_at w i)) ∧
   state_at (snd (relay_toggle e i w)) i = flip (state_at w i) ∧
   nvs (snd (relay_toggle e i w)) = nvs w).
Proof.
  intros Hlen Hi Hfail.
  split; [apply relay_save_states_failed, Hfail|].
  rewrite relay_set_state_valid by lia. cbn [fst snd].
  split; [reflexivity|].
  split; [apply state_at_store_and_drive; assumption|].
  assert (Hnvs : ∀ s0 w1, nvs (store_and_drive e i s0 w1) = nvs w1).
  { intros s0 w1. rewrite store_and_drive_saves.
    destruct (relay_save_states_failed e
                (blink_led (apply_gpio_state i (write_state i s0 w1))) Hfail)
      as [_ ->].
    rewrite nvs_blink_led, apply_gpio_state_eq by lia. reflexivity. }
  split; [apply Hnvs|].
  intros Hel. rewrite relay_toggle_accepted by (lia || assumption).
  cbn [fst snd].
  rewrite state_at_store_and_drive by assumption.
  repeat split. rewrite Hnvs. reflexivity.
Qed.

Lemma X7_storage_failure_does_not_fail_the_command_witness :
  length (relays started_world) = Z.to_nat RELAY_COUNT ∧
  0 <= 2 < RELAY_COUNT ∧
  (rc_nvs_open (commit_fault 10 4357) ≠ ESP_OK ∨
   rc_nvs_set (commit_fault 10 4357) ≠ ESP_OK ∨
   rc_nvs_commit (commit_fault 10 4357) ≠ ESP_OK) ∧
  fst (relay_set_state (commit_fault 10 4357) 2 RELAY_ON started_world)
  = ESP_OK.
Proof.
  assert (H1 : length (relays started_world) = Z.to_nat RELAY_COUNT)
    by reflexivity.
  assert (H2 : 0 <= 2 < RELAY_COUNT) by (vm_compute; split; congruence).
  assert (H3 : rc_nvs_open (commit_fault 10 4357) ≠ ESP_OK ∨
               rc_nvs_set (commit_fault 10 4357) ≠ ESP_OK ∨
               rc_nvs_commit (commit_fault 10 4357) ≠ ESP_OK)
    by (right; right; vm_compute; congruence).
  split; [exact H1|]. split; [exact H2|]. split; [exact H3|].
  destruct (X7_storage_failure_does_not_fail_the_command
              (commit_fault 10 4357) started_world 2 RELAY_ON H1 H2 H3)
    as (_ & Hok & _).
  exact Hok.
Defined.

(** ** Persistence across a reboot *)

Lemma relay_toggle_world_cases (e : env) (i : Z) (w : world) :
  snd (relay_toggle e i w) = w ∨
  ∃ w1, snd (relay_toggle e i w) = snd (relay_save_states e w1).
Proof.
  unfold relay_toggle, debounce_check.
  destruct (i >=? RELAY_COUNT); [left; reflexivity|].
  destruct (uint32 (now_ms e - last_toggle_at w i) <? RELAY_DEBOUNCE_MS);
    [left; reflexivity|].
  right. eexists. reflexivity.
Qed.

Lemma relay_set_state_world_cases (e : env) (i : Z) (s : relay_state_t)
    (w : world) :
  snd (relay_set_state e i s w) = w ∨
  ∃ w1, snd (relay_set_state e i s w) = snd (relay_save_states e w1).
Proof.
  unfold relay_set_state.
  destruct (i >=? RELAY_COUNT); [left; reflexivity|].
  right. eexists. reflexivity.
Qed.

Lemma exec_keeps_snapshot_current (e : env) (c : command) (w : world) :
  nvs_ok e →
  snapshot_current w →
  snapshot_current (exec e c w).
Proof.
  intros (Ho & _ & Hs & Hc) Hcur.
  destruct c as [i | i s | i | s |]; cbn [exec].
  - destruct (relay_toggle_world_cases e (uint8 i) w) as [-> | [w1 ->]];
      [exact Hcur | apply save_makes_snapshot_current; assumption].
  - destruct (relay_set_state_world_cases e (uint8 i) s w) as [-> | [w1 ->]];
      [exact Hcur | apply save_makes_snapshot_current; assumption].
  - exact Hcur.
  - rewrite relay_all_eq. cbn [snd].
    apply save_makes_snapshot_current; assumption.
  - apply save_makes_snapshot_current; assumption.
Qed.

Lemma exec_all_keeps_snapshot_current (cs : list (env * command)) (w : world) :
  Forall (fun ec => nvs_ok (fst ec)) cs →
  snapshot_current w →
  snapshot_current (exec_all cs w).
Proof.
  revert w. induction cs as [|[e c] cs IH]; intros w Hall Hcur; [exact Hcur|].
  inversion Hall as [|? ? He Hrest]; subst. cbn [exec_all].
  apply IH; [exact Hrest|]. apply exec_keeps_snapshot_current; assumption.
Qed.

Lemma boot_state_readable (e : env) (stored : option Z) (i : Z) :
  nvs_ok e →
  boot_state e stored i = match stored with
                          | Some v => state_of_bit v i
                          | None => RELAY_DEFAULT_STATE
                          end.
Proof.
  intros (Ho & Hg & _). unfold boot_state. rewrite Ho, Hg. reflexivity.
Qed.

(** X4: relay states survive a reboot.  On a platform whose NVS calls
    succeed, after a start-up and any sequence of commands (toggles
    accepted or debounced, single and bulk sets, reads, valid or invalid
    targets), resetting the controller and starting it again puts every
    relay back in the state it had before the reset. *)
Theorem X4_states_survive_reboot
    (e0 e1 : env) (stored : option Z) (w0 w1 : world)
    (cs : list (env * command)) (i : Z) :
  relay_service_init e0 (boot_world stored) = (ESP_OK, w0) →
  nvs_ok e0 →
  Forall (fun ec => nvs_ok (fst ec)) cs →
  nvs_ok e1 →
  reboot e1 (exec_all cs w0) = (ESP_OK, w1) →
  0 <= i < RELAY_COUNT →
  state_at w1 i = state_at (exec_all cs w0) i.
Proof.
  intros Hinit Hok0 Hall Hok1 Hre Hi.
  assert (Hcur0 : snapshot_current w0).
  { intros j Hj.
    destruct (relay_service_init_state_at e0 stored w0 j Hinit Hj) as [Hst Hn].
    rewrite Hst, Hn. apply boot_state_readable, Hok0. }
  pose proof (exec_all_keeps_snapshot_current cs w0 Hall Hcur0) as Hcur.
  destruct (relay_service_init_state_at e1 _ w1 i Hre Hi) as [Hst _].
  rewrite Hst, (boot_state_readable e1 _ i Hok1). symmetry. apply Hcur, Hi.
Qed.

Lemma X4_states_survive_reboot_witness :
  let cs := [(healthy 10, Toggle 1); (healthy 11, Toggle 1);
             (healthy 30, SetState 3 RELAY_ON); (healthy 40, GetState 9)] in
  let w := exec_all cs started_world in
  relay_service_init (healthy 0) (boot_world None) = (ESP_OK, started_world) ∧
  nvs_ok (healthy 0) ∧
  Forall (fun ec => nvs_ok (fst ec)) cs ∧
  reboot (healthy 0) w = (ESP_OK, snd (reboot (healthy 0) w)) ∧
  0 <= 3 < RELAY_COUNT ∧
  state_at (snd (reboot (healthy 0) w)) 3 = state_at w 3.
Proof.
  intros cs w.
  assert (H1 : relay_service_init (healthy 0) (boot_world None)
               = (ESP_OK, started_world)) by reflexivity.
  assert (H2 : nvs_ok (healthy 0)) by (repeat split).
  assert (H3 : Forall (fun ec => nvs_ok (fst ec)) cs)
    by (repeat constructor).
  assert (H4 : reboot (healthy 0) w = (ESP_OK, snd (reboot (healthy 0) w)))
    by (vm_compute; reflexivity).
  assert (H5 : 0 <= 3 < RELAY_COUNT) by (vm_compute; split; congruence).
  split; [exact H1|]. split; [exact H2|]. split; [exact H3|].
  split; [exact H4|]. split; [exact H5|].
  exact (X4_states_survive_reboot (healthy 0) (healthy 0) None started_world
           _ cs 3 H1 H2 H3 H2 H4 H5).
Defined.

(** ** Loading and saving again *)

Lemma pack_unpack_states (v : Z) (w : world) :
  length (relays w) = Z.to_nat RELAY_COUNT →
  pack_states (unpack_states v w) = v mod 2 ^ RELAY_COUNT.
Proof.
  intros Hlen. apply Z.bits_inj'. intros j Hj.
  rewrite pack_states_testbit by exact Hj.
  destruct (Z.ltb_spec j RELAY_COUNT) as [Hlt|Hge]; cbn [andb].
  - rewrite Z.mod_pow2_bits_low by lia.
    rewrite unpack_states_state_at by (assumption || lia).
    destruct (Z.testbit v j); reflexivity.
  - rewrite Z.mod_pow2_bits_high; [reflexivity|]. unfold RELAY_COUNT in *. lia.
Qed.

(** X6: loading a stored byte and saving again writes back its low
    [RELAY_COUNT] bits: the bits of the relays are kept, and whatever the
    byte held above them is dropped. *)
Theorem X6_load_then_save_keeps_relay_bits (e e' : env) (w : world) (v : Z) :
  length (relays w) = Z.to_nat RELAY_COUNT →
  rc_nvs_open e = ESP_OK →
  rc_nvs_get e = ESP_OK →
  nvs w = Some v →
  rc_nvs_open e' = ESP_OK →
  rc_nvs_set e' = ESP_OK →
  rc_nvs_commit e' = ESP_OK →
  nvs (snd (relay_save_states e' (snd (relay_load_states e w))))
  = Some (v mod 2 ^ RELAY_COUNT).
Proof.
  intros Hlen Ho Hg Hv Ho' Hs' Hc'.
  rewrite (relay_load_states_ok e w v) by assumption. cbn [snd].
  rewrite nvs_save_states by assumption. cbn [snd nvs emit set_nvs].
  rewrite pack_unpack_states by exact Hlen. reflexivity.
Qed.

Lemma X6_load_then_save_keeps_relay_bits_witness :
  length (relays (boot_world (Some 245))) = Z.to_nat RELAY_COUNT ∧
  rc_nvs_open (healthy 0) = ESP_OK ∧
  rc_nvs_get (healthy 0) = ESP_OK ∧
  nvs (boot_world (Some 245)) = Some 245 ∧
  rc_nvs_set (healthy 0) = ESP_OK ∧
  rc_nvs_commit (healthy 0) = ESP_OK ∧
  nvs (snd (relay_save_states (healthy 0)
              (snd (relay_load_states (healthy 0) (boot_world (Some 245))))))
  = Some 5.
Proof.
  do 6 (split; [reflexivity|]).
  exact (X6_load_then_save_keeps_relay_bits
           (healthy 0) (healthy 0) (boot_world (Some 245)) 245
           eq_refl eq_refl eq_refl eq_refl eq_refl eq_refl eq_refl).
Defined.

(** ** The debounce ledger *)

Lemma ledger_store_and_drive_any (e : env) (i : Z) (s : relay_state_t)
    (w : world) :
  last_toggle_time (store_and_drive e i s w) = last_toggle_time w.
Proof.
  rewrite store_and_drive_saves, ledger_save_states, ledger_blink_led.
  unfold apply_gpio_state. destruct (i >=? RELAY_COUNT); reflexivity.
Qed.

Lemma ledger_set_all_loop (s : relay_state_t) (w : world) :
  last_toggle_time (set_all_loop s w) = last_toggle_time w.
Proof.
  unfold set_all_loop.
  apply (for_loop_ind (fun _ acc => last_toggle_time acc = last_toggle_time w));
    [discriminate | reflexivity |].
  intros i acc _ IH. unfold apply_gpio_state.
  destruct (i >=? RELAY_COUNT); exact IH.
Qed.

Lemma ledger_relay_toggle (e : env) (i : Z) (w : world) :
  last_toggle_time (snd (relay_toggle e i w)) = last_toggle_time w ∨
  last_toggle_time (snd (relay_toggle e i w))
  = <[Z.to_nat i := now_ms e]> (last_toggle_time w).
Proof.
  unfold relay_toggle, debounce_check.
  destruct (i >=? RELAY_COUNT); [left; reflexivity|].
  destruct (uint32 (now_ms e - last_toggle_at w i) <? RELAY_DEBOUNCE_MS);
    [left; reflexivity|].
  right. cbn [negb snd]. fold (store_and_drive e i
    (if decide (state_at w i = RELAY_ON) then RELAY_OFF else RELAY_ON)
    (set_last_toggle_time (<[Z.to_nat i := now_ms e]> (last_toggle_time w)) w)).
  apply ledger_store_and_drive_any.
Qed.

(** X8: the debounce is kept per relay.  The ledger entry of relay [j]
    is written only by a toggle addressed to [j]: a toggle on another
    relay, a single or bulk set, a read or a save leaves it, and with it
    the time the next toggle on [j] is measured against, as it was. *)
Theorem X8_ledger_entry_changes_only_by_own_toggle
    (e e' : env) (c : command) (w : world) (j : Z) :
  0 <= j →
  match c with
  | Toggle i => uint8 i ≠ j
  | _ => True
  end →
  last_toggle_at (exec e c w) j = last_toggle_at w j ∧
  elapsed_ms e' (exec e c w) j = elapsed_ms e' w j.
Proof.
  intros Hj Hc.
  assert (Hl : last_toggle_at (exec e c w) j = last_toggle_at w j).
  { unfold last_toggle_at. destruct c as [i | i s | i | s |]; cbn [exec].
    - destruct (ledger_relay_toggle e (uint8 i) w) as [-> | ->];
        [reflexivity|].
      rewrite list_lookup_insert_ne; [reflexivity|].
      pose proof (uint8_range i). lia.
    - unfold relay_set_state. destruct (uint8 i >=? RELAY_COUNT);
        [reflexivity|]. cbn [snd].
      fold (store_and_drive e (uint8 i) s w).
      rewrite ledger_store_and_drive_any. reflexivity.
    - reflexivity.
    - rewrite relay_all_eq. cbn [snd].
      rewrite ledger_save_states, ledger_set_all_loop. reflexivity.
    - rewrite ledger_save_states. reflexivity. }
  split; [exact Hl|]. unfold elapsed_ms. rewrite Hl. reflexivity.
Qed.

Lemma X8_ledger_entry_changes_only_by_own_toggle_witness :
  0 <= 1 ∧
  uint8 0 ≠ 1 ∧
  elapsed_ms (healthy 12) (exec (healthy 10) (Toggle 0) started_world) 1
  = elapsed_ms (healthy 12) started_world 1.
Proof.
  assert (H1 : 0 <= 1) by (vm_compute; congruence).
  assert (H2 : uint8 0 ≠ 1) by (vm_compute; congruence).
  split; [exact H1|]. split; [exact H2|].
  exact (proj2 (X8_ledger_entry_changes_only_by_own_toggle
                  (healthy 10) (healthy 12) (Toggle 0) started_world 1 H1 H2)).
Defined.

Lemma last_toggle_after_accepted (e : env) (w : world) (i : Z) :
  length (last_toggle_time w) = Z.to_nat RELAY_COUNT →
  0 <= i < RELAY_COUNT →
  RELAY_DEBOUNCE_MS <= elapsed_ms e w i →
  last_toggle_at (snd (relay_toggle e i w)) i = now_ms e.
Proof.
  intros Hled Hi Hel. rewrite relay_toggle_accepted by (lia || assumption).
  cbn [snd]. unfold last_toggle_at. rewrite ledger_store_and_drive_any.
  cbn [last_toggle_time set_last_toggle_time].
  rewrite list_lookup_insert_eq by lia. reflexivity.
Qed.

(** X9: the debounce test is right across a wrap of the 32-bit
    millisecond clock.  If a toggle was accepted at true time [t0] and
    the next one comes at true time [t1], less than 2^32 ms later, the
    elapsed time the code computes from the two wrapped readings is
    [t1 - t0]: the second toggle is rejected when [t1 - t0] is below
    [RELAY_DEBOUNCE_MS] and otherwise flips the relay back, whether or
    not the clock wrapped in between. *)
Theorem X9_debounce_is_exact_across_clock_wrap
    (e0 e1 : env) (w : world) (i t0 t1 : Z) :
  length (relays w) = Z.to_nat RELAY_COUNT →
  length (last_toggle_time w) = Z.to_nat RELAY_COUNT →
  0 <= i < RELAY_COUNT →
  now_ms e0 = uint32 t0 →
  now_ms e1 = uint32 t1 →
  0 <= t1 - t0 < 2 ^ 32 →
  RELAY_DEBOUNCE_MS <= elapsed_ms e0 w i →
  let w1 := snd (relay_toggle e0 i w) in
  elapsed_ms e1 w1 i = t1 - t0 ∧
  (t1 - t0 < RELAY_DEBOUNCE_MS →
   relay_toggle e1 i w1 = (state_value (state_at w1 i), w1)) ∧
  (RELAY_DEBOUNCE_MS <= t1 - t0 →
   state_at (snd (relay_toggle e1 i w1)) i = state_at w i).
Proof.
  intros Hlen Hled Hi H0 H1 Hdiff Hacc w1.
  assert (Hel : elapsed_ms e1 w1 i = t1 - t0).
  { unfold elapsed_ms, w1. rewrite last_toggle_after_accepted by assumption.
    rewrite H0, H1. unfold uint32.
    rewrite <- Zminus_mod. apply Z.mod_small. exact Hdiff. }
  assert (Hlen1 : length (relays w1) = Z.to_nat RELAY_COUNT).
  { unfold w1. rewrite relay_toggle_accepted by (lia || assumption).
    cbn [snd]. rewrite relays_store_and_drive, length_alter by assumption.
    exact Hlen. }
  assert (Hst1 : state_at w1 i = flip (state_at w i)).
  { unfold w1. rewrite relay_toggle_accepted by (lia || assumption).
    cbn [snd]. apply state_at_store_and_drive; assumption. }
  split; [exact Hel|]. split.
  - intros Hlt. apply relay_toggle_rejected; [lia | rewrite Hel; exact Hlt].
  - intros Hge. rewrite relay_toggle_accepted by (lia || rewrite Hel; exact Hge).
    cbn [snd]. rewrite state_at_store_and_drive by assumption.
    rewrite Hst1. destruct (state_at w i); reflexivity.
Qed.

Lemma X9_debounce_is_exact_across_clock_wrap_witness :
  length (relays started_world) = Z.to_nat RELAY_COUNT ∧
  length (last_toggle_time started_world) = Z.to_nat RELAY_COUNT ∧
  0 <= 0 < RELAY_COUNT ∧
  now_ms (healthy 429496729) = uint32 4294967290 ∧
  now_ms (healthy 429496732) = uint32 4294967320 ∧
  0 <= 4294967320 - 4294967290 < 2 ^ 32 ∧
  RELAY_DEBOUNCE_MS <= elapsed_ms (healthy 429496729) started_world 0 ∧
  elapsed_ms (healthy 429496732)
    (snd (relay_toggle (healthy 429496729) 0 started_world)) 0 = 30.
Proof.
  assert (H1 : length (relays started_world) = Z.to_nat RELAY_COUNT)
    by reflexivity.
  assert (H2 : length (last_toggle_time started_world) = Z.to_nat RELAY_COUNT)
    by reflexivity.
  assert (H3 : 0 <= 0 < RELAY_COUNT) by (vm_compute; split; congruence).
  assert (H4 : now_ms (healthy 429496729) = uint32 4294967290)
    by (vm_compute; reflexivity).
  assert (H5 : now_ms (healthy 429496732) = uint32 4294967320)
    by (vm_compute; reflexivity).
  assert (H6 : 0 <= 4294967320 - 4294967290 < 2 ^ 32)
    by (vm_compute; split; congruence).
  assert (H7 : RELAY_DEBOUNCE_MS
               <= elapsed_ms (healthy 429496729) started_world 0)
    by (vm_compute; congruence).
  split; [exact H1|]. split; [exact H2|]. split; [exact H3|].
  split; [exact H4|]. split; [exact H5|]. split; [exact H6|].
  split; [exact H7|].
  exact (proj1 (X9_debounce_is_exact_across_clock_wrap
                  (healthy 429496729) (healthy 429496732) started_world 0
                  4294967290 4294967320 H1 H2 H3 H4 H5 H6 H7)).
Defined.

(** X10: toggling is an involution on the relay table.  Two accepted
    toggles on the same relay leave the table of relays (pins, names and
    states) exactly as it was, and the second one returns the state the
    relay had at the start. *)
Theorem X10_two_accepted_toggles_restore_the_table
    (e1 e2 : env) (w : world) (i : Z) :
  length (relays w) = Z.to_nat RELAY_COUNT →
  0 <= i < RELAY_COUNT →
  RELAY_DEBOUNCE_MS <= elapsed_ms e1 w i →
  RELAY_DEBOUNCE_MS <= elapsed_ms e2 (snd (relay_toggle e1 i w)) i →
  relays (snd (relay_toggle e2 i (snd (relay_toggle e1 i w)))) = relays w ∧
  fst (relay_toggle e2 i (snd (relay_toggle e1 i w)))
  = state_value (state_at w i).
Proof.
  intros Hlen Hi Hel1 Hel2.
  set (w1 := snd (relay_toggle e1 i w)) in *.
  assert (Hw1 : w1 = store_and_drive e1 i (flip (state_at w i))
                       (set_last_toggle_time
                          (<[Z.to_nat i := now_ms e1]> (last_toggle_time w)) w)).
  { unfold w1. rewrite relay_toggle_accepted by (lia || assumption).
    reflexivity. }
  assert (Hr1 : relays w1
                = alter (with_state (flip (state_at w i))) (Z.to_nat i) (relays w)).
  { rewrite Hw1, relays_store_and_drive by assumption. reflexivity. }
  assert (Hlen1 : length (relays w1) = Z.to_nat RELAY_COUNT).
  { rewrite Hr1, length_alter. exact Hlen. }
  assert (Hst1 : state_at w1 i = flip (state_at w i)).
  { rewrite Hw1. apply state_at_store_and_drive; assumption. }
  rewrite relay_toggle_accepted by (lia || assumption). cbn [fst snd].
  rewrite state_at_store_and_drive by assumption.
  rewrite relays_store_and_drive by assumption.
  cbn [relays set_last_toggle_time]. rewrite Hst1.
  assert (Hff : flip (flip (state_at w i)) = state_at w i)
    by (destruct (state_at w i); reflexivity).
  rewrite Hff. split; [|reflexivity].
  rewrite Hr1, list_alter_alter_eq. apply list_eq. intros k.
  destruct (decide (k = Z.to_nat i)) as [->|Hne].
  - rewrite list_lookup_alter_eq.
    destruct (valid_index w i Hlen Hi) as [r Hr]. rewrite Hr. cbn.
    f_equal. unfold state_at, relay_at. rewrite Hr. cbn [default].
    destruct r; reflexivity.
  - rewrite list_lookup_alter_ne by congruence. reflexivity.
Qed.

Lemma X10_two_accepted_toggles_restore_the_table_witness :
  length (relays started_world) = Z.to_nat RELAY_COUNT ∧
  0 <= 2 < RELAY_COUNT ∧
  RELAY_DEBOUNCE_MS <= elapsed_ms (healthy 10) started_world 2 ∧
  RELAY_DEBOUNCE_MS
    <= elapsed_ms (healthy 20)
         (snd (relay_toggle (healthy 10) 2 started_world)) 2 ∧
  relays (snd (relay_toggle (healthy 20) 2
                 (snd (relay_toggle (healthy 10) 2 started_world))))
  = relays started_world.
Proof.
  assert (H1 : length (relays started_world) = Z.to_nat RELAY_COUNT)
    by reflexivity.
  assert (H2 : 0 <= 2 < RELAY_COUNT) by (vm_compute; split; congruence).
  assert (H3 : RELAY_DEBOUNCE_MS <= elapsed_ms (healthy 10) started_world 2)
    by (vm_compute; congruence).
  assert (H4 : RELAY_DEBOUNCE_MS
               <= elapsed_ms (healthy 20)
                    (snd (relay_toggle (healthy 10) 2 started_world)) 2)
    by (vm_compute; congruence).
  split; [exact H1|]. split; [exact H2|]. split; [exact H3|].
  split; [exact H4|].
  exact (proj1 (X10_two_accepted_toggles_restore_the_table
                  (healthy 10) (healthy 20) started_world 2 H1 H2 H3 H4)).
Defined.

(** ** The status LED between commands *)

Lemma configure_pins_led_frame (e : env) (ids : list Z) (w : world) :
  Forall (fun i => gpio_pin (relay_at w i) ≠ LED_BUILTIN_GPIO) ids →
  led_initialized (snd (configure_pins e ids w)) = led_initialized w ∧
  gpio (snd (configure_pins e ids w)) !! LED_BUILTIN_GPIO
    = gpio w !! LED_BUILTIN_GPIO.
Proof.
  revert w. induction ids as [|i ids IH]; intros w Hall; [split; reflexivity|].
  inversion Hall as [|? ? Hi Hrest]; subst.
  cbn [configure_pins gpio_config].
  destruct (negb (rc_gpio_config e (gpio_pin (relay_at w i)) =? ESP_OK)).
  - cbn [snd led_initialized gpio emit gpio_set_level].
    rewrite lookup_insert_ne by exact Hi. split; reflexivity.
  - match goal with |- context [configure_pins e ids ?w1] =>
      destruct (IH w1) as [Hl Hg]; [exact Hrest|]; rewrite Hl, Hg end.
    cbn [led_initialized gpio emit gpio_set_level].
    rewrite !lookup_insert_ne by exact Hi. split; reflexivity.
Qed.

Lemma unpack_states_led_frame (v : Z) (w : world) :
  led_initialized (unpack_states v w) = led_initialized w.
Proof.
  unfold unpack_states.
  apply (for_loop_ind (fun _ acc => led_initialized acc = led_initialized w));
    [discriminate | reflexivity | intros i acc _ IH; exact IH].
Qed.

Lemma relay_load_states_led_frame (e : env) (w : world) :
  led_initialized (snd (relay_load_states e w)) = led_initialized w ∧
  gpio (snd (relay_load_states e w)) = gpio w.
Proof.
  unfold relay_load_states.
  destruct (negb (rc_nvs_open e =? ESP_OK)); [split; reflexivity|].
  destruct (nvs_get_u8 e _) as [ret v].
  destruct (negb (ret =? ESP_OK)); [split; reflexivity|].
  cbn [snd]. rewrite unpack_states_led_frame.
  match goal with |- context [unpack_states v ?w1] =>
    destruct (unpack_states_frame v w1) as (_ & _ & _ & Hg) end.
  rewrite Hg. split; reflexivity.
Qed.

Lemma apply_all_led_frame (w : world) :
  wf_world w →
  let w' := for_loop RELAY_COUNT apply_gpio_state w in
  led_initialized w' = led_initialized w ∧
  gpio w' !! LED_BUILTIN_GPIO = gpio w !! LED_BUILTIN_GPIO.
Proof.
  intros Hwf w'.
  assert (Hinv : relays w' = relays w ∧ led_initialized w' = led_initialized w ∧
                 gpio w' !! LED_BUILTIN_GPIO = gpio w !! LED_BUILTIN_GPIO).
  { unfold w'.
    apply (for_loop_ind (fun _ acc =>
      relays acc = relays w ∧ led_initialized acc = led_initialized w ∧
      gpio acc !! LED_BUILTIN_GPIO = gpio w !! LED_BUILTIN_GPIO));
      [discriminate | repeat split |].
    intros i acc Hi (Hr & Hl & Hg). rewrite apply_gpio_state_eq by lia.
    cbn [relays led_initialized gpio gpio_set_level emit].
    repeat split; try assumption.
    rewrite lookup_insert_ne; [exact Hg|].
    unfold relay_at. rewrite Hr. apply (relay_pin_not_led w i Hwf Hi). }
  destruct Hinv as (_ & Hl & Hg). split; assumption.
Qed.

Lemma relay_service_init_led_idle (e : env) (stored : option Z) (w0 : world) :
  relay_service_init e (boot_world stored) = (ESP_OK, w0) →
  led_idle w0.
Proof.
  unfold relay_service_init.
  set (wl := init_led e (boot_world stored)).
  assert (Hidle : led_idle wl).
  { unfold wl, init_led, led_idle. cbn. split; [reflexivity|].
    apply lookup_insert_eq. }
  assert (Hwfl : wf_world wl).
  { destruct (init_led_frame e (boot_world stored)) as (Hr & Hl & _).
    apply (wf_transfer (boot_world stored));
      [apply wf_boot_world | unfold wl; congruence | exact Hl]. }
  destruct (configure_pins_frame e (seqZ 0 RELAY_COUNT) wl) as (Hr2 & Hl2 & _).
  destruct (configure_pins_led_frame e (seqZ 0 RELAY_COUNT) wl) as [Hf2 Hg2].
  { apply all_relay_indices. intros i Hi. apply relay_pin_not_led; assumption. }
  destruct (configure_pins e (seqZ 0 RELAY_COUNT) wl) as [ret w2].
  cbn [snd] in *.
  destruct (negb (ret =? ESP_OK)); [intros Heq; injection Heq as _ <-|].
  { destruct Hidle as [Hi1 Hi2]. split; congruence. }
  cbn [RELAY_PERSIST_STATE].
  assert (Hwf2 : wf_world w2) by (apply (wf_transfer wl); congruence).
  destruct (relay_load_states_frame e w2) as (Hp3 & Hl3 & _).
  destruct (relay_load_states_led_frame e w2) as [Hf3 Hg3].
  assert (Hwf3 : wf_world (snd (relay_load_states e w2)))
    by (apply (wf_transfer w2); assumption).
  destruct (apply_all_led_frame _ Hwf3) as [Hf4 Hg4].
  intros Heq. injection Heq as <-.
  destruct Hidle as [Hi1 Hi2]. split; congruence.
Qed.

Lemma store_and_drive_led_idle (e : env) (i : Z) (s : relay_state_t)
    (w : world) :
  wf_world w →
  0 <= i < RELAY_COUNT →
  led_idle w →
  led_idle (store_and_drive e i s w).
Proof.
  intros Hwf Hi [Hl Hg]. rewrite store_and_drive_saves. unfold led_idle.
  rewrite led_save_states, gpio_save_states, led_blink_led, blink_led_eq.
  rewrite apply_gpio_state_eq by lia.
  cbn [led_initialized gpio_set_level emit write_state set_relays].
  rewrite Hl. split; [reflexivity|]. cbn [gpio gpio_set_level emit vTaskDelay_ms].
  apply lookup_insert_eq.
Qed.

Lemma exec_led_idle (e : env) (c : command) (w : world) :
  wf_world w →
  led_idle w →
  led_idle (exec e c w).
Proof.
  intros Hwf Hidle. destruct c as [i | i s | i | s |]; cbn [exec].
  - pose proof (uint8_range i) as Hu.
    destruct (Z.lt_ge_cases (uint8 i) RELAY_COUNT) as [Hlt|Hge].
    + destruct (Z.lt_ge_cases (elapsed_ms e w (uint8 i)) RELAY_DEBOUNCE_MS)
        as [Hr|Ha].
      * rewrite relay_toggle_rejected by assumption. exact Hidle.
      * rewrite relay_toggle_accepted by assumption. cbn [snd].
        apply store_and_drive_led_idle; [| lia | exact Hidle].
        destruct Hwf as [Hlen Hled Hnd Hnl]. split; try assumption.
        cbn [last_toggle_time set_last_toggle_time]. rewrite length_insert.
        exact Hled.
    + unfold relay_toggle. destruct (uint8 i >=? RELAY_COUNT) eqn:Hc; [|lia].
      exact Hidle.
  - pose proof (uint8_range i) as Hu.
    destruct (Z.lt_ge_cases (uint8 i) RELAY_COUNT) as [Hlt|Hge].
    + rewrite relay_set_state_valid by assumption. cbn [snd].
      apply store_and_drive_led_idle; [assumption | lia | assumption].
    + unfold relay_set_state.
      destruct (uint8 i >=? RELAY_COUNT) eqn:Hc; [|lia]. exact Hidle.
  - exact Hidle.
  - rewrite relay_all_eq. cbn [snd]. unfold led_idle.
    rewrite led_save_states, gpio_save_states.
    destruct (set_all_loop_spec s w (wf_relays _ Hwf))
      as (_ & _ & _ & Hl & _ & _ & Hf).
    rewrite Hl, Hf by apply (wf_led_pin _ Hwf). exact Hidle.
  - unfold led_idle. rewrite led_save_states, gpio_save_states. exact Hidle.
Qed.

(** X11: between commands the status LED is off.  After a successful
    start-up and after every command that follows, the LED is marked as
    set up and the level last driven to its pin is 0: each pulse made by
    a toggle or a set ends low, and nothing else drives that pin. *)
Theorem X11_led_is_low_after_every_command
    (e0 : env) (stored : option Z) (w0 : world) (cs : list (env * command)) :
  relay_service_init e0 (boot_world stored) = (ESP_OK, w0) →
  led_initialized (exec_all cs w0) = true ∧
  gpio (exec_all cs w0) !! LED_BUILTIN_GPIO = Some 0.
Proof.
  intros Hinit.
  destruct (relay_service_init_ok e0 _ w0 (wf_boot_world stored) Hinit)
    as (Hwf0 & _ & Hg0 & _).
  pose proof (relay_service_init_led_idle e0 stored w0 Hinit) as Hidle0.
  clear Hinit. revert w0 Hwf0 Hg0 Hidle0.
  induction cs as [|[e c] cs IH]; intros w Hwf Hg Hidle; [exact Hidle|].
  cbn [exec_all]. destruct (exec_preserves e c w Hwf Hg) as [Hwf' Hg'].
  apply IH; [assumption | assumption |]. apply exec_led_idle; assumption.
Qed.

Lemma X11_led_is_low_after_every_command_witness :
  relay_service_init (healthy 0) (boot_world None) = (ESP_OK, started_world) ∧
  gpio (exec_all [(healthy 10, Toggle 0); (healthy 12, SetStateAll RELAY_ON)]
          started_world) !! LED_BUILTIN_GPIO = Some 0.
Proof.
  assert (H1 : relay_service_init (healthy 0) (boot_world None)
               = (ESP_OK, started_world)) by reflexivity.
  split; [exact H1|].
  exact (proj2 (X11_led_is_low_after_every_command
                  (healthy 0) None started_world
                  [(healthy 10, Toggle 0); (healthy 12, SetStateAll RELAY_ON)]
                  H1)).
Defined.

(** * Further properties of the HTTP controller *)

(** ** Replies of the handlers *)

Lemma extract_relay_id_valid_cases (uri : string) :
  0 <= extract_relay_id uri →
  0 <= extract_relay_id uri < RELAY_COUNT ∧
  uint8 (extract_relay_id uri) = extract_relay_id uri.
Proof.
  intros Hpos. destruct (extract_relay_id_range uri) as [H|[H|H]]; try lia.
  split; [exact H | apply uint8_small, H].
Qed.

Lemma handler_toggle_reply (e : env) (uri : string) (w : world) :
  0 <= extract_relay_id uri →
  let i := extract_relay_id uri in
  let w' := snd (relay_toggle e i w) in
  handler_toggle e uri w
  = (send_json_response
       (JSON_RELAY_STATUS i (name (relay_at w' i)) (fst (relay_toggle e i w))),
     w').
Proof.
  intros Hpos. cbv zeta.
  destruct (extract_relay_id_valid_cases uri Hpos) as [Hi Hu].
  unfold handler_toggle. cbv zeta. rewrite !Hu.
  destruct (Z.ltb_spec (extract_relay_id uri) 0) as [Hneg|_]; [lia|].
  destruct (relay_toggle e (extract_relay_id uri) w) as [r w1]. cbn [fst snd].
  rewrite relay_get_info_valid by lia. reflexivity.
Qed.

Lemma handler_on_reply (e : env) (uri : string) (w : world) :
  0 <= extract_relay_id uri →
  let i := extract_relay_id uri in
  let w' := snd (relay_set_state e i RELAY_ON w) in
  handler_on e uri w
  = (send_json_response (JSON_RELAY_STATUS i (name (relay_at w' i)) 1), w').
Proof.
  intros Hpos. cbv zeta.
  destruct (extract_relay_id_valid_cases uri Hpos) as [Hi Hu].
  unfold handler_on. cbv zeta. rewrite !Hu.
  destruct (Z.eqb_spec (extract_relay_id uri) (-2)) as [Heq|_]; [lia|].
  destruct (Z.ltb_spec (extract_relay_id uri) 0) as [Hneg|_]; [lia|].
  rewrite relay_get_info_valid by lia. reflexivity.
Qed.

Lemma handler_off_reply (e : env) (uri : string) (w : world) :
  0 <= extract_relay_id uri →
  let i := extract_relay_id uri in
  let w' := snd (relay_set_state e i RELAY_OFF w) in
  handler_off e uri w
  = (send_json_response (JSON_RELAY_STATUS i (name (relay_at w' i)) 0), w').
Proof.
  intros Hpos. cbv zeta.
  destruct (extract_relay_id_valid_cases uri Hpos) as [Hi Hu].
  unfold handler_off. cbv zeta. rewrite !Hu.
  destruct (Z.eqb_spec (extract_relay_id uri) (-2)) as [Heq|_]; [lia|].
  destruct (Z.ltb_spec (extract_relay_id uri) 0) as [Hneg|_]; [lia|].
  rewrite relay_get_info_valid by lia. reflexivity.
Qed.

Lemma handler_status_reply (uri : string) (w : world) :
  0 <= extract_relay_id uri →
  let i := extract_relay_id uri in
  handler_status uri w
  = send_json_response
      (JSON_RELAY_STATUS i (name (relay_at w i)) (state_value (state_at w i))).
Proof.
  intros Hpos. cbv zeta.
  destruct (extract_relay_id_valid_cases uri Hpos) as [Hi Hu].
  unfold handler_status. cbv zeta. rewrite !Hu.
  destruct (Z.eqb_spec (extract_relay_id uri) (-2)) as [Heq|_]; [lia|].
  destruct (Z.ltb_spec (extract_relay_id uri) 0) as [Hneg|_]; [lia|].
  rewrite relay_get_info_valid by lia. reflexivity.
Qed.

(** The status line of each handler, by what the parser returned. *)
Lemma handler_status_lines (e : env) (uri : string) (w : world) :
  http_status (fst (handler_toggle e uri w))
    = (if extract_relay_id uri <? 0 then "400 Bad Request" else "200 OK") ∧
  http_status (fst (handler_on e uri w))
    = (if extract_relay_id uri =? -1 then "400 Bad Request" else "200 OK") ∧
  http_status (fst (handler_off e uri w))
    = (if extract_relay_id uri =? -1 then "400 Bad Request" else "200 OK") ∧
  http_status (handler_status uri w)
    = (if extract_relay_id uri =? -1 then "400 Bad Request" else "200 OK").
Proof.
  destruct (extract_relay_id_range uri) as [H|[H|H]].
  - unfold handler_toggle, handler_on, handler_off, handler_status.
    rewrite H. repeat split.
  - unfold handler_toggle, handler_on, handler_off, handler_status.
    rewrite H. repeat split.
  - assert (Hpos : 0 <= extract_relay_id uri) by lia.
    rewrite handler_toggle_reply, handler_on_reply, handler_off_reply,
      handler_status_reply by exact Hpos. cbn [fst http_status send_json_response].
    destruct (Z.ltb_spec (extract_relay_id uri) 0); [lia|].
    destruct (Z.eqb_spec (extract_relay_id uri) (-1)); [lia|].
    repeat split.
Qed.

(** X12: no handler ever answers 404.  Whatever the request and the
    state of the service, the reply of the toggle, on, off and status
    handlers is 200 or 400: the parser only lets through indices of the
    table, for which [relay_get_info] always finds the relay, so the
    "Relay not found" branch is never taken.  The reply is 400 exactly
    when the parser refused the target (for the toggle handler this
    includes the target [all]). *)
Theorem X12_handlers_never_answer_not_found
    (e : env) (uri : string) (w : world) :
  let replies :=
    [fst (handler_toggle e uri w); fst (handler_on e uri w);
     fst (handler_off e uri w); handler_status uri w] in
  (∀ r, r ∈ replies →
        http_status r ≠ "404 Not Found" ∧
        (http_status r = "200 OK" ∨ http_status r = "400 Bad Request")) ∧
  (http_status (fst (handler_toggle e uri w)) = "400 Bad Request"
   ↔ extract_relay_id uri < 0) ∧
  (http_status (fst (handler_on e uri w)) = "400 Bad Request"
   ↔ extract_relay_id uri = -1) ∧
  (http_status (fst (handler_off e uri w)) = "400 Bad Request"
   ↔ extract_relay_id uri = -1) ∧
  (http_status (handler_status uri w) = "400 Bad Request"
   ↔ extract_relay_id uri = -1).
Proof.
  intros replies. destruct (handler_status_lines e uri w) as (Ht & Hon & Hoff & Hs).
  split.
  - intros r Hr. unfold replies in Hr.
    repeat (apply elem_of_cons in Hr as [-> | Hr]);
      [rewrite Ht | rewrite Hon | rewrite Hoff | rewrite Hs | inversion Hr];
      match goal with |- context [if ?b then _ else _] => destruct b end;
      (split; [discriminate | auto]).
  - rewrite Ht, Hon, Hoff, Hs.
    destruct (Z.ltb_spec (extract_relay_id uri) 0),
      (Z.eqb_spec (extract_relay_id uri) (-1));
      repeat split; intros; try assumption; try reflexivity;
      try discriminate; try lia.
Qed.

(** X14: the status of all relays lists exactly [RELAY_COUNT] entries,
    in ascending index order, entry [i] carrying the index, the name and
    the current state of relay [i], whatever happened before; producing
    it does not change the service (the handler returns no world). *)
Theorem X14_status_of_all_lists_relays_in_index_order
    (uri : string) (w : world) :
  extract_relay_id uri = -2 →
  let entries :=
    (fun i => (i, name (relay_at w i), state_value (state_at w i)))
      <$> seqZ 0 RELAY_COUNT in
  handler_status uri w = send_json_response (JSON_ALL_STATUS entries) ∧
  length entries = Z.to_nat RELAY_COUNT ∧
  (∀ k : nat, (k < Z.to_nat RELAY_COUNT)%nat →
     entries !! k
     = Some (Z.of_nat k, name (relay_at w (Z.of_nat k)),
             state_value (state_at w (Z.of_nat k)))).
Proof.
  intros Huri entries. split; [|split].
  - unfold handler_status. rewrite Huri. reflexivity.
  - unfold entries. rewrite length_fmap, length_seqZ. reflexivity.
  - intros k Hk. unfold entries. rewrite list_lookup_fmap.
    rewrite lookup_seqZ_lt by lia. reflexivity.
Qed.

Lemma X14_status_of_all_lists_relays_in_index_order_witness :
  extract_relay_id "/relay/all/status" = -2 ∧
  handler_status "/relay/all/status" started_world
  = send_json_response
      (JSON_ALL_STATUS
         ((fun i => (i, name (relay_at started_world i),
                     state_value (state_at started_world i)))
            <$> seqZ 0 RELAY_COUNT)).
Proof.
  assert (H1 : extract_relay_id "/relay/all/status" = -2) by reflexivity.
  split; [exact H1|].
  exact (proj1 (X14_status_of_all_lists_relays_in_index_order
                  "/relay/all/status" started_world H1)).
Defined.

(** X15: the reply to a request that changes one relay is the reply a
    status request for the same relay gets right after it: the toggle,
    on and off handlers report the index, the name and the state that
    the relay has once the command is done. *)
Theorem X15_mutating_reply_is_the_following_status
    (e : env) (uri : string) (w : world) :
  length (relays w) = Z.to_nat RELAY_COUNT →
  0 <= extract_relay_id uri →
  handler_status uri (snd (handler_toggle e uri w))
    = fst (handler_toggle e uri w) ∧
  handler_status uri (snd (handler_on e uri w)) = fst (handler_on e uri w) ∧
  handler_status uri (snd (handler_off e uri w)) = fst (handler_off e uri w).
Proof.
  intros Hlen Hpos.
  destruct (extract_relay_id_valid_cases uri Hpos) as [Hi _].
  rewrite handler_toggle_reply, handler_on_reply, handler_off_reply
    by exact Hpos. cbn [fst snd]. rewrite !handler_status_reply by exact Hpos.
  cbn zeta. split; [|split].
  - do 2 f_equal.
    destruct (Z.lt_ge_cases (elapsed_ms e w (extract_relay_id uri))
                RELAY_DEBOUNCE_MS) as [Hr|Ha].
    + rewrite relay_toggle_rejected by (lia || assumption). reflexivity.
    + rewrite relay_toggle_accepted by (lia || assumption). reflexivity.
  - do 2 f_equal. rewrite relay_set_state_valid by lia. cbn [snd].
    rewrite state_at_store_and_drive by assumption. reflexivity.
  - do 2 f_equal. rewrite relay_set_state_valid by lia. cbn [snd].
    rewrite state_at_store_and_drive by assumption. reflexivity.
Qed.

Lemma X15_mutating_reply_is_the_following_status_witness :
  length (relays started_world) = Z.to_nat RELAY_COUNT ∧
  0 <= extract_relay_id "/relay/2/toggle" ∧
  handler_status "/relay/2/toggle"
    (snd (handler_toggle (healthy 10) "/relay/2/toggle" started_world))
  = fst (handler_toggle (healthy 10) "/relay/2/toggle" started_world).
Proof.
  assert (H1 : length (relays started_world) = Z.to_nat RELAY_COUNT)
    by reflexivity.
  assert (H2 : 0 <= extract_relay_id "/relay/2/toggle")
    by (vm_compute; congruence).
  split; [exact H1|]. split; [exact H2|].
  exact (proj1 (X15_mutating_reply_is_the_following_status
                  (healthy 10) "/relay/2/toggle" started_world H1 H2)).
Defined.

(** ** Numeric relay indices *)

Lemma append_String (c : ascii) (s r : string) :
  String c s ++ r = String c (s ++ r).
Proof. reflexivity. Qed.

Lemma read_digits_step (c : ascii) (x : Z) (s : string) :
  Libc.isdigit c = true →
  Libc.read_digits x (String c s)
  = Libc.read_digits (x * 10 + (Libc.char_code c - 48)) s.
Proof. intros Hc. cbn [Libc.read_digits]. rewrite Hc. reflexivity. Qed.

Lemma read_digits_stop (x : Z) (s : string) :
  no_leading_digit s → Libc.read_digits x s = x.
Proof.
  destruct s as [|c s]; intros Hs; [reflexivity|].
  cbn [Libc.read_digits]. cbn in Hs. rewrite Hs. reflexivity.
Qed.

Ltac digit_step IH :=
  rewrite append_String, read_digits_step by reflexivity;
  rewrite <- IH; f_equal;
  rewrite ?Nat2Z.inj_succ, Nat.tail_mul_spec, Nat2Z.inj_mul;
  match goal with
  | |- context [Libc.char_code ?c] =>
      let v := eval vm_compute in (Libc.char_code c) in
      change (Libc.char_code c) with v
  end;
  lia.

(** [read_digits] on the decimal text of [d] computes what
    [Nat.of_uint_acc] computes on [d]. *)
Lemma read_digits_uint (d : Decimal.uint) (a : nat) (rest : string) :
  Libc.read_digits (Z.of_nat a) (NilEmpty.string_of_uint d ++ rest)
  = Libc.read_digits (Z.of_nat (Nat.of_uint_acc d a)) rest.
Proof.
  revert a.
  induction d as [|d IH|d IH|d IH|d IH|d IH|d IH|d IH|d IH|d IH|d IH];
    intros a; cbn [NilEmpty.string_of_uint Nat.of_uint_acc];
    [reflexivity | digit_step IH ..].
Qed.

Lemma strtol10_digit_first (c : ascii) (s : string) :
  Libc.isdigit c = true →
  Libc.strtol10 (String c s)
  = Z.max Libc.LONG_MIN (Z.min Libc.LONG_MAX (Libc.read_digits 0 (String c s))).
Proof.
  intros Hc.
  destruct c as [[] [] [] [] [] [] [] []]; try discriminate Hc; reflexivity.
Qed.

Lemma decimal_starts_with_digit (n : nat) :
  ∃ c s, decimal n = String c s ∧ Libc.isdigit c = true ∧
         String c s = NilEmpty.string_of_uint (Nat.to_uint n).
Proof.
  unfold decimal. pose proof (Unsigned.of_to n) as Hn.
  destruct (Nat.to_uint n) as [|d|d|d|d|d|d|d|d|d|d] eqn:E;
    [|cbn [NilZero.string_of_uint NilEmpty.string_of_uint];
      do 2 eexists; repeat split ..].
  exfalso. cbn in Hn. subst n. discriminate E.
Qed.

Lemma atoi_decimal (n : nat) (rest : string) :
  no_leading_digit rest →
  Libc.atoi (decimal n ++ rest) = Z.min Libc.LONG_MAX (Z.of_nat n).
Proof.
  intros Hrest. destruct (decimal_starts_with_digit n) as (c & s & Hd & Hc & Hs).
  unfold Libc.atoi. rewrite Hd, append_String, strtol10_digit_first by exact Hc.
  rewrite <- append_String, Hs.
  change 0 with (Z.of_nat 0). rewrite read_digits_uint.
  rewrite read_digits_stop by exact Hrest.
  fold (Nat.of_uint (Nat.to_uint n)). rewrite Unsigned.of_to.
  unfold Libc.LONG_MIN, Libc.LONG_MAX. lia.
Qed.

(** X13: a decimal index is read for what it is.  For every natural
    number [n], written in decimal and followed by text that does not go
    on with a digit, [/relay/n...] selects relay [n] when [n] is below
    [RELAY_COUNT] and no target (-1) otherwise, however large [n] is:
    [atoi] saturates, so a huge index cannot wrap around into the
    table. *)
Theorem X13_decimal_index_selects_that_relay_or_none
    (n : nat) (rest : string) :
  no_leading_digit rest →
  extract_relay_id ("/relay/" ++ decimal n ++ rest)
  = if Z.of_nat n <? RELAY_COUNT then Z.of_nat n else -1.
Proof.
  intros Hrest. unfold extract_relay_id.
  pose proof (atoi_decimal n rest Hrest) as Hatoi.
  destruct (decimal_starts_with_digit n) as (c & s & Hd & Hc & _).
  assert (Hx : decimal n ++ rest = String c (s ++ rest))
    by (rewrite Hd; reflexivity).
  rewrite Hx in *.
  change (Libc.strstr ("/relay/" ++ String c (s ++ rest)) "/relay/")
    with (Some ("/relay/" ++ String c (s ++ rest))).
  cbv beta iota.
  change (Libc.advance 7 ("/relay/" ++ String c (s ++ rest)))
    with (String c (s ++ rest)).
  assert (Hall : Libc.strncmp_eq (String c (s ++ rest)) "all" 3 = false).
  { destruct c as [[] [] [] [] [] [] [] []]; try discriminate Hc; reflexivity. }
  rewrite Hall, Hatoi.
  unfold Libc.LONG_MAX, RELAY_COUNT.
  destruct (Z.ltb_spec (Z.min (2 ^ 31 - 1) (Z.of_nat n)) 0) as [Hneg|_]; [lia|].
  destruct (Z.geb_spec (Z.min (2 ^ 31 - 1) (Z.of_nat n)) 4) as [Hge|Hlt];
    destruct (Z.ltb_spec (Z.of_nat n) 4); cbn [orb]; lia.
Qed.

Lemma X13_decimal_index_selects_that_relay_or_none_witness :
  no_leading_digit "/toggle" ∧
  extract_relay_id ("/relay/" ++ decimal 3 ++ "/toggle") = 3 ∧
  extract_relay_id ("/relay/" ++ decimal 12 ++ "/toggle") = -1.
Proof.
  assert (H1 : no_leading_digit "/toggle") by reflexivity.
  split; [exact H1|]. split.
  - exact (X13_decimal_index_selects_that_relay_or_none 3 "/toggle" H1).
  - exact (X13_decimal_index_selects_that_relay_or_none 12 "/toggle" H1).
Defined.

(** * Bulk commands against single commands *)

Lemma store_and_drive_calls (e : env) (i : Z) (s : relay_state_t) (w : world) :
  wf_world w →
  0 <= i < RELAY_COUNT →
  ∃ calls,
    trace (store_and_drive e i s w) = (trace w ++ calls)%list ∧
    count_calls is_save_attempt calls = 1%nat ∧
    count_calls is_led_call calls = (if led_initialized w then 2 else 0)%nat.
Proof.
  intros Hwf Hi.
  destruct (trace_store_and_drive e i s w Hi (wf_relays _ Hwf))
    as (calls & Ht & Hc1 & Hc2 & _).
  eexists. split; [exact Ht|].
  rewrite !count_calls_app, Hc1, Hc2.
  assert (Hd : count_calls is_led_call
                 [EvGpioSetLevel (gpio_pin (relay_at w i)) (gpio_level_of s)]
               = 0%nat).
  { unfold count_calls. cbn [List.filter is_led_call].
    destruct (Z.eqb_spec (gpio_pin (relay_at w i)) LED_BUILTIN_GPIO) as [Heq|_];
      [exfalso; exact (relay_pin_not_led w i Hwf Hi Heq) | reflexivity]. }
  rewrite Hd. destruct (led_initialized w); split; reflexivity.
Qed.

Lemma exec_set_state_valid (e : env) (i : Z) (s : relay_state_t) (w : world) :
  0 <= i < RELAY_COUNT →
  exec e (SetState i s) w = store_and_drive e i s w.
Proof.
  intros Hi. cbn [exec]. rewrite (uint8_small i Hi).
  rewrite relay_set_state_valid by lia. reflexivity.
Qed.


Lemma bulk_set_call_counts (e : env) (s : relay_state_t) (w : world) :
  wf_world w →
  count_calls is_save_attempt (new_calls w (snd (relay_all s e w))) = 1%nat ∧
  count_calls is_led_call (new_calls w (snd (relay_all s e w))) = 0%nat.
Proof.
  intros Hwf. split; [|apply bulk_set_makes_no_led_call, Hwf].
  rewrite relay_all_eq. cbn [snd].
  destruct (set_all_loop_spec s w (wf_relays _ Hwf))
    as (_ & _ & _ & _ & Ht & _).
  destruct (trace_save_states e (set_all_loop s w))
    as (calls & Htr & Hc & _).
  rewrite Ht, <- app_assoc in Htr. rewrite (new_calls_app _ _ _ Htr).
  rewrite count_calls_app, Hc, count_calls_drive by (intros; reflexivity).
  reflexivity.
Qed.

(** X18: a bulk set against one set per relay.  On a well-formed world
    whose pins follow the states, [SetState(All, s)] leaves the same
    relay table, the same ledger and the same levels on the relay pins
    as [SetState(i, s)] issued for every relay in turn; it does so with
    one save attempt where the single commands make one each, and with
    no LED call where each single command pulses the LED. *)
Theorem X18_bulk_set_equals_single_sets_on_the_relays
    (e e' : env) (s : relay_state_t) (w : world) :
  wf_world w →
  gpio_matches_state w →
  let wb := snd (relay_all s e w) in
  let ws := exec_all (set_each e' s) w in
  relays wb = relays ws ∧
  last_toggle_time wb = last_toggle_time ws ∧
  (∀ i, 0 <= i < RELAY_COUNT →
        gpio wb !! gpio_pin (relay_at w i) = gpio ws !! gpio_pin (relay_at w i)) ∧
  count_calls is_save_attempt (new_calls w wb) = 1%nat ∧
  count_calls is_save_attempt (new_calls w ws) = Z.to_nat RELAY_COUNT ∧
  count_calls is_led_call (new_calls w wb) = 0%nat ∧
  (led_initialized w = true →
   count_calls is_led_call (new_calls w ws) = (2 * Z.to_nat RELAY_COUNT)%nat).
Proof.
  intros Hwf Hg wb ws.
  pose proof (wf_relays _ Hwf) as Hlen.
  (* the four single commands, one after the other *)
  set (w1 := store_and_drive e' 0 s w).
  destruct (store_and_drive_preserves e' 0 s w Hwf Hg ltac:(unfold RELAY_COUNT; lia))
    as [Hwf1 Hg1]. fold w1 in Hwf1, Hg1.
  set (w2 := store_and_drive e' 1 s w1).
  destruct (store_and_drive_preserves e' 1 s w1 Hwf1 Hg1 ltac:(unfold RELAY_COUNT; lia))
    as [Hwf2 Hg2]. fold w2 in Hwf2, Hg2.
  set (w3 := store_and_drive e' 2 s w2).
  destruct (store_and_drive_preserves e' 2 s w2 Hwf2 Hg2 ltac:(unfold RELAY_COUNT; lia))
    as [Hwf3 Hg3]. fold w3 in Hwf3, Hg3.
  set (w4 := store_and_drive e' 3 s w3).
  destruct (store_and_drive_preserves e' 3 s w3 Hwf3 Hg3 ltac:(unfold RELAY_COUNT; lia))
    as [Hwf4 Hg4]. fold w4 in Hwf4, Hg4.
  assert (Hws : ws = w4).
  { unfold ws, set_each. change (seqZ 0 RELAY_COUNT) with [0; 1; 2; 3].
    cbn [fmap list_fmap exec_all].
    rewrite !exec_set_state_valid by (unfold RELAY_COUNT; lia).
    reflexivity. }
  destruct (set_all_loop_spec s w Hlen) as (Hrb & Hlb & _ & _ & _ & _ & _).
  destruct (relay_all_preserves e s w Hwf) as [Hwfb Hgb]. fold wb in Hwfb, Hgb.
  assert (Hrelb : relays wb = (with_state s <$> relays w)).
  { unfold wb. rewrite relay_all_eq. cbn [snd].
    rewrite relays_save_states. exact Hrb. }
  assert (Hrels : relays ws = (with_state s <$> relays w)).
  { rewrite Hws. unfold w4, w3, w2, w1.
    rewrite !relays_store_and_drive
      by first [apply wf_relays; assumption | unfold RELAY_COUNT; lia].
    destruct (relays w) as [|r0 [|r1 [|r2 [|r3 [|r4 l]]]]]; try discriminate Hlen.
    reflexivity. }
  split; [congruence|]. split.
  { unfold wb. rewrite relay_all_eq. cbn [snd].
    rewrite ledger_save_states, Hlb, Hws. unfold w4, w3, w2, w1.
    rewrite !ledger_store_and_drive_any. reflexivity. }
  split.
  { intros i Hi. destruct (valid_index w i Hlen Hi) as [r Hr].
    assert (Hat : relay_at w i = r) by (unfold relay_at; rewrite Hr; reflexivity).
    rewrite Hat.
    assert (Hb : relays wb !! Z.to_nat i = Some (with_state s r))
      by (rewrite Hrelb, list_lookup_fmap, Hr; reflexivity).
    assert (Hs : relays ws !! Z.to_nat i = Some (with_state s r))
      by (rewrite Hrels, list_lookup_fmap, Hr; reflexivity).
    rewrite Hws in Hs.
    pose proof (Hgb _ _ Hb) as Hb'. pose proof (Hg4 _ _ Hs) as Hs'.
    cbn [with_state gpio_pin state] in Hb', Hs'.
    rewrite Hb', Hws, Hs'. reflexivity. }
  destruct (bulk_set_call_counts e s w Hwf) as [Hcb1 Hcb2].
  split; [exact Hcb1|].
  destruct (store_and_drive_calls e' 0 s w Hwf ltac:(unfold RELAY_COUNT; lia))
    as (c1 & Ht1 & Hs1 & Hl1). fold w1 in Ht1.
  destruct (store_and_drive_calls e' 1 s w1 Hwf1 ltac:(unfold RELAY_COUNT; lia))
    as (c2 & Ht2 & Hs2 & Hl2). fold w2 in Ht2.
  destruct (store_and_drive_calls e' 2 s w2 Hwf2 ltac:(unfold RELAY_COUNT; lia))
    as (c3 & Ht3 & Hs3 & Hl3). fold w3 in Ht3.
  destruct (store_and_drive_calls e' 3 s w3 Hwf3 ltac:(unfold RELAY_COUNT; lia))
    as (c4 & Ht4 & Hs4 & Hl4). fold w4 in Ht4.
  assert (Hnew : new_calls w ws = (c1 ++ c2 ++ c3 ++ c4)%list).
  { apply new_calls_app. rewrite Hws, Ht4, Ht3, Ht2, Ht1, <- !app_assoc.
    reflexivity. }
  rewrite Hnew, !count_calls_app, Hs1, Hs2, Hs3, Hs4, Hl1, Hl2, Hl3, Hl4.
  split; [reflexivity|]. split; [exact Hcb2|].
  intros Hled.
  assert (Hany : ∀ k w0, led_initialized (store_and_drive e' k s w0)
                          = led_initialized w0).
  { intros k w0. rewrite store_and_drive_saves, led_save_states, led_blink_led.
    unfold apply_gpio_state. destruct (k >=? RELAY_COUNT); reflexivity. }
  assert (Hled1 : led_initialized w1 = true)
    by (unfold w1; rewrite Hany; exact Hled).
  assert (Hled2 : led_initialized w2 = true)
    by (unfold w2; rewrite Hany; exact Hled1).
  assert (Hled3 : led_initialized w3 = true)
    by (unfold w3; rewrite Hany; exact Hled2).
  rewrite Hled, Hled1, Hled2, Hled3. reflexivity.
Qed.

Lemma X18_bulk_set_equals_single_sets_on_the_relays_witness :
  wf_world started_world ∧
  gpio_matches_state started_world ∧
  relays (snd (relay_all RELAY_ON (healthy 5) started_world))
  = relays (exec_all (set_each (healthy 5) RELAY_ON) started_world).
Proof.
  assert (H2 : gpio_matches_state started_world).
  { destruct (relay_service_init_ok (healthy 0) (boot_world None) started_world
                (wf_boot_world None) eq_refl) as (_ & _ & Hg & _).
    exact Hg. }
  split; [exact wf_started_world|]. split; [exact H2|].
  exact (proj1 (X18_bulk_set_equals_single_sets_on_the_relays
                  (healthy 5) (healthy 5) RELAY_ON started_world
                  wf_started_world H2)).
Defined.

(** * Replies and their buffers *)

Lemma names_write_state (i : Z) (s : relay_state_t) (w : world) :
  name <$> relays (write_state i s w) = name <$> relays w.
Proof.
  rewrite relays_write_state.
  rewrite (list_fmap_alter name (with_state s) id).
  - apply list_alter_id. reflexivity.
  - apply Forall_forall. intros r _. reflexivity.
Qed.

Lemma relays_apply_gpio_state (i : Z) (w : world) :
  relays (apply_gpio_state i w) = relays w.
Proof. unfold apply_gpio_state. destruct (i >=? RELAY_COUNT); reflexivity. Qed.

Lemma names_store_and_drive (e : env) (i : Z) (s : relay_state_t) (w : world) :
  name <$> relays (store_and_drive e i s w) = name <$> relays w.
Proof.
  rewrite store_and_drive_saves, relays_save_states, relays_blink_led.
  rewrite relays_apply_gpio_state. apply names_write_state.
Qed.

Lemma names_relay_toggle (e : env) (i : Z) (w : world) :
  name <$> relays (snd (relay_toggle e i w)) = name <$> relays w.
Proof.
  unfold relay_toggle, debounce_check.
  destruct (i >=? RELAY_COUNT); [reflexivity|].
  destruct (uint32 (now_ms e - last_toggle_at w i) <? RELAY_DEBOUNCE_MS);
    [reflexivity|].
  cbn [negb snd].
  match goal with
  | |- context [relay_save_states e (blink_led (apply_gpio_state i
                  (write_state i ?s ?w1)))] =>
      change (name <$> relays (store_and_drive e i s w1) = name <$> relays w);
      rewrite names_store_and_drive
  end.
  reflexivity.
Qed.

Lemma names_relay_set_state (e : env) (i : Z) (s : relay_state_t) (w : world) :
  name <$> relays (snd (relay_set_state e i s w)) = name <$> relays w.
Proof.
  unfold relay_set_state. destruct (i >=? RELAY_COUNT); [reflexivity|].
  cbn [snd]. apply names_store_and_drive.
Qed.

Lemma names_set_all_loop (s : relay_state_t) (w : world) :
  name <$> relays (set_all_loop s w) = name <$> relays w.
Proof.
  unfold set_all_loop.
  apply (for_loop_ind (fun _ acc => name <$> relays acc = name <$> relays w));
    [discriminate | reflexivity |].
  intros i acc _ IH. rewrite relays_apply_gpio_state, names_write_state.
  exact IH.
Qed.

Lemma names_exec (e : env) (c : command) (w : world) :
  name <$> relays (exec e c w) = name <$> relays w.
Proof.
  destruct c as [i | i s | i | s |]; cbn [exec].
  - apply names_relay_toggle.
  - apply names_relay_set_state.
  - reflexivity.
  - rewrite relay_all_eq. cbn [snd]. rewrite relays_save_states.
    apply names_set_all_loop.
  - rewrite relays_save_states. reflexivity.
Qed.

Lemma names_exec_all (cs : list (env * command)) (w : world) :
  name <$> relays (exec_all cs w) = name <$> relays w.
Proof.
  revert w. induction cs as [|[e c] cs IH]; intros w; [reflexivity|].
  cbn [exec_all]. rewrite IH. apply names_exec.
Qed.

Lemma names_unpack_states (v : Z) (w : world) :
  name <$> relays (unpack_states v w) = name <$> relays w.
Proof.
  unfold unpack_states.
  apply (for_loop_ind (fun _ acc => name <$> relays acc = name <$> relays w));
    [discriminate | reflexivity |].
  intros i acc _ IH. rewrite names_write_state. exact IH.
Qed.

Lemma names_relay_load_states (e : env) (w : world) :
  name <$> relays (snd (relay_load_states e w)) = name <$> relays w.
Proof.
  unfold relay_load_states.
  destruct (negb (rc_nvs_open e =? ESP_OK)); [reflexivity|].
  destruct (nvs_get_u8 e _) as [ret v].
  destruct (negb (ret =? ESP_OK)); [reflexivity|].
  cbn [snd]. rewrite names_unpack_states. reflexivity.
Qed.

Lemma relays_apply_all (w : world) :
  relays (for_loop RELAY_COUNT apply_gpio_state w) = relays w.
Proof.
  apply (for_loop_ind (fun _ acc => relays acc = relays w));
    [discriminate | reflexivity |].
  intros i acc _ IH. rewrite relays_apply_gpio_state. exact IH.
Qed.

Lemma names_after_init (e : env) (stored : option Z) (w0 : world)
    (cs : list (env * command)) :
  relay_service_init e (boot_world stored) = (ESP_OK, w0) →
  names_configured (exec_all cs w0).
Proof.
  intros Hinit. unfold names_configured. rewrite names_exec_all.
  destruct (relay_service_init_unfold e _ w0 Hinit) as (w2 & Hr & _ & _ & ->).
  rewrite relays_apply_all, names_relay_load_states, Hr. reflexivity.
Qed.

Lemma name_at_configured (w : world) (i : Z) :
  names_configured w →
  0 <= i < RELAY_COUNT →
  name (relay_at w i) = name (relay_at (boot_world None) i).
Proof.
  intros Hn Hi. unfold relay_at.
  assert (Hl : name <$> (relays w !! Z.to_nat i)
               = name <$> (initial_relays !! Z.to_nat i)).
  { rewrite <- !list_lookup_fmap, Hn. reflexivity. }
  cbn [boot_world relays].
  assert (Hcases : i = 0 ∨ i = 1 ∨ i = 2 ∨ i = 3)
    by (unfold RELAY_COUNT in Hi; lia).
  destruct Hcases as [-> | [-> | [-> | ->]]];
    destruct (relays w !! _) as [r|]; cbn in Hl; try discriminate Hl;
    injection Hl as Hl; exact Hl.
Qed.

Lemma snprintf_fits (size : Z) (text : string) :
  Z.of_nat (String.length text) < size →
  snprintf size text = text.
Proof.
  intros Hlen. unfold snprintf.
  assert (Hgen : ∀ (t : string) (n : nat),
            (String.length t <= n)%nat → String.substring 0 n t = t).
  { induction t as [|c t IH]; intros n Hn.
    - destruct n; reflexivity.
    - destruct n as [|n]; cbn in Hn; [lia|].
      cbn [String.substring]. rewrite IH by lia. reflexivity. }
  apply Hgen. lia.
Qed.

Lemma relay_status_fits (i st : Z) (w : world) :
  names_configured w →
  0 <= i < RELAY_COUNT →
  st = 0 ∨ st = 1 →
  Z.of_nat (String.length (render (JSON_RELAY_STATUS i (name (relay_at w i)) st)))
  < buffer_size (JSON_RELAY_STATUS i (name (relay_at w i)) st).
Proof.
  intros Hn Hi Hst. rewrite (name_at_configured w i Hn Hi).
  assert (Hcases : i = 0 ∨ i = 1 ∨ i = 2 ∨ i = 3)
    by (unfold RELAY_COUNT in Hi; lia).
  destruct Hcases as [-> | [-> | [-> | ->]]]; destruct Hst as [-> | ->];
    vm_compute; reflexivity.
Qed.

Lemma all_status_fits (w : world) :
  names_configured w →
  let entries :=
    (fun i => (i, name (relay_at w i), state_value (state_at w i)))
      <$> seqZ 0 RELAY_COUNT in
  Z.of_nat (String.length (render (JSON_ALL_STATUS entries)))
  < buffer_size (JSON_ALL_STATUS entries).
Proof.
  intros Hn entries. unfold entries.
  change (seqZ 0 RELAY_COUNT) with [0; 1; 2; 3]. cbn [fmap list_fmap].
  rewrite !(name_at_configured w _ Hn) by (unfold RELAY_COUNT; lia).
  destruct (state_at w 0), (state_at w 1), (state_at w 2), (state_at w 3);
    vm_compute; reflexivity.
Qed.

Lemma relay_toggle_value (e : env) (i : Z) (w : world) :
  i < RELAY_COUNT →
  fst (relay_toggle e i w) = 0 ∨ fst (relay_toggle e i w) = 1.
Proof.
  intros Hi. unfold relay_toggle.
  destruct (i >=? RELAY_COUNT) eqn:Hge; [lia|].
  destruct (debounce_check e i w) as [passed w1].
  destruct (negb passed); cbn [fst];
    match goal with |- context [state_value ?s] => destruct s end; auto.
Qed.


Lemma handler_status_all_entries (uri : string) (w : world) :
  extract_relay_id uri = -2 →
  handler_status uri w
  = send_json_response
      (JSON_ALL_STATUS
         ((fun i => (i, name (relay_at w i), state_value (state_at w i)))
            <$> seqZ 0 RELAY_COUNT)) ∧ True.
Proof.
  intros Huri. split; [|exact I]. unfold handler_status. rewrite Huri.
  reflexivity.
Qed.

(** X16: no reply is truncated and no reply buffer overflows.  After a
    successful start-up and any sequence of commands, the text that the
    toggle, on, off and status handlers produce for any request is
    shorter than the local array it is written to (256 bytes for one
    relay, 512 for all relays, where the handler uses an unbounded
    [sprintf], 64 for errors and acknowledgements), so [snprintf] returns
    it whole. *)
Theorem X16_replies_fit_their_buffers
    (e0 e : env) (stored : option Z) (w0 : world)
    (cs : list (env * command)) (uri : string) (r : response) :
  relay_service_init e0 (boot_world stored) = (ESP_OK, w0) →
  r ∈ [fst (handler_toggle e uri (exec_all cs w0));
       fst (handler_on e uri (exec_all cs w0));
       fst (handler_off e uri (exec_all cs w0));
       handler_status uri (exec_all cs w0)] →
  Z.of_nat (String.length (render (body r))) < buffer_size (body r) ∧
  snprintf (buffer_size (body r)) (render (body r)) = render (body r).
Proof.
  intros Hinit Hr.
  pose proof (names_after_init e0 stored w0 cs Hinit) as Hn.
  set (w := exec_all cs w0) in *.
  assert (Hfit : Z.of_nat (String.length (render (body r))) < buffer_size (body r));
    [|split; [exact Hfit | apply snprintf_fits, Hfit]].
  destruct (extract_relay_id_range uri) as [Hid|[Hid|Hid]].
  - (* the target All *)
    repeat (apply elem_of_cons in Hr as [-> | Hr]); [| | | |inversion Hr].
    + unfold handler_toggle. rewrite Hid. vm_compute. reflexivity.
    + unfold handler_on. rewrite Hid. vm_compute. reflexivity.
    + unfold handler_off. rewrite Hid. vm_compute. reflexivity.
    + destruct (handler_status_all_entries uri w Hid) as [-> _].
      apply (all_status_fits w Hn).
  - (* no target *)
    repeat (apply elem_of_cons in Hr as [-> | Hr]); [| | | |inversion Hr];
      [unfold handler_toggle | unfold handler_on | unfold handler_off
       | unfold handler_status]; rewrite Hid; vm_compute; reflexivity.
  - (* one relay *)
    assert (Hpos : 0 <= extract_relay_id uri) by lia.
    repeat (apply elem_of_cons in Hr as [-> | Hr]); [| | | |inversion Hr].
    + rewrite handler_toggle_reply by exact Hpos. cbn [fst body send_json_response].
      apply relay_status_fits; [|exact Hid|apply relay_toggle_value; lia].
      unfold names_configured. rewrite names_relay_toggle. exact Hn.
    + rewrite handler_on_reply by exact Hpos. cbn [fst body send_json_response].
      apply relay_status_fits; [|exact Hid|auto].
      unfold names_configured. rewrite names_relay_set_state. exact Hn.
    + rewrite handler_off_reply by exact Hpos. cbn [fst body send_json_response].
      apply relay_status_fits; [|exact Hid|auto].
      unfold names_configured. rewrite names_relay_set_state. exact Hn.
    + rewrite handler_status_reply by exact Hpos. cbn [body send_json_response].
      apply relay_status_fits; [exact Hn|exact Hid|].
      destruct (state_at w (extract_relay_id uri)); auto.
Qed.

Lemma X16_replies_fit_their_buffers_witness :
  relay_service_init (healthy 0) (boot_world None) = (ESP_OK, started_world) ∧
  handler_status "/relay/all/status"
    (exec_all [(healthy 10, SetStateAll RELAY_ON)] started_world)
  ∈ [fst (handler_toggle (healthy 20) "/relay/all/status"
            (exec_all [(healthy 10, SetStateAll RELAY_ON)] started_world));
     fst (handler_on (healthy 20) "/relay/all/status"
            (exec_all [(healthy 10, SetStateAll RELAY_ON)] started_world));
     fst (handler_off (healthy 20) "/relay/all/status"
            (exec_all [(healthy 10, SetStateAll RELAY_ON)] started_world));
     handler_status "/relay/all/status"
       (exec_all [(healthy 10, SetStateAll RELAY_ON)] started_world)] ∧
  Z.of_nat (String.length
              (render (body (handler_status "/relay/all/status"
                 (exec_all [(healthy 10, SetStateAll RELAY_ON)] started_world)))))
  < 512.
Proof.
  assert (H1 : relay_service_init (healthy 0) (boot_world None)
               = (ESP_OK, started_world)) by reflexivity.
  assert (H2 : handler_status "/relay/all/status"
                 (exec_all [(healthy 10, SetStateAll RELAY_ON)] started_world)
               ∈ [fst (handler_toggle (healthy 20) "/relay/all/status"
                         (exec_all [(healthy 10, SetStateAll RELAY_ON)]
                            started_world));
                  fst (handler_on (healthy 20) "/relay/all/status"
                         (exec_all [(healthy 10, SetStateAll RELAY_ON)]
                            started_world));
                  fst (handler_off (healthy 20) "/relay/all/status"
                         (exec_all [(healthy 10, SetStateAll RELAY_ON)]
                            started_world));
                  handler_status "/relay/all/status"
                    (exec_all [(healthy 10, SetStateAll RELAY_ON)]
                       started_world)]).
  { do 3 apply list_elem_of_further. apply list_elem_of_here. }
  split; [exact H1|]. split; [exact H2|].
  exact (proj1 (X16_replies_fit_their_buffers
                  (healthy 0) (healthy 20) None started_world
                  [(healthy 10, SetStateAll RELAY_ON)] "/relay/all/status"
                  _ H1 H2)).
Defined.

(** * The registered routes *)

Lemma registered_route_target (path : string) (h : handler_t) (query : string) :
  (path, h) ∈ uri_handlers →
  h ≠ HANDLER_HOME →
  extract_relay_id (path ++ query) = extract_relay_id path ∧
  extract_relay_id path ≠ -1 ∧
  (h = HANDLER_TOGGLE → 0 <= extract_relay_id path).
Proof.
  intros Hin Hh. unfold uri_handlers in Hin.
  repeat (apply elem_of_cons in Hin as [Heq | Hin]);
    [injection Heq as -> -> .. | inversion Hin];
    try (exfalso; apply Hh; reflexivity);
    (split; [vm_compute; reflexivity|]);
    (split; [vm_compute; congruence|]);
    intros Ht; try discriminate Ht; vm_compute; congruence.
Qed.

(** X17: the routes and the handlers agree.  The registrations fit the
    [max_uri_handlers] slots that [http_controller_init] asks for and no
    URI is registered twice; and every registered relay route, with or
    without text after the path, is parsed by its handler to the target
    its path names and answered 200, in every state of the service: the
    400 and 404 branches of the handlers cannot be reached through a
    registered route, and no toggle route is registered for [all]. *)
Theorem X17_registered_routes_are_served
    (e : env) (w : world) (query : string) :
  Z.of_nat (length uri_handlers) <= max_uri_handlers ∧
  NoDup (fst <$> uri_handlers) ∧
  (extract_relay_id <$> (fst <$> drop 1 uri_handlers))
    = [0; 1; 2; 3; 0; 1; 2; 3; -2; 0; 1; 2; 3; -2; 0; 1; 2; 3; -2] ∧
  ∀ path h, (path, h) ∈ uri_handlers → h ≠ HANDLER_HOME →
    extract_relay_id (path ++ query) = extract_relay_id path ∧
    ∃ r w', run_handler e h (path ++ query) w = Some (r, w') ∧
            http_status r = "200 OK".
Proof.
  split; [vm_compute; congruence|].
  split; [apply (bool_decide_unpack _); vm_compute; reflexivity|].
  split; [vm_compute; reflexivity|].
  intros path h Hin Hh.
  destruct (registered_route_target path h query Hin Hh) as (Hq & Hne & Htog).
  split; [exact Hq|].
  destruct (handler_status_lines e (path ++ query) w) as (Ht & Hon & Hoff & Hs).
  rewrite Hq in Ht, Hon, Hoff, Hs.
  destruct (Z.eqb_spec (extract_relay_id path) (-1)) as [Heq|_];
    [contradiction|].
  destruct h; [contradiction | | | |]; cbn [run_handler].
  - specialize (Htog eq_refl).
    destruct (Z.ltb_spec (extract_relay_id path) 0); [lia|].
    destruct (handler_toggle e (path ++ query) w) as [r w'].
    exists r, w'. split; [reflexivity | exact Ht].
  - exists (handler_status (path ++ query) w), w.
    split; [reflexivity | exact Hs].
  - destruct (handler_on e (path ++ query) w) as [r w'].
    exists r, w'. split; [reflexivity | exact Hon].
  - destruct (handler_off e (path ++ query) w) as [r w'].
    exists r, w'. split; [reflexivity | exact Hoff].
Qed.

(** * The server handle *)

Lemma http_controller_init_ok (he : httpd_env) (sv : server) :
  rc_httpd_start he = ESP_OK →
  http_controller_init he sv
  = (ESP_OK,
     {| s_server := Some (started_handle he);
        httpd_calls :=
          httpd_calls sv ++ HttpdStart
            :: ((fun r => HttpdRegisterUriHandler (fst r) (snd r))
                  <$> uri_handlers) |}).
Proof.
  intros Hok. unfold http_controller_init. rewrite Hok.
  cbn [Z.eqb ESP_OK negb]. unfold uri_handlers.
  cbn [foldl s_server httpd_calls fmap list_fmap fst snd].
  rewrite <- !app_assoc. reflexivity.
Qed.

(** X19: stopping the server always gives the handle up.  Whatever
    [httpd_stop] answers, [http_controller_stop] leaves [s_server] at
    [NULL]; so after a stop that failed, a second stop does not call
    [httpd_stop] again and returns [ESP_OK], and the handle of the still
    running server can no longer be obtained.  Stopping a server that
    was never started is the same no-op. *)
Theorem X19_stop_always_drops_the_handle
    (he he' : httpd_env) (sv : server) :
  let sv1 := snd (http_controller_stop he sv) in
  http_controller_get_handle sv1 = None ∧
  http_controller_stop he' sv1 = (ESP_OK, sv1) ∧
  (s_server sv = None → http_controller_stop he sv = (ESP_OK, sv)) ∧
  (∀ handle, s_server sv = Some handle →
     fst (http_controller_stop he sv) = rc_httpd_stop he ∧
     httpd_calls sv1 = (httpd_calls sv ++ [HttpdStop handle])%list).
Proof.
  cbv zeta. unfold http_controller_stop, http_controller_get_handle.
  destruct (s_server sv) as [handle|] eqn:Hs; cbn [fst snd s_server httpd_calls].
  - split; [reflexivity|]. split; [reflexivity|].
    split; [discriminate|].
    intros h Hh. injection Hh as <-. split; reflexivity.
  - rewrite Hs. split; [reflexivity|]. split; [reflexivity|].
    split; [reflexivity|]. intros h Hh. discriminate Hh.
Qed.

(** * Boot *)

Lemma app_main_relays (b : boot_env) (e : env) (he : httpd_env)
    (stored : option Z) (w : world) :
  relays_after (app_main b e he stored) = Some w →
  ∃ stored' w0,
    init_nvs b stored = Some (ESP_OK, stored') ∧
    relay_service_init e (boot_world stored') = (ESP_OK, w0) ∧
    relays w = relays w0 ∧ gpio w = gpio w0 ∧
    (partition_erased b = true → stored' = None) ∧
    (partition_erased b = false → stored' = stored).
Proof.
  unfold app_main.
  destruct (init_nvs b stored) as [[ret stored']|] eqn:Hnvs; [|discriminate].
  destruct (Z.eqb_spec ret ESP_OK) as [->|Hbad]; cbn [negb]; [|discriminate].
  destruct (relay_service_init e (boot_world stored')) as [ret w0] eqn:Hinit.
  destruct (Z.eqb_spec ret ESP_OK) as [->|Hbad]; cbn [negb]; [|discriminate].
  assert (Her : (partition_erased b = true → stored' = None) ∧
                (partition_erased b = false → stored' = stored)).
  { unfold init_nvs in Hnvs. fold (partition_erased b) in Hnvs.
    destruct (partition_erased b).
    - destruct (negb (rc_nvs_flash_erase b =? ESP_OK)); [discriminate|].
      injection Hnvs as _ <-. split; [reflexivity | discriminate].
    - injection Hnvs as _ <-. split; [discriminate | reflexivity]. }
  destruct (negb (rc_wifi_service_init b =? ESP_OK)).
  - cbn [relays_after]. intros Heq. injection Heq as <-.
    exists stored', w0. split; [reflexivity|]. split; [exact Hinit|].
    split; [reflexivity|]. split; [reflexivity|]. exact Her.
  - destruct (http_controller_init he no_server) as [ret sv].
    destruct (negb (ret =? ESP_OK)); [discriminate|].
    cbn [relays_after]. intros Heq. injection Heq as <-.
    exists stored', w0. split; [reflexivity|]. split; [exact Hinit|].
    split; [reflexivity|]. split; [reflexivity|]. exact Her.
Qed.

(** X20: the relays do not wait for the network.  Whenever [app_main]
    gets past the relay service, whether it then restarts because WiFi
    did not connect or goes on to serve requests, every relay is in its
    boot state with its pin at the level of that state; and when
    [init_nvs] had to erase the partition (no free pages, or a new NVS
    version), the snapshot is gone and every relay starts Off with its
    pin released. *)
Theorem X20_relays_are_driven_whatever_the_network_does
    (b : boot_env) (e : env) (he : httpd_env) (stored : option Z)
    (w : world) (i : Z) :
  relays_after (app_main b e he stored) = Some w →
  0 <= i < RELAY_COUNT →
  gpio w !! gpio_pin (relay_at w i) = Some (gpio_level_of (state_at w i)) ∧
  state_at w i
    = boot_state e (if partition_erased b then None else stored) i ∧
  (partition_erased b = true →
   state_at w i = RELAY_OFF ∧ gpio w !! gpio_pin (relay_at w i) = Some 1).
Proof.
  intros Hafter Hi.
  destruct (app_main_relays b e he stored w Hafter)
    as (stored' & w0 & _ & Hinit & Hr & Hg & He1 & He2).
  assert (Hat : relay_at w i = relay_at w0 i)
    by (unfold relay_at; rewrite Hr; reflexivity).
  assert (Hst : state_at w i = state_at w0 i)
    by (unfold state_at; rewrite Hat; reflexivity).
  assert (Hrc : relay_service_init e (boot_world stored') = (ESP_OK, w0))
    by exact Hinit.
  destruct (relay_service_init_state_at e stored' w0 i Hrc Hi) as [Hb _].
  destruct (relay_service_init_ok e _ w0 (wf_boot_world stored') Hrc)
    as (Hwf0 & _ & Hg0 & _).
  assert (Hlvl : gpio w !! gpio_pin (relay_at w i)
                 = Some (gpio_level_of (state_at w i))).
  { rewrite Hst, Hat, Hg.
    destruct (valid_index w0 i (wf_relays _ Hwf0) Hi) as [r Hri].
    unfold state_at, relay_at. rewrite Hri. apply (Hg0 (Z.to_nat i)), Hri. }
  split; [exact Hlvl|].
  assert (Hstored : stored' = if partition_erased b then None else stored).
  { destruct (partition_erased b); [apply He1 | apply He2]; reflexivity. }
  split; [rewrite Hst, Hb, Hstored; reflexivity|].
  intros Her. rewrite Hlvl, Hst, Hb, (He1 Her).
  assert (Hoff : boot_state e None i = RELAY_OFF).
  { unfold boot_state.
    destruct ((rc_nvs_open e =? ESP_OK) && (rc_nvs_get e =? ESP_OK));
      reflexivity. }
  rewrite Hoff. split; reflexivity.
Qed.

Lemma X20_relays_are_driven_whatever_the_network_does_witness :
  relays_after (app_main truncated_boot (healthy 0) httpd_fine (Some 15))
  = Some (vTaskDelay_ms 5000 started_world) ∧
  0 <= 2 < RELAY_COUNT ∧
  state_at (vTaskDelay_ms 5000 started_world) 2 = RELAY_OFF.
Proof.
  assert (H1 : relays_after
                 (app_main truncated_boot (healthy 0) httpd_fine (Some 15))
               = Some (vTaskDelay_ms 5000 started_world))
    by (vm_compute; reflexivity).
  assert (H2 : 0 <= 2 < RELAY_COUNT) by (vm_compute; split; congruence).
  split; [exact H1|]. split; [exact H2|].
  destruct (X20_relays_are_driven_whatever_the_network_does
              truncated_boot (healthy 0) httpd_fine (Some 15) _ 2 H1 H2)
    as (_ & _ & Her).
  exact (proj1 (Her eq_refl)).
Defined.

(** * What the parser rejects, and what the routes keep from it *)








